(** * iNaturalist image downloader: the retrying batch-fetch engine

    A shallow embedding of [inaturalist_downloader.py] and the proofs of
    its specification.  The embedding follows the source function by
    function:

    - [get_file_extension]                     (source lines 21-48)
    - [download_with_retry]                    (source lines 60-82)
    - the start-index scan of [download_images] (source lines 209-217)
    - the worker [download]                    (source lines 232-314)

    Conventions.  Python [str] values are [string]s of ASCII characters,
    Python [int]s are [Z] (or [N]/[nat] where the source only counts up),
    Python [float]s (clock readings, speeds) are exact rationals [Q]
    (the two numeric examples of the progress display are evaluated in
    binary64 as well, at the end of the file).
    The network, the clock, the disk and the Cancel button are the
    environment: they are given by an oracle record [World], and the
    program is a state-and-exception monad over the record [State]. *)

From Stdlib Require Import ZArith NArith QArith Lia ZifyBool Ascii String.
From Stdlib Require Import DecimalString DecimalN DecimalPos DecimalFacts.
From Stdlib Require Import Permutation.
From Stdlib Require PrimFloat.
From stdpp Require Import base list strings gmap.

#[local] Open Scope Z_scope.

(* ================================================================== *)
(** * Python string primitives *)
(* ================================================================== *)

Module PyStr.

(** Code point of a character. *)
Definition ord (c : ascii) : N := N_of_ascii c.

Definition is_upper (c : ascii) : bool :=
  ((65 <=? ord c) && (ord c <=? 90))%N.

Definition is_lower (c : ascii) : bool :=
  ((97 <=? ord c) && (ord c <=? 122))%N.

(** [\d] on ASCII text. *)
Definition is_digit (c : ascii) : bool :=
  ((48 <=? ord c) && (ord c <=? 57))%N.

(** [\w] on ASCII text: letters, digits and the underscore. *)
Definition is_word (c : ascii) : bool :=
  is_digit c || is_upper c || is_lower c || (ord c =? 95)%N.

(** [str.isspace] on ASCII text: tab, LF, VT, FF, CR, the four
    separators FS, GS, RS, US, and the space. *)
Definition is_space (c : ascii) : bool :=
  ((9 <=? ord c) && (ord c <=? 13) || (28 <=? ord c) && (ord c <=? 32))%N.

Definition lower_char (c : ascii) : ascii :=
  if is_upper c then ascii_of_N (ord c + 32) else c.

(** [s.lower()] *)
Fixpoint lower (s : string) : string :=
  match s with
  | EmptyString => EmptyString
  | String c s' => String (lower_char c) (lower s')
  end.

(** [s.lstrip()] *)
Fixpoint lstrip (s : string) : string :=
  match s with
  | EmptyString => EmptyString
  | String c s' => if is_space c then lstrip s' else s
  end.

(** [s.rstrip()] *)
Fixpoint rstrip (s : string) : string :=
  match s with
  | EmptyString => EmptyString
  | String c s' =>
      match rstrip s' with
      | EmptyString => if is_space c then EmptyString else String c EmptyString
      | r => String c r
      end
  end.

(** [s.strip()] *)
Definition strip (s : string) : string := rstrip (lstrip s).

(** [s.split(sep)[0]] for a one-character separator: the text before
    the first occurrence of [sep], the whole of [s] when there is none. *)
Fixpoint split_head (sep : ascii) (s : string) : string :=
  match s with
  | EmptyString => EmptyString
  | String c s' =>
      if Ascii.eqb c sep then EmptyString else String c (split_head sep s')
  end.

(** [sub in s] *)
Fixpoint contains (sub s : string) : bool :=
  if String.prefix sub s then true
  else match s with
       | EmptyString => false
       | String _ s' => contains sub s'
       end.

(** Truth value of a string: [if s:] *)
Definition truthy (s : string) : bool :=
  match s with EmptyString => false | _ => true end.

(** [str(n)] for a non-negative integer. *)
Definition str_N (n : N) : string :=
  NilEmpty.string_of_uint (N.to_uint n).

(** [str(z)] for an integer. *)
Definition str_Z (z : Z) : string :=
  match z with
  | Z.neg p => String "-"%char (str_N (N.pos p))
  | _ => str_N (Z.to_N z)
  end.

Definition digit_value (c : ascii) : N := (ord c - 48)%N.

(** [int(s)] for a string of decimal digits, most significant first. *)
Fixpoint int_acc (s : string) (acc : N) : N :=
  match s with
  | EmptyString => acc
  | String c s' => int_acc s' (10 * acc + digit_value c)%N
  end.

Definition int (s : string) : N := int_acc s 0%N.

(** [s[:n]] *)
Fixpoint take (n : nat) (s : string) : string :=
  match n, s with
  | S n', String c s' => String c (take n' s')
  | _, _ => EmptyString
  end.

(** Every character of [s] satisfies [p]. *)
Fixpoint all (p : ascii -> bool) (s : string) : bool :=
  match s with
  | EmptyString => true
  | String c s' => p c && all p s'
  end.

End PyStr.

(* ================================================================== *)
(** * [get_file_extension] *)
(* ================================================================== *)

(** The dict literal [content_type_map]. *)
Definition content_type_map : gmap string string :=
  list_to_map
    [ ("image/jpeg", ".jpg");
      ("image/jpg", ".jpg");
      ("image/png", ".png");
      ("image/gif", ".gif");
      ("image/webp", ".webp");
      ("image/bmp", ".bmp");
      ("image/tiff", ".tiff");
      ("image/svg+xml", ".svg") ].

(** The list the fallback loop walks, in the order of the source. *)
Definition url_extensions : list string :=
  [".jpg"; ".jpeg"; ".png"; ".gif"; ".webp"; ".bmp"; ".tiff"; ".svg"].

(** [for ext in exts: if ext in url_lower: return ...]; [None] when the
    loop falls through. *)
Fixpoint url_extension_loop (exts : list string) (url_lower : string)
  : option string :=
  match exts with
  | [] => None
  | ext :: rest =>
      if PyStr.contains ext url_lower
      then Some (if String.eqb ext ".jpeg" then ".jpg" else ext)
      else url_extension_loop rest url_lower
  end.

(** Lines 41-48: the fallback on the URL, then the default. *)
Definition extension_from_url (url : string) : string :=
  let url_lower := PyStr.lower url in
  match url_extension_loop url_extensions url_lower with
  | Some ext => ext
  | None => ".jpg"
  end.

Definition get_file_extension (content_type url : string) : string :=
  if PyStr.truthy content_type then
    let main_type :=
      PyStr.lower (PyStr.strip (PyStr.split_head ";" content_type)) in
    match content_type_map !! main_type with
    | Some ext => ext
    | None => extension_from_url url
    end
  else extension_from_url url.

(** The resolver in the words of the specification (section 4.2), stage
    by stage; [get_file_extension] is compared with it below. *)
Module ExtensionResolver.

(** The fixed table of stage 1. *)
Definition table (main_type : string) : option string :=
  if String.eqb main_type "image/jpeg" then Some ".jpg"
  else if String.eqb main_type "image/jpg" then Some ".jpg"
  else if String.eqb main_type "image/png" then Some ".png"
  else if String.eqb main_type "image/gif" then Some ".gif"
  else if String.eqb main_type "image/webp" then Some ".webp"
  else if String.eqb main_type "image/bmp" then Some ".bmp"
  else if String.eqb main_type "image/tiff" then Some ".tiff"
  else if String.eqb main_type "image/svg+xml" then Some ".svg"
  else None.

(** Stage 1: the declared type without its parameters, trimmed and
    lower-cased, looked up in the table. *)
Definition stage1 (declared : string) : option string :=
  match declared with
  | EmptyString => None
  | _ => table (PyStr.lower (PyStr.strip (PyStr.split_head ";" declared)))
  end.

(** Stages 2 and 3: the substrings in their priority order, then the
    default. *)
Definition stage2 (source_id : string) : string :=
  let u := PyStr.lower source_id in
  if PyStr.contains ".jpg" u then ".jpg"
  else if PyStr.contains ".jpeg" u then ".jpg"
  else if PyStr.contains ".png" u then ".png"
  else if PyStr.contains ".gif" u then ".gif"
  else if PyStr.contains ".webp" u then ".webp"
  else if PyStr.contains ".bmp" u then ".bmp"
  else if PyStr.contains ".tiff" u then ".tiff"
  else if PyStr.contains ".svg" u then ".svg"
  else ".jpg".

Definition resolve (declared source_id : string) : string :=
  match stage1 declared with
  | Some ext => ext
  | None => stage2 source_id
  end.

End ExtensionResolver.

(* ================================================================== *)
(** * The start-index scan of [download_images] *)
(* ================================================================== *)

Module Numbering.
Import PyStr.

(** [s] without the literal prefix [p], when it has that prefix. *)
Fixpoint skip_prefix (p s : string) : option string :=
  match p, s with
  | EmptyString, _ => Some s
  | String a p', String b s' =>
      if Ascii.eqb a b then skip_prefix p' s' else None
  | String _ _, EmptyString => None
  end.

(** The longest run of digits at the start of [s], and what follows. *)
Fixpoint span_digits (s : string) : string * string :=
  match s with
  | EmptyString => (EmptyString, EmptyString)
  | String c s' =>
      if is_digit c
      then let (ds, rest) := span_digits s' in (String c ds, rest)
      else (EmptyString, s)
  end.

(** The pattern [image_(\d+)\.\w+] tried at the start of [s]; the
    result is group 1.  The greedy [\d+] takes the whole digit run:
    any shorter run is followed by a digit, where the pattern wants
    the dot, so backtracking into it cannot succeed.  After the dot one
    word character is enough for [\w+] to match. *)
Definition match_here (s : string) : option string :=
  match skip_prefix "image_" s with
  | None => None
  | Some s1 =>
      match span_digits s1 with
      | (EmptyString, _) => None
      | (ds, String dot (String c _)) =>
          if Ascii.eqb dot "." && is_word c then Some ds else None
      | (_, _) => None
      end
  end.

(** [re.search(r'image_(\d+)\.\w+', img)]: the pattern is tried at
    every position from the left; the result is [match.group(1)] of
    the first position where it matches. *)
Fixpoint re_search (img : string) : option string :=
  match match_here img with
  | Some g => Some g
  | None =>
      match img with
      | EmptyString => None
      | String _ img' => re_search img'
      end
  end.

(** Lines 211-216: the loop over [existing_images], started from the
    current value of [max_num]. *)
Fixpoint scan (existing_images : list string) (max_num : N) : N :=
  match existing_images with
  | [] => max_num
  | img :: rest =>
      match re_search img with
      | Some g =>
          let num := int g in
          scan rest (if (max_num <? num)%N then num else max_num)
      | None => scan rest max_num
      end
  end.

(** Lines 210-217: [max_num = 0; for ...; starting_num = max_num + 1]. *)
Definition starting_num (existing_images : list string) : N :=
  (scan existing_images 0 + 1)%N.

(** The pattern in the words of the specification: [name] reads
    [pre], then the literal [image_], the digits [g] (one or more),
    a dot, the word characters [ext] (one or more), then anything. *)
Definition matches_at (name pre g : string) : Prop :=
  exists ext rest,
    name = pre +:+ "image_" +:+ g +:+ "." +:+ ext +:+ rest
    /\ g <> "" /\ all is_digit g = true
    /\ ext <> "" /\ all is_word ext = true.

(** [pre] is the first position at which the pattern occurs in [name]. *)
Definition leftmost (name pre : string) : Prop :=
  forall pre' g', matches_at name pre' g' ->
                  (String.length pre <= String.length pre')%nat.

(** [r] does not start with a digit. *)
Definition no_leading_digit (r : string) : Prop :=
  match r with
  | EmptyString => True
  | String c _ => is_digit c = false
  end.

(** The numbers of the names that match, in the order of the names. *)
Definition image_numbers (existing_images : list string) : list N :=
  omap (fun img => int <$> re_search img) existing_images.

(** The largest element of a list of numbers, [0] for the empty list. *)
Definition max_of (l : list N) : N := foldr N.max 0%N l.

End Numbering.

(* ================================================================== *)
(** * The environment: network, clock, disk, Cancel button *)
(* ================================================================== *)

(** What the program reads of a [requests.Response]. *)
Record Response : Type := mkResponse {
  status_code : Z;
  reason : string;
  content : list Byte.byte;
  (** [headers.get('Content-Type')]; [None] when the header is absent *)
  header_content_type : option string
}.

(** The exceptions the program meets.  [Timeout] and [HTTPError] are
    subclasses of [RequestException]; an [HTTPError] carries the status
    of the response that caused it. *)
Inductive exn : Type :=
| Timeout (msg : string)
| HTTPError (msg : string) (status : Z)
| RequestException (msg : string)
| ValueError (msg : string)
| OSError (msg : string).

(** [str(e)] *)
Definition str_exn (e : exn) : string :=
  match e with
  | Timeout msg | HTTPError msg _ | RequestException msg
  | ValueError msg | OSError msg => msg
  end.

(** One call of [requests.get]: it times out, fails in another way
    (connection, DNS, ...: some other [RequestException]), or returns. *)
Inductive net_result : Type :=
| NetTimeout (msg : string)
| NetError (msg : string)
| NetResponse (r : Response).

(** One [open(path, 'wb')] followed by [handler.write(data)]: both
    succeed, [open] raises and the directory is untouched, or [write]
    raises after [written] bytes of the new file. *)
Inductive disk_result : Type :=
| DiskOk
| DiskOpenError (msg : string)
| DiskWriteError (msg : string) (written : nat).

Record World : Type := mkWorld {
  (** the outcome of the [n]-th call [requests.get(url, timeout=t)] *)
  net : nat -> string -> Z -> net_result;
  (** the value of the [n]-th call [time.time()] *)
  clock : nat -> Q;
  (** the outcome of the [n]-th file creation, of the given name *)
  disk : nat -> string -> disk_result;
  (** [Some k]: [cancel_download] sets the flag [download_cancelled]
      before the worker reads it for the [k]-th time (counted from 0)
      and after its previous read; [None]: Cancel is never pressed.
      Nothing clears the flag while the worker runs. *)
  cancel_at : option nat
}.

(** The fields of the final message box. *)
Inductive Summary : Type :=
| DownloadCancelled (downloaded failed : nat) (remaining : Z)
| DownloadComplete (successful failed : nat)
    (** [failed_urls[0][0][:50]] and [failed_urls[0][1]], when [failed > 0] *)
    (first_failure : option (string * string)).

(** The calls of [update_gui_safe], [show_message_safe] and [reset_ui],
    with the values the texts are formatted from. *)
Inductive gui_event : Type :=
| StatusCancelled (successful : nat)
| StatusFailed (url : string)
| MeanSpeedLabel (mbit_per_s : Q)
| ProgressBar (progress : nat)
| ProgressLabel (progress total : nat)
| RemainingTimeLabel (seconds : Q)
| ShowSummary (s : Summary)
| ResetUI.

(** An iteration of the worker's loop that got past the cancellation
    check: its position, its URL and the number it was given. *)
Record Attempt : Type := mkAttempt {
  at_idx : nat;
  at_url : string;
  at_img_num : N
}.

(** The state the worker runs in.  The first group is the environment
    as the worker has used it so far, the second the local variables of
    [download], the third a record of what happened (ghost state: the
    program never reads it). *)
Record State : Type := mkState {
  requests : nat;                      (* calls of requests.get *)
  ticks : nat;                         (* calls of time.time *)
  polls : nat;                         (* reads of download_cancelled *)
  writes : nat;                        (* file creations *)
  fs : gmap string (list Byte.byte);        (* the files of download_path *)
  slept : list Z;                      (* arguments of time.sleep *)
  gui : list gui_event;                (* GUI updates, oldest first *)

  total_size : Z;
  total_time : Q;
  successful : nat;
  failed : nat;
  failed_urls : list (string * string);

  attempted : list Attempt;            (* oldest first *)
  (* (idx, file name, data) of the files written, oldest first *)
  written : list (nat * string * list Byte.byte)
}.

Definition initial_state (files : gmap string (list Byte.byte)) : State :=
  mkState 0 0 0 0 files [] [] 0 0%Q 0 0 [] [] [].

(* ================================================================== *)
(** * The monad of the worker: state and exceptions *)
(* ================================================================== *)

Inductive outcome (A : Type) : Type :=
| Return (a : A)
| Raise (e : exn).
Arguments Return {A} a.
Arguments Raise {A} e.

Definition M (A : Type) : Type := State -> outcome A * State.

Definition ret {A} (a : A) : M A := fun s => (Return a, s).

Definition bind {A B} (m : M A) (k : A -> M B) : M B :=
  fun s =>
    match m s with
    | (Return a, s') => k a s'
    | (Raise e, s') => (Raise e, s')
    end.

Definition raise {A} (e : exn) : M A := fun s => (Raise e, s).

(** [try: m  except Exception as e: h e] *)
Definition try_except {A} (m : M A) (h : exn -> M A) : M A :=
  fun s =>
    match m s with
    | (Return a, s') => (Return a, s')
    | (Raise e, s') => h e s'
    end.

(** Runs [m] and hands its outcome, value or exception, to the caller. *)
Definition attempt_of {A} (m : M A) : M (outcome A) :=
  fun s => let (r, s') := m s in (Return r, s').

Definition gets {A} (f : State -> A) : M A := fun s => (Return (f s), s).

Definition modify (f : State -> State) : M unit := fun s => (Return tt, f s).

Declare Scope py_scope.
Delimit Scope py_scope with py.
Notation "x <- m ;; k" := (bind m (fun x => k))
  (at level 100, m at next level, k at level 200, right associativity)
  : py_scope.
Notation "m ;; k" := (bind m (fun _ => k))
  (at level 100, k at level 200, right associativity) : py_scope.

(** Field updates of [State]. *)
Definition set_requests v (s : State) : State :=
  mkState v (ticks s) (polls s) (writes s) (fs s) (slept s) (gui s) (total_size s) (total_time s) (successful s) (failed s) (failed_urls s) (attempted s) (written s).
Definition set_ticks v (s : State) : State :=
  mkState (requests s) v (polls s) (writes s) (fs s) (slept s) (gui s) (total_size s) (total_time s) (successful s) (failed s) (failed_urls s) (attempted s) (written s).
Definition set_polls v (s : State) : State :=
  mkState (requests s) (ticks s) v (writes s) (fs s) (slept s) (gui s) (total_size s) (total_time s) (successful s) (failed s) (failed_urls s) (attempted s) (written s).
Definition set_writes v (s : State) : State :=
  mkState (requests s) (ticks s) (polls s) v (fs s) (slept s) (gui s) (total_size s) (total_time s) (successful s) (failed s) (failed_urls s) (attempted s) (written s).
Definition set_fs v (s : State) : State :=
  mkState (requests s) (ticks s) (polls s) (writes s) v (slept s) (gui s) (total_size s) (total_time s) (successful s) (failed s) (failed_urls s) (attempted s) (written s).
Definition set_slept v (s : State) : State :=
  mkState (requests s) (ticks s) (polls s) (writes s) (fs s) v (gui s) (total_size s) (total_time s) (successful s) (failed s) (failed_urls s) (attempted s) (written s).
Definition set_gui v (s : State) : State :=
  mkState (requests s) (ticks s) (polls s) (writes s) (fs s) (slept s) v (total_size s) (total_time s) (successful s) (failed s) (failed_urls s) (attempted s) (written s).
Definition set_total_size v (s : State) : State :=
  mkState (requests s) (ticks s) (polls s) (writes s) (fs s) (slept s) (gui s) v (total_time s) (successful s) (failed s) (failed_urls s) (attempted s) (written s).
Definition set_total_time v (s : State) : State :=
  mkState (requests s) (ticks s) (polls s) (writes s) (fs s) (slept s) (gui s) (total_size s) v (successful s) (failed s) (failed_urls s) (attempted s) (written s).
Definition set_successful v (s : State) : State :=
  mkState (requests s) (ticks s) (polls s) (writes s) (fs s) (slept s) (gui s) (total_size s) (total_time s) v (failed s) (failed_urls s) (attempted s) (written s).
Definition set_failed v (s : State) : State :=
  mkState (requests s) (ticks s) (polls s) (writes s) (fs s) (slept s) (gui s) (total_size s) (total_time s) (successful s) v (failed_urls s) (attempted s) (written s).
Definition set_failed_urls v (s : State) : State :=
  mkState (requests s) (ticks s) (polls s) (writes s) (fs s) (slept s) (gui s) (total_size s) (total_time s) (successful s) (failed s) v (attempted s) (written s).
Definition set_attempted v (s : State) : State :=
  mkState (requests s) (ticks s) (polls s) (writes s) (fs s) (slept s) (gui s) (total_size s) (total_time s) (successful s) (failed s) (failed_urls s) v (written s).
Definition set_written v (s : State) : State :=
  mkState (requests s) (ticks s) (polls s) (writes s) (fs s) (slept s) (gui s) (total_size s) (total_time s) (successful s) (failed s) (failed_urls s) (attempted s) v.

(* ================================================================== *)
(** * The program *)
(* ================================================================== *)

(** Configuration, lines 12-14. *)
Definition REQUEST_TIMEOUT : Z := 30.
Definition MAX_RETRIES : Z := 3.
Definition RETRY_DELAY : Z := 2.

(** [range(n)] *)
Definition range (n : Z) : list Z := map Z.of_nat (seq 0 (Z.to_nat n)).

(** Line 268: the mean speed in Mbit/s from the running totals. *)
Definition mean_speed (total_size : Z) (total_time : Q) : Q :=
  if Qlt_le_dec 0 total_time
  then (inject_Z (total_size * 8) / (total_time * inject_Z 1000000))%Q
  else 0%Q.

(** Lines 296-298: the estimate of the remaining time. *)
Definition remaining_time (elapsed_total_time : Q) (progress total : nat) : Q :=
  let avg_time_per_image :=
    (elapsed_total_time / inject_Z (Z.of_nat progress))%Q in
  let remaining := Z.of_nat total - Z.of_nat progress in
  (avg_time_per_image * inject_Z remaining)%Q.

(** [str(x)] of the variable [last_exception], [None] at first. *)
Definition str_last_exception (x : option string) : string :=
  match x with
  | None => "None"
  | Some msg => msg
  end.

Section Program.

Variable w : World.

#[local] Open Scope py_scope.

(** ** Calls into the environment *)

Definition time_time : M Q :=
  fun s => (Return (clock w (ticks s)), set_ticks (S (ticks s)) s).

Definition time_sleep (seconds : Z) : M unit :=
  modify (fun s => set_slept (slept s ++ [seconds]) s).

Definition requests_get (url : string) (timeout : Z) : M Response :=
  fun s =>
    let s' := set_requests (S (requests s)) s in
    match net w (requests s) url timeout with
    | NetTimeout msg => (Raise (Timeout msg), s')
    | NetError msg => (Raise (RequestException msg), s')
    | NetResponse r => (Return r, s')
    end.

(** [Response.raise_for_status] of the requests library: an
    [HTTPError] for a status in 400..599, nothing otherwise. *)
Definition raise_for_status (url : string) (r : Response) : M unit :=
  let code := status_code r in
  if (400 <=? code) && (code <? 500) then
    raise (HTTPError (PyStr.str_Z code +:+ " Client Error: " +:+ reason r
                      +:+ " for url: " +:+ url) code)
  else if (500 <=? code) && (code <? 600) then
    raise (HTTPError (PyStr.str_Z code +:+ " Server Error: " +:+ reason r
                      +:+ " for url: " +:+ url) code)
  else ret tt.

(** The value of the global [download_cancelled] at the worker's
    read number [poll]. *)
Definition download_cancelled (poll : nat) : bool :=
  match cancel_at w with
  | Some k => (k <=? poll)%nat
  | None => false
  end.

(** One read of the global [download_cancelled]. *)
Definition read_download_cancelled : M bool :=
  fun s => (Return (download_cancelled (polls s)), set_polls (S (polls s)) s).

(** Lines 276-277: [with open(join(download_path, name), 'wb') as h:
    h.write(data)].  Opening creates or truncates the file. *)
Definition write_file (name : string) (data : list Byte.byte) : M unit :=
  fun s =>
    let s' := set_writes (S (writes s)) s in
    match disk w (writes s) name with
    | DiskOk => (Return tt, set_fs (<[name := data]> (fs s)) s')
    | DiskOpenError msg => (Raise (OSError msg), s')
    | DiskWriteError msg n =>
        (Raise (OSError msg), set_fs (<[name := firstn n data]> (fs s)) s')
    end.

Definition update_gui_safe (e : gui_event) : M unit :=
  modify (fun s => set_gui (gui s ++ [e]) s).

(** [show_message_safe('info', "Download Summary", summary)] *)
Definition show_message_safe (summary : Summary) : M unit :=
  update_gui_safe (ShowSummary summary).

(** [reset_ui()] *)
Definition reset_ui : M unit := update_gui_safe ResetUI.

(** ** [download_with_retry], lines 60-82 *)

(** The body of the [try], lines 66-68. *)
Definition try_get (url : string) (timeout : Z) : M Response :=
  response <- requests_get url timeout ;;
  raise_for_status url response ;;
  ret response.

(** The [except] clauses, lines 69-77: the new value of
    [last_exception], or the exception raised again. *)
Definition except_clauses (timeout : Z) (e : exn) : M (option string) :=
  match e with
  | Timeout _ =>
      ret (Some ("Timeout after " +:+ PyStr.str_Z timeout +:+ "s"))
  | HTTPError _ status =>
      if status <? 500 then raise e
      else ret (Some ("HTTP " +:+ PyStr.str_Z status))
  | RequestException msg => ret (Some msg)
  | _ => raise e
  end.

(** The [for] loop over the attempts still to make, and line 82. *)
Fixpoint retry_loop (url : string) (timeout max_retries : Z)
    (attempts : list Z) (last_exception : option string) : M Response :=
  match attempts with
  | [] =>
      raise (RequestException
               ("Failed after " +:+ PyStr.str_Z max_retries +:+ " attempts: "
                +:+ str_last_exception last_exception))
  | attempt :: rest =>
      r <- attempt_of (try_get url timeout) ;;
      match r with
      | Return response => ret response
      | Raise e =>
          last_exception' <- except_clauses timeout e ;;
          (if attempt <? max_retries - 1
           then time_sleep (RETRY_DELAY * (attempt + 1))
           else ret tt) ;;
          retry_loop url timeout max_retries rest last_exception'
      end
  end.

Definition download_with_retry (url : string) (timeout max_retries : Z)
  : M Response :=
  retry_loop url timeout max_retries (range max_retries) None.

(** ** The worker [download], lines 232-314 *)

(** The body of the [try], lines 251-279. *)
Definition try_item (url : string) (idx : nat) (img_num : N) : M unit :=
  download_start_time <- time_time ;;
  response <- download_with_retry url REQUEST_TIMEOUT MAX_RETRIES ;;
  let img_data := content response in
  now <- time_time ;;
  let elapsed_time := (now - download_start_time)%Q in
  if (length img_data <? 100)%nat then
    raise (ValueError "Downloaded content too small, likely an error page")
  else
    modify (fun s =>
              set_total_size (total_size s + Z.of_nat (length img_data)) s) ;;
    modify (fun s => set_total_time (total_time s + elapsed_time)%Q s) ;;
    speed <- gets (fun s => mean_speed (total_size s) (total_time s)) ;;
    update_gui_safe (MeanSpeedLabel speed) ;;
    let content_type := default "" (header_content_type response) in
    let extension := get_file_extension content_type url in
    let img_name := "image_" +:+ PyStr.str_N img_num +:+ extension in
    write_file img_name img_data ;;
    (* ghost: the file just written goes into the record *)
    modify (fun s =>
              set_written (written s ++ [(idx, img_name, img_data)]) s) ;;
    modify (fun s => set_successful (S (successful s)) s).

(** The [except Exception] clause, lines 281-285. *)
Definition except_item (url : string) (e : exn) : M unit :=
  modify (fun s => set_failed (S (failed s)) s) ;;
  modify (fun s => set_failed_urls (failed_urls s ++ [(url, str_exn e)]) s) ;;
  update_gui_safe (StatusFailed url).

(** Lines 287-303: the progress display after an item. *)
Definition report_progress (start_time : Q) (idx total : nat) : M unit :=
  let progress := (idx + 1)%nat in
  update_gui_safe (ProgressBar progress) ;;
  update_gui_safe (ProgressLabel progress total) ;;
  current_time <- time_time ;;
  let elapsed_total_time := (current_time - start_time)%Q in
  if (0 <? progress)%nat then
    update_gui_safe
      (RemainingTimeLabel (remaining_time elapsed_total_time progress total))
  else ret tt.

(** One iteration past the cancellation check, lines 248-303. *)
Definition loop_body (starting_num : N) (start_time : Q) (total : nat)
    (idx : nat) (url : string) : M unit :=
  let img_num := (starting_num + N.of_nat idx)%N in
  (* ghost: the iteration goes into the record *)
  modify (fun s =>
            set_attempted (attempted s ++ [mkAttempt idx url img_num]) s) ;;
  try_except (try_item url idx img_num) (except_item url) ;;
  report_progress start_time idx total.

(** [for idx, (original_idx, url) in enumerate(valid_urls)], from the
    position [idx] on. *)
Fixpoint download_loop (starting_num : N) (start_time : Q) (total : nat)
    (idx : nat) (items : list (nat * string)) : M unit :=
  match items with
  | [] => ret tt
  | (original_idx, url) :: rest =>
      cancelled <- read_download_cancelled ;;
      if (cancelled : bool) then
        n <- gets successful ;;
        update_gui_safe (StatusCancelled n)            (* break *)
      else
        loop_body starting_num start_time total idx url ;;
        download_loop starting_num start_time total (S idx) rest
  end.

(** Lines 305-311. *)
Definition make_summary (total : nat) (cancelled : bool) (s : State)
  : Summary :=
  if cancelled then
    DownloadCancelled (successful s) (failed s)
      (Z.of_nat total - Z.of_nat (successful s) - Z.of_nat (failed s))
  else
    DownloadComplete (successful s) (failed s)
      (if (0 <? failed s)%nat then
         match failed_urls s with
         | (url, msg) :: _ => Some (PyStr.take 50 url, msg)
         | [] => None
         end
       else None).

Definition download (valid_urls : list (nat * string)) (starting_num : N)
  : M Summary :=
  modify (fun s =>
            set_total_size 0
              (set_total_time 0%Q
                 (set_successful 0%nat
                    (set_failed 0%nat (set_failed_urls [] s))))) ;;
  start_time <- time_time ;;
  download_loop starting_num start_time (length valid_urls) 0 valid_urls ;;
  cancelled <- read_download_cancelled ;;
  summary <- gets (make_summary (length valid_urls) cancelled) ;;
  show_message_safe summary ;;
  reset_ui ;;
  ret summary.

(** [os.listdir(download_path)], in the order the map enumerates. *)
Definition listdir (files : gmap string (list Byte.byte)) : list string :=
  (map_to_list files).*1.

(** Lines 208-317 of [download_images]: the scan, then the worker. *)
Definition download_images (valid_urls : list (nat * string)) : M Summary :=
  existing_images <- gets (fun s => listdir (fs s)) ;;
  let starting_num := Numbering.starting_num existing_images in
  download valid_urls starting_num.

End Program.

(* ================================================================== *)
(** * Vocabulary of the proofs *)
(* ================================================================== *)

(** [r] does not end with a white space character. *)
Definition no_trailing_space (r : string) : Prop :=
  forall r' c, r = r' +:+ String c "" -> PyStr.is_space c = false.

(** [r] does not start with a white space character. *)
Definition no_leading_space (r : string) : Prop :=
  match r with
  | EmptyString => True
  | String c _ => PyStr.is_space c = false
  end.

(** The seven extensions the program can produce. *)
Definition known_extensions : list string :=
  [".jpg"; ".png"; ".gif"; ".webp"; ".bmp"; ".tiff"; ".svg"].

(** The state after one more call of [requests.get]. *)
Definition after_request (s : State) : State :=
  set_requests (S (requests s)) s.

(** Line 79-80: the sleep after a failed attempt, unless it was the last. *)
Definition after_backoff (max_retries attempt : Z) (s : State) : State :=
  if attempt <? max_retries - 1
  then set_slept (slept s ++ [RETRY_DELAY * (attempt + 1)]) s
  else s.

(** The answers of the network after which the loop goes on, with the
    text kept in [last_exception]: a timeout, another transport error,
    a status in 500..599. *)
Definition retry_message (timeout : Z) (x : net_result) : option string :=
  match x with
  | NetTimeout _ => Some ("Timeout after " +:+ PyStr.str_Z timeout +:+ "s")
  | NetError msg => Some msg
  | NetResponse r =>
      if (500 <=? status_code r) && (status_code r <? 600)
      then Some ("HTTP " +:+ PyStr.str_Z (status_code r))
      else None
  end.

(** The answers that [raise_for_status] lets through. *)
Definition status_ok (r : Response) : bool :=
  negb ((400 <=? status_code r) && (status_code r <? 600)).

(** [download_with_retry] touches two things only: the count of
    requests and the list of sleeps. *)
Definition fetch_frame (s s' : State) : Prop :=
  s' = set_slept (slept s') (set_requests (requests s') s)
  /\ (requests s <= requests s')%nat
  /\ exists naps, slept s' = slept s ++ naps.

(** The file name of line 275 for the item at position [idx]. *)
Definition image_name (starting_num : N) (idx : nat) (r : Response)
    (url : string) : string :=
  "image_" +:+ PyStr.str_N (starting_num + N.of_nat idx)
  +:+ get_file_extension (default "" (header_content_type r)) url.

(** The exception of line 261. *)
Definition too_small : exn :=
  ValueError "Downloaded content too small, likely an error page".

(** The call of [download_with_retry] made by [try_item] started in
    [s]: one clock reading has been taken. *)
Definition fetch_of (w : World) (url : string) (s : State)
  : outcome Response * State :=
  download_with_retry w url REQUEST_TIMEOUT MAX_RETRIES
    (set_ticks (S (ticks s)) s).

(** The fields a failed [try] leaves as they were. *)
Definition files_untouched (s s' : State) : Prop :=
  fs s' = fs s /\ writes s' = writes s /\ written s' = written s
  /\ successful s' = successful s /\ total_size s' = total_size s
  /\ total_time s' = total_time s /\ gui s' = gui s.

(** What the [except] clause of the worker records. *)
Definition item_failed (url : string) (e : exn) (s s' : State) : Prop :=
  failed s' = S (failed s)
  /\ failed_urls s' = failed_urls s ++ [(url, str_exn e)]
  /\ successful s' = successful s.

(** The state in which the [try] of the iteration [idx] starts. *)
Definition enter_item (starting_num : N) (idx : nat) (url : string)
    (s : State) : State :=
  set_attempted
    (attempted s ++ [mkAttempt idx url (starting_num + N.of_nat idx)]) s.

(** The call of [download_with_retry] of the iteration [idx]. *)
Definition item_fetch (w : World) (starting_num : N) (idx : nat)
    (url : string) (s : State) : outcome Response * State :=
  fetch_of w url (enter_item starting_num idx url s).

(** The iterations of the loop over [items] from position [idx] on, the
    flag being clear at each of them: a read of the flag, then the body. *)
Fixpoint run_items (w : World) (starting_num : N) (start_time : Q)
    (total idx : nat) (items : list (nat * string)) (s : State) : State :=
  match items with
  | [] => s
  | (_, url) :: rest =>
      run_items w starting_num start_time total (S idx) rest
        (snd (loop_body w starting_num start_time total idx url
                (set_polls (S (polls s)) s)))
  end.

(** Lines 244-246: the read that finds the flag set, and the [break]. *)
Definition break_state (s : State) : State :=
  set_gui (gui s ++ [StatusCancelled (successful s)])
    (set_polls (S (polls s)) s).

(** The numbers given to [items] when the first of them is at position
    [idx]. *)
Fixpoint attempts_of (starting_num : N) (idx : nat)
    (items : list (nat * string)) : list Attempt :=
  match items with
  | [] => []
  | (_, url) :: rest =>
      mkAttempt idx url (starting_num + N.of_nat idx)
      :: attempts_of starting_num (S idx) rest
  end.

(** A name the worker can give to the file of position [idx]. *)
Definition names_item (starting_num : N) (idx : nat) (name : string) : Prop :=
  exists ext, In ext known_extensions
              /\ name = "image_" +:+ PyStr.str_N (starting_num + N.of_nat idx)
                        +:+ ext.

(** Lines 235-240: the locals initialised and the start time read. *)
Definition start_state (s : State) : State :=
  set_ticks (S (ticks s))
    (set_total_size 0
       (set_total_time 0%Q
          (set_successful 0%nat (set_failed 0%nat (set_failed_urls [] s))))).

(** The number of items the loop processes when the run starts at the
    read number [poll] of the flag and has [n] items. *)
Definition stop_index (w : World) (poll n : nat) : nat :=
  match cancel_at w with
  | Some c => Nat.min n (c - poll)
  | None => n
  end.

(** What a run leaves behind, the display apart. *)
Definition observable (s : State) :=
  (requests s, slept s, writes s, fs s,
   (successful s, failed s, failed_urls s), (attempted s, written s)).

(** The example failure the final message box shows, if it shows one. *)
Definition failure_shown (summary : Summary) : option (string * string) :=
  match summary with
  | DownloadCancelled _ _ _ => None
  | DownloadComplete _ _ first_failure => first_failure
  end.

(** The counts the final message box shows. *)
Definition counts_shown (summary : Summary) : nat * nat :=
  match summary with
  | DownloadCancelled downloaded failed _ => (downloaded, failed)
  | DownloadComplete successful failed _ => (successful, failed)
  end.

(** Whether the final message box is the one of a cancelled run. *)
Definition cancelled_early (summary : Summary) : bool :=
  match summary with
  | DownloadCancelled _ _ _ => true
  | DownloadComplete _ _ _ => false
  end.

(** Worlds and inputs for the examples. *)
Module Examples.

Definition payload (size : nat) : list Byte.byte := repeat Byte.x00 size.

Definition response (code : Z) (size : nat) : Response :=
  mkResponse code "" (payload size) (Some "image/jpeg").

(** The clock advances by one second at every reading. *)
Definition seconds (n : nat) : Q := inject_Z (Z.of_nat n).

Definition disk_ok (n : nat) (name : string) : disk_result := DiskOk.

(** The first request times out, every later one is answered with a
    status 200 and 50 bytes. *)
Definition timeout_then_small : World :=
  mkWorld
    (fun n _ _ =>
       match n with
       | O => NetTimeout "Read timed out."
       | _ => NetResponse (response 200 50)
       end)
    seconds disk_ok None.

(** Every request is answered with a status 404, and Cancel is pressed
    while the first item is being processed. *)
Definition not_found_then_cancel : World :=
  mkWorld (fun _ _ _ => NetResponse (response 404 300))
    seconds disk_ok (Some 1%nat).

(** Two timeouts, then a status 200 with 150 bytes. *)
Definition two_timeouts_then_ok : World :=
  mkWorld
    (fun n _ _ =>
       match n with
       | 0%nat | 1%nat => NetTimeout "Read timed out."
       | _ => NetResponse (response 200 150)
       end)
    seconds disk_ok None.

(** Every request is answered with the given status and size; Cancel
    as given. *)
Definition always (code : Z) (size : nat) (cancel : option nat) : World :=
  mkWorld (fun _ _ _ => NetResponse (response code size))
    seconds disk_ok cancel.

Definition url1 : string := "https://example.org/photos/1/original.jpg".
Definition url2 : string := "https://example.org/photos/2/original.jpg".

Definition ten_urls : list (nat * string) :=
  map (fun i => (i, url1)) (seq 0 10).

Definition empty_dir : State := initial_state ∅.

End Examples.

(** The sleeps after the failed attempts number [a], ..., [a + j - 1]. *)
Definition backoffs (a j : nat) : list Z :=
  map (fun i => RETRY_DELAY * (Z.of_nat i + 1)) (seq a j).

(** What the calls of [update_gui_safe] of a run show: the value given
    to the progress bar, the URL of a failure in the status line, and
    the two calls that close a run. *)
Definition progress_of (e : gui_event) : option nat :=
  match e with
  | ProgressBar progress => Some progress
  | _ => None
  end.

Definition failure_of (e : gui_event) : option string :=
  match e with
  | StatusFailed url => Some url
  | _ => None
  end.

Definition closes_run (e : gui_event) : bool :=
  match e with
  | ShowSummary _ | ResetUI => true
  | _ => false
  end.

Definition cancelled_of (e : gui_event) : option nat :=
  match e with
  | StatusCancelled n => Some n
  | _ => None
  end.

(** The events of an iteration, or of the loop: they extend the display
    of [s] with [evs], show the progress values [bar], report the
    failures added to [failed_urls], and close nothing. *)
Definition shows (s s' : State) (evs : list gui_event) (bar : list nat)
  : Prop :=
  gui s' = gui s ++ evs
  /\ omap progress_of evs = bar
  /\ (exists fl, failed_urls s' = failed_urls s ++ fl
                 /\ omap failure_of evs = map fst fl)
  /\ omap cancelled_of evs = []
  /\ Forall (fun e => closes_run e = false) evs.

(* ================================================================== *)
(** * The window: the handlers of the main thread *)
(* ================================================================== *)

(** The code that runs on the main thread: [check_disk_space], the part
    of [download_images] before the worker is started (lines 147-230),
    [cancel_download], and the functions [update], [show] and [reset]
    that [update_gui_safe], [show_message_safe] and [reset_ui] hand to
    [root.after].  The worker these handlers start is [download]
    above. *)
Module Handlers.

(** A value of the URL column as [pandas] gives it: a missing value, or
    any other value, [text] being its [str]. *)
Inductive cell : Type :=
| NaN
| Value (text : string).

(** [pd.notna(url)] *)
Definition notna (url : cell) : bool :=
  match url with
  | NaN => false
  | Value _ => true
  end.

(** [str(url)] *)
Definition str (url : cell) : string :=
  match url with
  | NaN => "nan"
  | Value text => text
  end.

(** [pd.read_csv(csv_path)]: an exception with its text, or a frame
    with its column names and the values of each column. *)
Inductive csv_result : Type :=
| ReadError (e : string)
| DataFrame (columns : list string) (column : string -> list cell).

(** What the handlers ask of the machine.  [disk_usage path] is the
    field [free] of [shutil.disk_usage(path)], [None] when the call
    raises; [os_listdir path] is [None] when [os.listdir] raises;
    [askyesno title message] is the answer of the user. *)
Record Desktop : Type := mkDesktop {
  isdir : string -> bool;
  disk_usage : string -> option Z;
  read_csv : string -> csv_result;
  askyesno : string -> string -> bool;
  os_listdir : string -> option (list string)
}.

Inductive widget : Type :=
| progress_bar
| progress_label
| remaining_time_label
| mean_speed_label
| status_label
| download_button
| cancel_button.

Definition widget_code (x : widget) : nat :=
  match x with
  | progress_bar => 0
  | progress_label => 1
  | remaining_time_label => 2
  | mean_speed_label => 3
  | status_label => 4
  | download_button => 5
  | cancel_button => 6
  end.

Definition widget_of_code (n : nat) : widget :=
  match n with
  | 0 => progress_bar
  | 1 => progress_label
  | 2 => remaining_time_label
  | 3 => mean_speed_label
  | 4 => status_label
  | 5 => download_button
  | _ => cancel_button
  end%nat.

#[global] Instance widget_eq_dec : EqDecision widget :=
  ltac:(solve_decision).

#[global] Instance widget_countable : Countable widget :=
  inj_countable' widget_code widget_of_code
    (fun x => match x with
              | progress_bar | progress_label | remaining_time_label
              | mean_speed_label | status_label | download_button
              | cancel_button => eq_refl
              end).

(** The values given to the options of the widgets. *)
Inductive value : Type :=
| Int (n : Z)
| Str (s : string).

(** The two globals, the two [StringVar]s and the options of the
    widgets that have been set ([widget[option] = value]). *)
Record Window : Type := mkWindow {
  download_in_progress : bool;
  download_cancelled : bool;
  csv_file_path : string;
  download_dir : string;
  widgets : gmap (widget * string) value
}.

Definition set_download_in_progress (b : bool) (g : Window) : Window :=
  mkWindow b (download_cancelled g) (csv_file_path g) (download_dir g)
    (widgets g).

Definition set_download_cancelled (b : bool) (g : Window) : Window :=
  mkWindow (download_in_progress g) b (csv_file_path g) (download_dir g)
    (widgets g).

(** [x[option] = v] *)
Definition setitem (x : widget) (option : string) (v : value) (g : Window)
  : Window :=
  mkWindow (download_in_progress g) (download_cancelled g) (csv_file_path g)
    (download_dir g) (<[(x, option) := v]> (widgets g)).

(** The window as lines 320-362 build it: both globals [False], no path
    chosen, the Cancel button disabled. *)
Definition main_window : Window :=
  mkWindow false false "" "" {[ (cancel_button, "state") := Str "disabled" ]}.

(** The message boxes a handler opens. *)
Inductive dialog : Type :=
| ShowWarning (title message : string)
| ShowError (title message : string)
| AskYesNo (title message : string).

(** What [root.after(0, f)] is given. *)
Inductive callback : Type :=
| Update (x : widget) (property_name : string) (v : value)
| Show (msg_type title message : string)
| Reset.

(** How a call of [download_images] ends: it returns without starting a
    worker, an exception leaves it, or it starts the worker on
    [valid_urls] from [starting_num]. *)
Inductive launch : Type :=
| NotStarted
| Uncaught
| Worker (valid_urls : list (nat * string)) (starting_num : N).

(** Lines 51-57. *)
Definition check_disk_space (d : Desktop) (path : string)
    (required_bytes : Z) : bool :=
  match disk_usage d path with
  | Some free => required_bytes <=? free
  | None => true
  end.

(** Line 177: the column names tried, in this order. *)
Definition url_column_names : list string :=
  ["image_url"; "IMAGE_URL"; "Image_URL"; "url"; "URL"].

(** Lines 176-180: [for col_name in ...: if col_name in data.columns:
    url_column = col_name; break]. *)
Fixpoint find_url_column (col_names columns : list string) : option string :=
  match col_names with
  | [] => None
  | col_name :: rest =>
      if bool_decide (col_name ∈ columns) then Some col_name
      else find_url_column rest columns
  end.

(** [enumerate(urls)], counting from [i]. *)
Fixpoint enumerate {A : Type} (i : nat) (l : list A) : list (nat * A) :=
  match l with
  | [] => []
  | x :: l' => (i, x) :: enumerate (S i) l'
  end.

(** The condition of line 192: [pd.notna(url) and str(url).strip()]. *)
Definition is_valid (url : cell) : bool :=
  notna url && PyStr.truthy (PyStr.strip (str url)).

(** Line 192: [[(i, url) for i, url in enumerate(urls)
    if pd.notna(url) and str(url).strip()]]. *)
Definition valid_urls (urls : list cell) : list (nat * string) :=
  omap (fun item : nat * cell =>
          let (i, url) := item in
          if is_valid url then Some (i, str url) else None)
       (enumerate 0 urls).

Definition str_nat (n : nat) : string := PyStr.str_N (N.of_nat n).

(** Lines 201-204: the question asked when some rows are skipped. *)
Definition skipped_question (skipped_count valid : nat) : string :=
  "Found " +:+ str_nat skipped_count
  +:+ " empty/invalid URLs that will be skipped." +:+ String "010" ""
  +:+ "Continue with " +:+ str_nat valid +:+ " valid URLs?".

(** Lines 219-230: the flags and the widgets when a worker starts. *)
Definition begin_download (n : nat) (g : Window) : Window :=
  setitem status_label "text" (Str "")
    (setitem mean_speed_label "text" (Str "Mean speed: 0 Mbit/s")
       (setitem remaining_time_label "text"
          (Str "Remaining time: estimating...")
          (setitem progress_label "text"
             (Str ("Downloading 0/" +:+ str_nat n +:+ " images..."))
             (setitem progress_bar "maximum" (Int (Z.of_nat n))
                (setitem cancel_button "state" (Str "normal")
                   (setitem download_button "state" (Str "disabled")
                      (set_download_in_progress true
                         (set_download_cancelled false g)))))))).

(** Lines 147-230 and 317 of [download_images]: the window it leaves,
    the message boxes it opened, and the worker it started if any. *)
Definition download_images (d : Desktop) (g : Window)
  : Window * list dialog * launch :=
  if download_in_progress g then
    (g, [ShowWarning "Warning" "A download is already in progress."],
     NotStarted)
  else
    let csv_path := csv_file_path g in
    let download_path := download_dir g in
    if negb (PyStr.truthy csv_path) || negb (PyStr.truthy download_path) then
      (g, [ShowError "Error"
             "Please load a CSV file and select a download directory."],
       NotStarted)
    else if negb (isdir d download_path) then
      (g, [ShowError "Error"
             ("Download directory does not exist: " +:+ download_path)],
       NotStarted)
    else if negb (check_disk_space d download_path 100000000) then
      (g, [ShowError "Error"
             "Not enough disk space. Please free up at least 100MB."],
       NotStarted)
    else
      match read_csv d csv_path with
      | ReadError e =>
          (g, [ShowError "Error" ("Failed to read the CSV file: " +:+ e)],
           NotStarted)
      | DataFrame columns column =>
          match find_url_column url_column_names columns with
          | None =>
              (g, [ShowError "Error" "CSV must have an 'image_url' column."],
               NotStarted)
          | Some url_column =>
              let urls := column url_column in
              let valid := valid_urls urls in
              let skipped_count := (length urls - length valid)%nat in
              match valid with
              | [] =>
                  (g, [ShowError "Error"
                         "No valid URLs found in the CSV file."],
                   NotStarted)
              | _ :: _ =>
                  let question :=
                    skipped_question skipped_count (length valid) in
                  let asked :=
                    if (0 <? skipped_count)%nat
                    then [AskYesNo "Warning" question] else [] in
                  if (0 <? skipped_count)%nat
                     && negb (askyesno d "Warning" question)
                  then (g, asked, NotStarted)
                  else
                    match os_listdir d download_path with
                    | None => (g, asked, Uncaught)
                    | Some existing_images =>
                        (begin_download (length valid) g, asked,
                         Worker valid
                           (Numbering.starting_num existing_images))
                    end
              end
          end
      end.

(** Lines 123-128: the flag is set at once, the two updates are handed
    to [root.after]. *)
Definition cancel_download (g : Window) : Window * list callback :=
  (set_download_cancelled true g,
   [Update cancel_button "state" (Str "disabled");
    Update status_label "text" (Str "Cancelling...")]).

(** Lines 101-107, the function [update] of [update_gui_safe]. *)
Definition update (x : widget) (property_name : string) (v : value)
    (g : Window) : Window :=
  if String.eqb property_name "text" then setitem x "text" v g
  else if String.eqb property_name "value" then setitem x "value" v g
  else if String.eqb property_name "state" then setitem x "state" v g
  else g.

(** Lines 133-142, the function [reset] of [reset_ui]. *)
Definition reset (g : Window) : Window :=
  setitem cancel_button "state" (Str "disabled")
    (setitem download_button "state" (Str "normal")
       (setitem status_label "text" (Str "")
          (setitem mean_speed_label "text" (Str "")
             (setitem remaining_time_label "text" (Str "")
                (setitem progress_label "text" (Str "")
                   (setitem progress_bar "value" (Int 0)
                      (set_download_in_progress false g))))))).

(** A callback given to [root.after], when the main loop runs it.  A
    message box changes nothing in the window. *)
Definition run_callback (cb : callback) (g : Window) : Window :=
  match cb with
  | Update x property_name v => update x property_name v g
  | Show _ _ _ => g
  | Reset => reset g
  end.

(** What the main loop does, one thing at a time: a click on Download
    (with the machine as it is then), a click on Cancel, or a callback
    that had been given to [root.after]. *)
Inductive action : Type :=
| ClickDownload (d : Desktop)
| ClickCancel
| Run (cb : callback).

Definition handle (g : Window) (a : action) : Window * launch :=
  match a with
  | ClickDownload d => let '(g', _, l) := download_images d g in (g', l)
  | ClickCancel => (fst (cancel_download g), NotStarted)
  | Run cb => (run_callback cb g, NotStarted)
  end.

(** The window after the actions [acts]. *)
Definition after_actions (g : Window) (acts : list action) : Window :=
  fold_left (fun g a => fst (handle g a)) acts g.

Definition is_worker (l : launch) : bool :=
  match l with
  | Worker _ _ => true
  | _ => false
  end.

(** The number of workers started by the actions [acts]. *)
Fixpoint workers_started (g : Window) (acts : list action) : nat :=
  match acts with
  | [] => 0
  | a :: rest =>
      ((if is_worker (snd (handle g a)) then 1 else 0)
       + workers_started (fst (handle g a)) rest)%nat
  end.

Definition is_reset (a : action) : bool :=
  match a with
  | Run Reset => true
  | _ => false
  end.

Definition is_cancel (a : action) : bool :=
  match a with
  | ClickCancel => true
  | _ => false
  end.

(** The action sets an option of the Download button through
    [update_gui_safe]; the program has no such call. *)
Definition updates_download_button (a : action) : bool :=
  match a with
  | Run (Update download_button _ _) => true
  | _ => false
  end.

(** The Download button is disabled. *)
Definition download_disabled (g : Window) : Prop :=
  widgets g !! (download_button, "state") = Some (Str "disabled").

End Handlers.

(** The comprehension of line 192, for an enumeration that counts from
    [b]. *)
Definition kept (b : nat) (urls : list Handlers.cell) : list (nat * string) :=
  omap (fun item : nat * Handlers.cell =>
          let (i, url) := item in
          if Handlers.is_valid url then Some (i, Handlers.str url) else None)
       (Handlers.enumerate b urls).

(** A machine and a window for the examples: the directory exists and
    is empty, the free space cannot be read, the file has one row with
    a URL, and both paths are chosen. *)
Module HandlerExamples.

Definition desktop : Handlers.Desktop :=
  Handlers.mkDesktop
    (fun _ => true) (fun _ => None)
    (fun _ =>
       Handlers.DataFrame ["id"; "image_url"]
         (fun _ => [Handlers.Value Examples.url1]))
    (fun _ _ => true) (fun _ => Some []).

Definition window : Handlers.Window :=
  Handlers.mkWindow false false "observations.csv" "photos"
    (Handlers.widgets Handlers.main_window).

End HandlerExamples.

(** Nothing goes wrong in the world [w]: every request is answered with
    a status outside 400..599 and at least 100 bytes, every file can be
    written, and Cancel is never pressed. *)
Definition nothing_fails (w : World) : Prop :=
  cancel_at w = None
  /\ (forall n url,
        exists r, net w n url REQUEST_TIMEOUT = NetResponse r
                  /\ status_ok r = true
                  /\ (100 <= length (content r))%nat)
  /\ (forall k name, disk w k name = DiskOk).

(* ================================================================== *)
(** * Proofs: strings and decimal numbers *)
(* ================================================================== *)

Section StringFacts.
Import PyStr.

Lemma app_cons (c : ascii) (s t : string) :
  String c s +:+ t = String c (s +:+ t).
Proof. reflexivity. Qed.

Lemma app_empty_l (s : string) : "" +:+ s = s.
Proof. reflexivity. Qed.

Lemma app_empty_r (s : string) : s +:+ "" = s.
Proof. induction s as [| c s IH]; [reflexivity | ]. now rewrite app_cons, IH. Qed.

Lemma app_assoc_str (s t u : string) : (s +:+ t) +:+ u = s +:+ (t +:+ u).
Proof.
  induction s as [| c s IH]; [reflexivity | ].
  now rewrite !app_cons, IH.
Qed.

Lemma length_app_str (s t : string) :
  String.length (s +:+ t) = (String.length s + String.length t)%nat.
Proof.
  induction s as [| c s IH]; [reflexivity | ].
  rewrite app_cons. cbn [String.length]. now rewrite IH.
Qed.

Lemma all_app (p : ascii -> bool) (s t : string) :
  all p (s +:+ t) = all p s && all p t.
Proof.
  induction s as [| c s IH]; [reflexivity | ].
  rewrite app_cons. cbn [all]. rewrite IH. now rewrite andb_assoc.
Qed.

Lemma is_digit_is_word (c : ascii) : is_digit c = true -> is_word c = true.
Proof. unfold is_word. now intros ->. Qed.

(** The characters [str_N] produces are digits. *)
Lemma all_digit_string_of_uint (d : Decimal.uint) :
  all is_digit (NilEmpty.string_of_uint d) = true.
Proof. induction d; cbn [NilEmpty.string_of_uint all]; auto. Qed.

Lemma str_N_digits (n : N) : all is_digit (str_N n) = true.
Proof. apply all_digit_string_of_uint. Qed.

Lemma str_N_nonempty (n : N) : str_N n <> "".
Proof.
  unfold str_N. destruct n as [| p]; [discriminate | ].
  cbn [N.to_uint].
  pose proof (DecimalPos.Unsigned.to_uint_nonnil p) as Hnil.
  destruct (Pos.to_uint p); [congruence | discriminate ..].
Qed.

Lemma int_acc_string_of_uint (d : Decimal.uint) (acc : N) :
  int_acc (NilEmpty.string_of_uint d) acc
  = (DecimalPos.Unsigned.of_lu (Decimal.rev d)
     + acc * 10 ^ DecimalPos.Unsigned.usize d)%N.
Proof.
  revert acc.
  induction d; intros acc;
    cbn [NilEmpty.string_of_uint int_acc DecimalPos.Unsigned.usize];
    [ cbn; lia | .. ];
    rewrite IHd; unfold Decimal.rev at 2; cbn [Decimal.revapp];
    rewrite DecimalPos.Unsigned.of_lu_revapp;
    cbn [DecimalPos.Unsigned.of_lu];
    rewrite N.pow_succ_r';
    change (digit_value _) with 0%N || change (digit_value _) with 1%N
    || change (digit_value _) with 2%N || change (digit_value _) with 3%N
    || change (digit_value _) with 4%N || change (digit_value _) with 5%N
    || change (digit_value _) with 6%N || change (digit_value _) with 7%N
    || change (digit_value _) with 8%N || change (digit_value _) with 9%N;
    lia.
Qed.

(** [int(str(n)) == n], whatever the size of [n]. *)
Lemma int_str_N (n : N) : int (str_N n) = n.
Proof.
  unfold int, str_N. rewrite int_acc_string_of_uint.
  rewrite <- DecimalPos.Unsigned.of_uint_alt.
  change (Pos.of_uint (N.to_uint n)) with (N.of_uint (N.to_uint n)).
  rewrite DecimalN.Unsigned.of_to. lia.
Qed.

Lemma str_N_inj (n m : N) : str_N n = str_N m -> n = m.
Proof. intros H. rewrite <- (int_str_N n), <- (int_str_N m). now rewrite H. Qed.

(** ** What the string primitives compute *)

Lemma prefix_app (p s : string) :
  String.prefix p s = true <-> exists r, s = p +:+ r.
Proof.
  revert s. induction p as [| a p IH]; intros [| b s]; cbn [String.prefix].
  - split; [intros _; exists ""; reflexivity | reflexivity].
  - split; [intros _; exists (String b s); reflexivity | reflexivity].
  - split; [discriminate | intros (r & Hr); rewrite app_cons in Hr; discriminate].
  - destruct (ascii_dec a b) as [-> | Hne].
    + rewrite IH. split; intros (r & Hr); exists r.
      * rewrite app_cons. now rewrite Hr.
      * rewrite app_cons in Hr. congruence.
    + split; [discriminate | ].
      intros (r & Hr). rewrite app_cons in Hr. congruence.
Qed.

(** [sub in s]: [sub] occurs somewhere in [s]. *)
Lemma contains_substring (sub s : string) :
  contains sub s = true <-> exists pre post, s = pre +:+ sub +:+ post.
Proof.
  induction s as [| c s IH]; cbn [contains].
  - destruct (String.prefix sub "") eqn:Hp.
    + split; [intros _ | reflexivity].
      apply prefix_app in Hp as (r & Hr). exists "", r. exact Hr.
    + split; [discriminate | ].
      intros (pre & post & H). destruct pre as [| a pre];
        [ | rewrite app_cons in H; discriminate].
      rewrite app_empty_l in H.
      assert (String.prefix sub "" = true) by (apply prefix_app; eauto).
      congruence.
  - destruct (String.prefix sub (String c s)) eqn:Hp.
    + split; [intros _ | reflexivity].
      apply prefix_app in Hp as (r & Hr). exists "", r. exact Hr.
    + rewrite IH. split.
      * intros (pre & post & ->). exists (String c pre), post.
        now rewrite app_cons.
      * intros (pre & post & H). destruct pre as [| a pre].
        -- rewrite app_empty_l in H.
           assert (String.prefix sub (String c s) = true)
             by (apply prefix_app; eauto).
           congruence.
        -- rewrite app_cons in H. injection H as _ ->. eauto.
Qed.

(** [s.split(sep)[0]]: the part of [s] before its first [sep]. *)
Lemma split_head_before_sep (sep : ascii) (s : string) :
  all (fun c => negb (Ascii.eqb c sep)) (split_head sep s) = true
  /\ (s = split_head sep s
      \/ exists rest, s = split_head sep s +:+ String sep rest).
Proof.
  induction s as [| c s (IHall & IHsplit)]; cbn [split_head].
  - split; [reflexivity | now left].
  - destruct (Ascii.eqb_spec c sep) as [-> | Hne].
    + split; [reflexivity | ]. right. exists s. reflexivity.
    + split.
      * cbn [all]. rewrite IHall.
        destruct (Ascii.eqb_spec c sep); [contradiction | reflexivity].
      * destruct IHsplit as [Heq | (rest & Heq)].
        -- left. now rewrite <- Heq.
        -- right. exists rest. rewrite app_cons. now rewrite <- Heq.
Qed.

Lemma lstrip_removes_leading (s : string) :
  no_leading_space (lstrip s)
  /\ exists l, s = l +:+ lstrip s /\ all is_space l = true.
Proof.
  induction s as [| c s (IHlead & l & IHs & IHl)]; cbn [lstrip].
  - split; [exact I | ]. exists "". now split.
  - destruct (is_space c) eqn:Hc.
    + split; [assumption | ]. exists (String c l).
      rewrite app_cons, <- IHs. cbn [all]. now rewrite Hc, IHl.
    + split; [exact Hc | ]. exists "". now split.
Qed.

Lemma rstrip_removes_trailing (s : string) :
  no_trailing_space (rstrip s)
  /\ exists r, s = rstrip s +:+ r /\ all is_space r = true.
Proof.
  induction s as [| c s (IHtrail & r & IHs & IHr)]; cbn [rstrip].
  - split; [ | exists ""; now split].
    intros [| a r'] c0 H; rewrite ?app_cons in H; discriminate.
  - destruct (rstrip s) as [| d t] eqn:Hr.
    + rewrite app_empty_l in IHs. subst r.
      destruct (is_space c) eqn:Hc.
      * split.
        -- intros [| a r'] c0 H; rewrite ?app_cons in H; discriminate.
        -- exists (String c s). rewrite app_empty_l. cbn [all].
           now rewrite Hc, IHr.
      * split.
        -- intros [| a r'] c0 H; rewrite ?app_cons, ?app_empty_l in H.
           ++ now injection H as <-.
           ++ injection H as _ H. destruct r'; rewrite ?app_cons in H;
                discriminate.
        -- exists s. rewrite app_cons, app_empty_l. now split.
    + split.
      * intros [| a r'] c0 H; rewrite ?app_cons, ?app_empty_l in H;
          [discriminate | ].
        injection H as _ H. now apply (IHtrail r' c0).
      * exists r. rewrite app_cons, <- IHs. now split.
Qed.

(** [s.strip()]: [s] without its leading and trailing white space. *)
Lemma strip_trims (s : string) :
  no_trailing_space (strip s)
  /\ exists l r,
       s = l +:+ strip s +:+ r
       /\ all is_space l = true /\ all is_space r = true.
Proof.
  unfold strip.
  destruct (lstrip_removes_leading s) as (_ & l & Hs & Hl).
  destruct (rstrip_removes_trailing (lstrip s)) as (Htrail & r & Hr & Hsp).
  split; [assumption | ]. exists l, r. split; [ | now split].
  rewrite <- Hr. exact Hs.
Qed.

(** [s.lower()] has no upper-case letter and leaves the other characters
    of [s] in place. *)
Lemma lower_no_upper (s : string) :
  all (fun c => negb (is_upper c)) (lower s) = true
  /\ String.length (lower s) = String.length s
  /\ lower (lower s) = lower s.
Proof.
  assert (forall c, is_upper (lower_char c) = false) as Hchar.
  { intros c. unfold lower_char. destruct (is_upper c) eqn:Hc; [ | assumption].
    destruct c as [[] [] [] [] [] [] [] []]; vm_compute in Hc |- *;
      congruence. }
  induction s as [| c s (IHall & IHlen & IHidem)]; cbn [lower all String.length].
  - now repeat split.
  - rewrite Hchar, IHall, IHlen, IHidem. repeat split.
    f_equal. unfold lower_char at 1. now rewrite Hchar.
Qed.

End StringFacts.

(* ================================================================== *)
(** * Proofs: the start-index scan *)
(* ================================================================== *)

Section NumberingFacts.
Import PyStr Numbering.

Lemma skip_prefix_Some (p s r : string) :
  skip_prefix p s = Some r <-> s = p +:+ r.
Proof.
  revert s. induction p as [| a p IH]; intros s; cbn [skip_prefix].
  - rewrite app_empty_l. split; congruence.
  - destruct s as [| b s]; [split; [discriminate | rewrite app_cons; discriminate] | ].
    rewrite app_cons. destruct (Ascii.eqb_spec a b) as [-> | Hne].
    + rewrite IH. split; [now intros -> | now intros [= ->]].
    + split; [discriminate | intros [= ? _]; congruence].
Qed.

(** What [span_digits] returns: a split of the string into digits and
    a rest that does not start with a digit. *)
Lemma span_digits_spec (s ds r : string) :
  span_digits s = (ds, r) <->
  s = ds +:+ r /\ all is_digit ds = true /\ no_leading_digit r.
Proof.
  revert ds r. induction s as [| c s IH]; intros ds r; cbn [span_digits].
  - split.
    + intros [= <- <-]. now cbn.
    + intros (Hs & _ & _). destruct ds; [ | rewrite app_cons in Hs; discriminate].
      rewrite app_empty_l in Hs. now subst.
  - destruct (is_digit c) eqn:Hc.
    + destruct (span_digits s) as [ds0 r0] eqn:Hspan.
      destruct (proj1 (IH ds0 r0) eq_refl) as (-> & Hds0 & Hr0).
      split.
      * intros [= <- <-]. rewrite app_cons. cbn [all]. now rewrite Hc, Hds0.
      * intros (Hs & Hds & Hr). destruct ds as [| d ds].
        -- rewrite app_empty_l in Hs. subst r. cbn in Hr. congruence.
        -- rewrite app_cons in Hs. injection Hs as <- Hs.
           cbn [all] in Hds. apply andb_prop in Hds as [_ Hds].
           assert ((ds0, r0) = (ds, r)) as Heq by (apply IH; auto).
           now injection Heq as -> ->.
    + split.
      * intros [= <- <-]. now cbn.
      * intros (Hs & Hds & Hr). destruct ds as [| d ds].
        -- rewrite app_empty_l in Hs. now subst.
        -- rewrite app_cons in Hs. injection Hs as <- _.
           cbn [all] in Hds. rewrite Hc in Hds. discriminate.
Qed.

(** The pattern tried at the start of a string. *)
Lemma match_here_Some (s g : string) :
  match_here s = Some g <-> matches_at s "" g.
Proof.
  unfold match_here, matches_at. split.
  - destruct (skip_prefix "image_" s) as [s1 |] eqn:Hpre; [ | discriminate].
    apply skip_prefix_Some in Hpre as ->.
    destruct (span_digits s1) as [ds r] eqn:Hspan.
    apply span_digits_spec in Hspan as (-> & Hds & Hr).
    destruct ds as [| d ds]; [discriminate | ].
    destruct r as [| dot [| c r]]; try discriminate.
    destruct (Ascii.eqb_spec dot ".") as [-> | ?]; [ | discriminate].
    cbn [andb]. destruct (is_word c) eqn:Hc; [ | discriminate].
    intros [= <-]. exists (String c ""), r.
    rewrite app_empty_l. repeat split; try discriminate; auto.
    cbn [all]. now rewrite Hc.
  - intros (ext & rest & -> & Hg & Hdig & Hext & Hword).
    rewrite app_empty_l.
    assert (skip_prefix "image_" ("image_" +:+ g +:+ "." +:+ ext +:+ rest)
            = Some (g +:+ "." +:+ ext +:+ rest)) as ->
      by now apply skip_prefix_Some.
    assert (span_digits (g +:+ "." +:+ ext +:+ rest)
            = (g, "." +:+ ext +:+ rest)) as ->
      by (apply span_digits_spec; repeat split; auto).
    destruct g as [| d g]; [congruence | ].
    destruct ext as [| c ext]; [congruence | ].
    cbn [all] in Hword. apply andb_prop in Hword as [Hc _].
    rewrite !app_cons, app_empty_l. cbn [Ascii.eqb Bool.eqb andb].
    now rewrite Hc.
Qed.

Lemma matches_at_cons (c : ascii) (name pre g : string) :
  matches_at (String c name) (String c pre) g <-> matches_at name pre g.
Proof.
  unfold matches_at. split; intros (ext & rest & H & ?);
    exists ext, rest; (split; [ | assumption]).
  - rewrite app_cons in H. congruence.
  - rewrite app_cons. congruence.
Qed.

Lemma matches_at_head (c c' : ascii) (name pre g : string) :
  matches_at (String c name) (String c' pre) g -> c' = c.
Proof.
  intros (ext & rest & H & _). rewrite app_cons in H. congruence.
Qed.

(** At one position the group is determined. *)
Lemma matches_at_group (name pre g g' : string) :
  matches_at name pre g -> matches_at name pre g' -> g = g'.
Proof.
  revert name. induction pre as [| c pre IH]; intros name H H'.
  - apply match_here_Some in H, H'. congruence.
  - destruct name as [| c0 name].
    + destruct H as (? & ? & H & _). rewrite app_cons in H. discriminate.
    + pose proof (matches_at_head _ _ _ _ _ H) as ->.
      apply matches_at_cons in H, H'. eauto.
Qed.

(** [re.search] finds nothing exactly when the pattern occurs nowhere. *)
Lemma re_search_None (name : string) :
  re_search name = None <-> (forall pre g, ~ matches_at name pre g).
Proof.
  induction name as [| c name IH]; cbn [re_search].
  - destruct (match_here "") as [g |] eqn:Hm; [discriminate | ].
    split; [ | reflexivity]. intros _ pre g H.
    destruct pre as [| c pre].
    + apply match_here_Some in H. congruence.
    + destruct H as (? & ? & H & _). rewrite app_cons in H. discriminate.
  - destruct (match_here (String c name)) as [g |] eqn:Hm.
    + split; [discriminate | ]. intros H. exfalso.
      apply (H "" g). now apply match_here_Some.
    + rewrite IH. split.
      * intros H pre g Hpre. destruct pre as [| c' pre].
        -- apply match_here_Some in Hpre. congruence.
        -- pose proof (matches_at_head _ _ _ _ _ Hpre) as ->.
           apply matches_at_cons in Hpre. now apply (H pre g).
      * intros H pre g Hpre. apply (H (String c pre) g).
        now apply matches_at_cons.
Qed.

(** When it finds something, it is the group of the leftmost
    occurrence. *)
Lemma re_search_Some (name g : string) :
  re_search name = Some g ->
  exists pre,
    matches_at name pre g
    /\ forall pre' g', matches_at name pre' g' ->
                       (String.length pre <= String.length pre')%nat.
Proof.
  induction name as [| c name IH]; cbn [re_search].
  - destruct (match_here "") as [g0 |] eqn:Hm; [ | discriminate].
    intros [= <-]. exists "". split; [now apply match_here_Some | ].
    intros; cbn; lia.
  - destruct (match_here (String c name)) as [g0 |] eqn:Hm.
    + intros [= <-]. exists "". split; [now apply match_here_Some | ].
      intros; cbn; lia.
    + intros Hs. destruct (IH Hs) as (pre & Hpre & Hleft).
      exists (String c pre). split; [now apply matches_at_cons | ].
      intros pre' g' H'. destruct pre' as [| c' pre'].
      * apply match_here_Some in H'. congruence.
      * pose proof (matches_at_head _ _ _ _ _ H') as ->.
        apply matches_at_cons in H'. apply Hleft in H'. cbn. lia.
Qed.

Lemma re_search_matches (name pre g : string) :
  matches_at name pre g -> exists g0, re_search name = Some g0.
Proof.
  intros H. destruct (re_search name) as [g0 |] eqn:Hs; [eauto | ].
  exfalso. eapply re_search_None; eauto.
Qed.

(** A file the program itself wrote is found again, with its number. *)
Lemma re_search_image_name (n : N) (ext rest : string) :
  ext <> "" -> all is_word ext = true ->
  re_search ("image_" +:+ str_N n +:+ "." +:+ ext +:+ rest) = Some (str_N n).
Proof.
  intros Hext Hword.
  assert (match_here ("image_" +:+ str_N n +:+ "." +:+ ext +:+ rest)
          = Some (str_N n)) as Hm.
  { apply match_here_Some. exists ext, rest.
    rewrite app_empty_l.
    auto using str_N_nonempty, str_N_digits. }
  destruct ("image_" +:+ str_N n +:+ "." +:+ ext +:+ rest);
    cbn [re_search]; now rewrite Hm.
Qed.

(** The loop computes a maximum. *)
Lemma scan_max (existing_images : list string) (max_num : N) :
  scan existing_images max_num
  = N.max max_num (max_of (image_numbers existing_images)).
Proof.
  revert max_num.
  induction existing_images as [| img rest IH]; intros max_num;
    cbn [scan image_numbers omap list_omap max_of foldr].
  - lia.
  - fold (omap (fun img => int <$> re_search img) rest).
    fold (image_numbers rest).
    destruct (re_search img) as [g |]; cbn [fmap option_fmap option_map].
    + rewrite IH. cbn [foldr]. fold (max_of (image_numbers rest)).
      destruct (N.ltb_spec max_num (int g)); lia.
    + apply IH.
Qed.

Lemma starting_num_max (existing_images : list string) :
  starting_num existing_images
  = (1 + max_of (image_numbers existing_images))%N.
Proof. unfold starting_num. rewrite scan_max. lia. Qed.

Lemma max_of_upper (l : list N) (k : N) : In k l -> (k <= max_of l)%N.
Proof.
  induction l as [| x l IH]; cbn [max_of foldr In]; [tauto | ].
  fold (max_of l). intros [-> | Hin]; [lia | ].
  specialize (IH Hin). lia.
Qed.

Lemma max_of_attained (l : list N) : l <> [] -> In (max_of l) l.
Proof.
  induction l as [| x l IH]; [congruence | intros _].
  cbn [max_of foldr In]. fold (max_of l).
  destruct l as [| y l].
  - left. cbn. lia.
  - destruct (N.max_spec x (max_of (y :: l))) as [[_ ->] | [_ ->]].
    + right. apply IH. discriminate.
    + now left.
Qed.

Lemma max_of_Permutation (l l' : list N) :
  Permutation l l' -> max_of l = max_of l'.
Proof.
  induction 1 as [| x l l' _ IH | x y l | l l' l'' _ IH1 _ IH2];
    unfold max_of in *; cbn [foldr]; lia.
Qed.

Lemma image_numbers_none (existing_images : list string) :
  (forall img, In img existing_images -> re_search img = None) ->
  image_numbers existing_images = [].
Proof.
  induction existing_images as [| img rest IH]; intros H; [reflexivity | ].
  unfold image_numbers. cbn [omap list_omap].
  rewrite (H img) by (now left). cbn.
  apply IH. intros img' Hin. apply H. now right.
Qed.

Lemma image_numbers_app (l1 l2 : list string) :
  image_numbers (l1 ++ l2) = image_numbers l1 ++ image_numbers l2.
Proof. unfold image_numbers. apply omap_app. Qed.

Lemma in_image_numbers (existing_images : list string) (k : N) :
  In k (image_numbers existing_images) <->
  exists img g, In img existing_images /\ re_search img = Some g /\ k = int g.
Proof.
  unfold image_numbers. rewrite <- list_elem_of_In, list_elem_of_omap.
  split.
  - intros (img & Hin & Hk). apply list_elem_of_In in Hin.
    destruct (re_search img) as [g |] eqn:Hs; [ | discriminate].
    cbn in Hk. exists img, g. split; [assumption | ]. split; congruence.
  - intros (img & g & Hin & Hs & ->). exists img.
    rewrite list_elem_of_In, Hs. auto.
Qed.

Lemma same_prefix (pre pre' x y : string) :
  pre +:+ x = pre' +:+ y -> String.length pre = String.length pre' ->
  pre = pre'.
Proof.
  revert pre'. induction pre as [| c pre IH]; intros [| c' pre'] H Hlen;
    try discriminate; [reflexivity | ].
  rewrite !app_cons in H. injection H as -> H.
  f_equal. apply IH; [assumption | ]. cbn in Hlen. lia.
Qed.

Lemma re_search_leftmost (name pre g : string) :
  matches_at name pre g -> leftmost name pre -> re_search name = Some g.
Proof.
  intros Hm Hleft.
  destruct (re_search_matches _ _ _ Hm) as (g0 & Hs).
  destruct (re_search_Some _ _ Hs) as (pre0 & Hm0 & Hleft0).
  assert (pre0 = pre) as ->.
  { pose proof Hm as (? & ? & Hn & _). pose proof Hm0 as (? & ? & Hn0 & _).
    eapply same_prefix; [exact (eq_trans (eq_sym Hn0) Hn) | ].
    apply Nat.le_antisymm;
      [exact (Hleft0 _ _ Hm) | exact (Hleft _ _ Hm0)]. }
  now rewrite (matches_at_group _ _ _ _ Hm Hm0).
Qed.

End NumberingFacts.

(** C3.  For every collection of existing file names the start index is
    1 when the collection is empty or no name matches the pattern
    [image_<digits>.<wordchars>], and 1 + the largest matched number when
    some name matches, whatever the extensions and whatever the order of
    the names; gaps are kept (the numbers 1, 2, 5 give 6); and a file
    numbered [n] gives [n + 1] for every natural number [n], however
    large, under every extension. *)
Theorem starting_num_correct :
  Numbering.starting_num [] = 1%N
  /\ (forall names,
        (forall img, In img names ->
                     forall pre g, ~ Numbering.matches_at img pre g) ->
        Numbering.starting_num names = 1%N)
  /\ (forall names,
        (exists img, In img names /\ Numbering.re_search img <> None) ->
        exists img g,
          In img names /\ Numbering.re_search img = Some g
          /\ Numbering.starting_num names = (1 + PyStr.int g)%N
          /\ forall img' g',
               In img' names -> Numbering.re_search img' = Some g' ->
               (PyStr.int g' <= PyStr.int g)%N)
  /\ (forall names names',
        Permutation names names' ->
        Numbering.starting_num names = Numbering.starting_num names')
  /\ Numbering.starting_num ["image_1.jpg"; "image_2.png"; "image_5.gif"] = 6%N
  /\ (forall (n : N) (ext : string),
        ext <> "" -> PyStr.all PyStr.is_word ext = true ->
        Numbering.starting_num ["image_" +:+ PyStr.str_N n +:+ "." +:+ ext]
        = (n + 1)%N).
Proof.
  repeat split.
  - intros names Hnone. rewrite starting_num_max, image_numbers_none.
    + reflexivity.
    + intros img Hin. apply re_search_None. now apply Hnone.
  - intros names (img0 & Hin0 & Hs0).
    assert (Numbering.image_numbers names <> []) as Hne.
    { destruct (Numbering.re_search img0) as [g0 |] eqn:Hg0; [ | congruence].
      intros Hnil.
      assert (In (PyStr.int g0) (Numbering.image_numbers names)) as Hin
        by (apply in_image_numbers; eauto).
      rewrite Hnil in Hin. destruct Hin. }
    pose proof (max_of_attained _ Hne) as Hmax.
    apply in_image_numbers in Hmax as (img & g & Hin & Hs & Hk).
    exists img, g. repeat split; auto.
    + rewrite starting_num_max. now rewrite Hk.
    + intros img' g' Hin' Hs'. rewrite <- Hk. apply max_of_upper.
      apply in_image_numbers. eauto.
  - intros names names' Hperm. rewrite !starting_num_max.
    f_equal. apply max_of_Permutation.
    unfold Numbering.image_numbers. now apply omap_Permutation.
  - intros n ext Hext Hword. unfold Numbering.starting_num.
    cbn [Numbering.scan].
    rewrite <- (app_empty_r ("image_" +:+ PyStr.str_N n +:+ "." +:+ ext)).
    rewrite !app_assoc_str.
    rewrite re_search_image_name by assumption.
    rewrite int_str_N. destruct (N.ltb_spec 0 n); lia.
Qed.

Lemma starting_num_correct_witness :
  Numbering.starting_num ["notes.txt"; "photo_1.jpg"; "image_abc.jpg"] = 1%N
  /\ Numbering.starting_num ["image_18446744073709551616.jpg"]
     = 18446744073709551617%N
  /\ exists img g,
       In img ["image_2.png"; "image_5.gif"; "image_1.jpg"]
       /\ Numbering.re_search img = Some g
       /\ Numbering.starting_num ["image_2.png"; "image_5.gif"; "image_1.jpg"]
          = (1 + PyStr.int g)%N.
Proof.
  destruct starting_num_correct as (_ & Hnone & Hmax & _ & _ & Hbig).
  split; [ | split].
  - apply Hnone. intros img Hin pre g.
    apply re_search_None.
    cbn in Hin. repeat (destruct Hin as [<- | Hin]; [vm_compute; reflexivity | ]).
    destruct Hin.
  - apply (Hbig 18446744073709551616%N "jpg"); [discriminate | reflexivity].
  - destruct (Hmax ["image_2.png"; "image_5.gif"; "image_1.jpg"])
      as (img & g & Hin & Hs & Hstart & _).
    + exists "image_2.png". split; [now left | vm_compute; discriminate].
    + exists img, g. auto.
Defined.

(** C9.  The scan counts a file name exactly when the pattern (the
    literal [image_], one or more digits, a dot, one or more word
    characters) occurs in it, anywhere, as [re.search] looks for it, and
    then with the number of its first occurrence; every other name is
    ignored: removing it from the directory leaves the start index
    unchanged.  The start index is the one these numbers give: a name
    whose first occurrence of the pattern has the digits [g] raises the
    start index of the other names to [1 + int g] if it was lower, so
    the start is above the number of every name counted, and it is 1 +
    the largest of the numbers counted; a name that embeds two numbers
    counts with the first only. *)
Theorem scan_counts_matching_names_only :
  (forall img k,
     In k (Numbering.image_numbers [img]) <->
     exists pre g,
       Numbering.matches_at img pre g /\ Numbering.leftmost img pre
       /\ k = PyStr.int g)
  /\ (forall names1 img names2,
        (forall pre g, ~ Numbering.matches_at img pre g) ->
        Numbering.starting_num (names1 ++ img :: names2)
        = Numbering.starting_num (names1 ++ names2))
  /\ Numbering.image_numbers
       ["photo_1.jpg"; "image_abc.jpg"; "image_7"; "image_1_2.jpg";
        "image_3.jpg_image_9.png"; "old_image_12.jpg.bak"]
     = [3%N; 12%N]
  /\ (forall img names pre g,
        Numbering.matches_at img pre g -> Numbering.leftmost img pre ->
        Numbering.starting_num (img :: names)
        = N.max (1 + PyStr.int g) (Numbering.starting_num names))
  /\ (forall img names,
        (forall pre g, ~ Numbering.matches_at img pre g) ->
        Numbering.starting_num (img :: names) = Numbering.starting_num names)
  /\ Numbering.starting_num [] = 1%N
  /\ (forall names img pre g,
        In img names ->
        Numbering.matches_at img pre g -> Numbering.leftmost img pre ->
        (PyStr.int g < Numbering.starting_num names)%N)
  /\ (forall names,
        Numbering.starting_num names
        = (1 + Numbering.max_of (Numbering.image_numbers names))%N)
  /\ Numbering.starting_num ["image_3.jpg_image_9.png"] = 4%N
  /\ Numbering.starting_num
       ["photo_1.jpg"; "image_abc.jpg"; "image_7"; "image_1_2.jpg";
        "image_3.jpg_image_9.png"; "old_image_12.jpg.bak"]
     = 13%N.
Proof.
  assert (forall img names g,
            Numbering.re_search img = Some g ->
            Numbering.starting_num (img :: names)
            = N.max (1 + PyStr.int g) (Numbering.starting_num names))
    as Hcounted.
  { intros img names g Hs. unfold Numbering.starting_num.
    cbn [Numbering.scan]. rewrite Hs. cbv zeta. rewrite !scan_max.
    destruct (N.ltb_spec 0 (PyStr.int g)); lia. }
  assert (forall img names,
            Numbering.re_search img = None ->
            Numbering.starting_num (img :: names)
            = Numbering.starting_num names) as Hignored.
  { intros img names Hs. unfold Numbering.starting_num.
    cbn [Numbering.scan]. now rewrite Hs. }
  split; [ | split; [ | split; [ | split; [ | split; [ | split;
    [ | split; [ | split; [ | split]]]]]]]].
  - intros img k. rewrite in_image_numbers. split.
    + intros (img' & g & [<- | []] & Hs & ->).
      destruct (re_search_Some _ _ Hs) as (pre & Hm & Hleft).
      exists pre, g. auto.
    + intros (pre & g & Hm & Hleft & ->).
      exists img, g. split; [now left | ]. split; [ | reflexivity].
      now apply re_search_leftmost with pre.
  - intros names1 img names2 Hnone.
    rewrite !starting_num_max.
    change (img :: names2) with ([img] ++ names2).
    rewrite !image_numbers_app.
    rewrite (image_numbers_none [img]); [reflexivity | ].
    intros img' [<- | []]. now apply re_search_None.
  - vm_compute. reflexivity.
  - intros img names pre g Hm Hleft. apply Hcounted.
    now apply re_search_leftmost with pre.
  - intros img names Hnone. apply Hignored. now apply re_search_None.
  - reflexivity.
  - intros names img pre g Hin Hm Hleft. rewrite starting_num_max.
    assert (PyStr.int g
            <= Numbering.max_of (Numbering.image_numbers names))%N; [ | lia].
    apply max_of_upper, in_image_numbers. exists img, g.
    split; [assumption | ].
    split; [now apply re_search_leftmost with pre | reflexivity].
  - apply starting_num_max.
  - vm_compute. reflexivity.
  - vm_compute. reflexivity.
Qed.

Lemma scan_counts_matching_names_only_witness :
  Numbering.starting_num (["image_4.png"] ++ "photo_1.jpg" :: ["image_2.gif"])
  = Numbering.starting_num (["image_4.png"] ++ ["image_2.gif"])
  /\ Numbering.starting_num ["image_3.jpg_image_9.png"; "image_1.gif"]
     = N.max (1 + PyStr.int "3") (Numbering.starting_num ["image_1.gif"]).
Proof.
  destruct scan_counts_matching_names_only as (_ & Hignore & _ & Hcount & _).
  split.
  - apply Hignore. apply re_search_None. vm_compute. reflexivity.
  - apply (Hcount "image_3.jpg_image_9.png" ["image_1.gif"] "" "3").
    + exists "jpg", "_image_9.png".
      repeat split; [discriminate | discriminate].
    + intros pre' g' _. cbn. lia.
Defined.


(* ================================================================== *)
(** * Proofs: [get_file_extension] *)
(* ================================================================== *)

Section ExtensionFacts.

Lemma content_type_map_table (t : string) :
  content_type_map !! t = ExtensionResolver.table t.
Proof.
  unfold ExtensionResolver.table.
  repeat match goal with
         | |- context [String.eqb t ?k] =>
             destruct (String.eqb_spec t k) as [-> | ?];
             [vm_compute; reflexivity | ]
         end.
  unfold content_type_map. cbn [list_to_map foldr uncurry fst snd].
  rewrite !lookup_insert_ne by congruence.
  apply lookup_empty.
Qed.

Lemma extension_from_url_stage2 (url : string) :
  extension_from_url url = ExtensionResolver.stage2 url.
Proof.
  unfold extension_from_url, ExtensionResolver.stage2, url_extensions.
  cbn [url_extension_loop].
  repeat (destruct (PyStr.contains _ (PyStr.lower url)); [reflexivity | ]).
  reflexivity.
Qed.

Lemma get_file_extension_resolve (content_type url : string) :
  get_file_extension content_type url
  = ExtensionResolver.resolve content_type url.
Proof.
  unfold get_file_extension, ExtensionResolver.resolve,
    ExtensionResolver.stage1.
  destruct content_type as [| c ct]; cbn [PyStr.truthy].
  - apply extension_from_url_stage2.
  - rewrite content_type_map_table.
    destruct (ExtensionResolver.table _); [reflexivity | ].
    apply extension_from_url_stage2.
Qed.

Lemma get_file_extension_known (content_type url : string) :
  In (get_file_extension content_type url) known_extensions.
Proof.
  rewrite get_file_extension_resolve.
  unfold ExtensionResolver.resolve, ExtensionResolver.stage1,
    ExtensionResolver.table, ExtensionResolver.stage2, known_extensions.
  destruct content_type as [| c ct].
  - repeat (destruct (PyStr.contains _ _); [cbn; tauto | ]). cbn; tauto.
  - repeat (destruct (String.eqb _ _); [cbn; tauto | ]).
    repeat (destruct (PyStr.contains _ _); [cbn; tauto | ]). cbn; tauto.
Qed.

End ExtensionFacts.

(** C4, as the code has it.  For every declared content type and URL,
    [get_file_extension] is the three-stage algorithm of the
    specification: a non-empty content type is cut at the first [;],
    trimmed, lower-cased and looked up in the eight-entry table, and a
    hit is returned; otherwise, or on a miss, the lower-cased URL is
    tested for [.jpg], [.jpeg], [.png], [.gif], [.webp], [.bmp],
    [.tiff], [.svg] in that order, with [.jpeg] returned as [.jpg];
    [.jpg] is the default.  In particular
    ["image/jpeg; charset=utf-8"] gives [.jpg] with any URL; with no
    content type the result is [.png] exactly for the URLs that contain
    [.png] and no extension of higher priority ([.jpg], [.jpeg]); and a
    URL with none of the eight substrings gives [.jpg]. *)
Theorem get_file_extension_three_stages :
  (forall content_type url,
     get_file_extension content_type url
     = ExtensionResolver.resolve content_type url)
  /\ (forall url,
        get_file_extension "image/jpeg; charset=utf-8" url = ".jpg")
  /\ (forall url,
        get_file_extension "" url = ".png"
        <-> PyStr.contains ".png" (PyStr.lower url) = true
            /\ PyStr.contains ".jpg" (PyStr.lower url) = false
            /\ PyStr.contains ".jpeg" (PyStr.lower url) = false)
  /\ (forall url,
        (forall ext, In ext url_extensions ->
                     PyStr.contains ext (PyStr.lower url) = false) ->
        get_file_extension "" url = ".jpg").
Proof.
  split; [exact get_file_extension_resolve | ].
  split; [intros url; vm_compute; reflexivity | ].
  split.
  - intros url. rewrite get_file_extension_resolve.
    unfold ExtensionResolver.resolve, ExtensionResolver.stage1,
      ExtensionResolver.stage2.
    destruct (PyStr.contains ".jpg" _); [split; [discriminate | intros (_ & ? & _); discriminate] | ].
    destruct (PyStr.contains ".jpeg" _); [split; [discriminate | intros (_ & _ & ?); discriminate] | ].
    destruct (PyStr.contains ".png" _); [tauto | ].
    split; [ | intros (? & _); discriminate].
    repeat (destruct (PyStr.contains _ _); [discriminate | ]). discriminate.
  - intros url Hnone. rewrite get_file_extension_resolve.
    unfold ExtensionResolver.resolve, ExtensionResolver.stage1,
      ExtensionResolver.stage2.
    rewrite !Hnone by (unfold url_extensions; cbn; tauto).
    reflexivity.
Qed.

(** C4 as stated fails on its second instance: a URL that contains
    [photo.png] and also [.jpg] resolves to [.jpg], by the priority
    order of the fallback. *)
Lemma url_with_photo_png_and_jpg_gives_jpg :
  PyStr.contains "photo.png"
    "https://example.com/cat.jpg?download=photo.png" = true
  /\ get_file_extension "" "https://example.com/cat.jpg?download=photo.png"
     = ".jpg"
  /\ get_file_extension "" "https://example.com/cat.jpg?download=photo.png"
     <> ".png".
Proof. vm_compute. repeat split; [reflexivity .. | discriminate]. Qed.

Lemma get_file_extension_three_stages_witness :
  get_file_extension "" "https://example.com/photo.png" = ".png"
  /\ get_file_extension "" "https://example.com/photo" = ".jpg".
Proof.
  destruct get_file_extension_three_stages as (_ & _ & Hpng & Hdefault).
  split.
  - apply Hpng. vm_compute. auto.
  - apply Hdefault. intros ext Hin.
    unfold url_extensions in Hin. cbn in Hin.
    repeat (destruct Hin as [<- | Hin]; [vm_compute; reflexivity | ]).
    destruct Hin.
Defined.


(* ================================================================== *)
(** * Proofs: [download_with_retry] *)
(* ================================================================== *)

Section RetryFacts.

Variable w : World.
Variables (url : string) (timeout max_retries : Z).

Ltac run :=
  cbv beta delta [bind ret raise attempt_of try_get requests_get
                    raise_for_status except_clauses time_sleep modify].

Lemma retry_loop_returns attempt rest last s r :
  net w (requests s) url timeout = NetResponse r ->
  status_ok r = true ->
  retry_loop w url timeout max_retries (attempt :: rest) last s
  = (Return r, after_request s).
Proof.
  intros Hnet Hok. cbn [retry_loop]. run. rewrite Hnet. cbv beta iota zeta.
  unfold status_ok in Hok.
  destruct (400 <=? status_code r) eqn:H4, (status_code r <? 500) eqn:H5,
    (500 <=? status_code r) eqn:H5', (status_code r <? 600) eqn:H6;
    cbn in *; try reflexivity; try discriminate; lia.
Qed.

Lemma retry_loop_client_error attempt rest last s r :
  net w (requests s) url timeout = NetResponse r ->
  400 <= status_code r < 500 ->
  retry_loop w url timeout max_retries (attempt :: rest) last s
  = (Raise (HTTPError (PyStr.str_Z (status_code r) +:+ " Client Error: "
                       +:+ reason r +:+ " for url: " +:+ url)
                      (status_code r)),
     after_request s).
Proof.
  intros Hnet [H4 H5]. cbn [retry_loop]. run. rewrite Hnet. cbv beta iota zeta.
  apply Z.leb_le in H4. pose proof H5 as H5'. apply Z.ltb_lt in H5'.
  rewrite H4, H5'. cbn. rewrite H5'. reflexivity.
Qed.

Lemma retry_loop_retries attempt rest last s msg :
  retry_message timeout (net w (requests s) url timeout) = Some msg ->
  retry_loop w url timeout max_retries (attempt :: rest) last s
  = retry_loop w url timeout max_retries rest (Some msg)
      (after_backoff max_retries attempt (after_request s)).
Proof.
  intros Hmsg. cbn [retry_loop]. run. unfold after_backoff.
  destruct (net w (requests s) url timeout) as [m | m | r];
    cbn in Hmsg; cbv beta iota zeta.
  - injection Hmsg as <-. destruct (attempt <? max_retries - 1); reflexivity.
  - injection Hmsg as <-. destruct (attempt <? max_retries - 1); reflexivity.
  - destruct (500 <=? status_code r) eqn:H5, (status_code r <? 600) eqn:H6;
      try discriminate.
    injection Hmsg as <-.
    assert ((status_code r <? 500) = false) as H5' by lia.
    assert ((400 <=? status_code r) = true) as H4 by lia.
    rewrite H4, H5'. cbn. rewrite H5'.
    destruct (attempt <? max_retries - 1); reflexivity.
Qed.

Lemma retry_loop_exhausted last s :
  retry_loop w url timeout max_retries [] last s
  = (Raise (RequestException
              ("Failed after " +:+ PyStr.str_Z max_retries +:+ " attempts: "
               +:+ str_last_exception last)), s).
Proof. reflexivity. Qed.

(** Every answer of the network is of exactly one of the three kinds. *)
Lemma net_result_cases (x : net_result) :
  (exists r, x = NetResponse r /\ status_ok r = true)
  \/ (exists r, x = NetResponse r /\ 400 <= status_code r < 500)
  \/ (exists msg, retry_message timeout x = Some msg).
Proof.
  destruct x as [m | m | r]; cbn [retry_message]; eauto.
  destruct (Z_lt_dec (status_code r) 400) as [Hlow | Hlow];
    [ | destruct (Z_lt_dec (status_code r) 500) as [Hmid | Hmid];
        [ | destruct (Z_lt_dec (status_code r) 600) as [Hhigh | Hhigh]]].
  - left. exists r. split; [reflexivity | unfold status_ok; lia].
  - right. left. exists r. split; [reflexivity | lia].
  - right. right.
    assert ((500 <=? status_code r) && (status_code r <? 600) = true) as ->
      by lia.
    eauto.
  - left. exists r. split; [reflexivity | unfold status_ok; lia].
Qed.

Lemma fetch_frame_refl s : fetch_frame s s.
Proof.
  split; [now destruct s | ]. split; [lia | ].
  exists []. now rewrite app_nil_r.
Qed.

Lemma fetch_frame_trans s1 s2 s3 :
  fetch_frame s1 s2 -> fetch_frame s2 s3 -> fetch_frame s1 s3.
Proof.
  intros (H12 & Hle12 & naps12 & Hn12) (H23 & Hle23 & naps23 & Hn23).
  split; [ | split].
  - rewrite H23 at 1. rewrite H12 at 1. now destruct s1.
  - lia.
  - exists (naps12 ++ naps23). rewrite Hn23, Hn12. now rewrite app_assoc.
Qed.

Lemma fetch_frame_request s : fetch_frame s (after_request s).
Proof.
  split; [now destruct s | ]. split; [cbn; lia | ].
  exists []. cbn. now rewrite app_nil_r.
Qed.

Lemma fetch_frame_backoff attempt s :
  fetch_frame s (after_backoff max_retries attempt s).
Proof.
  unfold after_backoff. destruct (attempt <? max_retries - 1).
  - split; [now destruct s | ]. split; [cbn; lia | ]. now eexists.
  - apply fetch_frame_refl.
Qed.

Lemma requests_after_backoff attempt s :
  requests (after_backoff max_retries attempt s) = requests s.
Proof. unfold after_backoff. now destruct (attempt <? max_retries - 1). Qed.

(** What the loop can end in: the response of its last request, when
    [raise_for_status] lets it through; an [HTTPError] of status
    400..499; or, every attempt used up, the [RequestException] of
    line 82. *)
Lemma retry_loop_outcome attempts last s :
  let res := retry_loop w url timeout max_retries attempts last s in
  fetch_frame s (snd res)
  /\ (requests (snd res) <= requests s + length attempts)%nat
  /\ match fst res with
     | Return r =>
         status_ok r = true
         /\ exists n, requests (snd res) = S n
                      /\ net w n url timeout = NetResponse r
     | Raise (HTTPError _ status) => 400 <= status < 500
     | Raise (RequestException msg) =>
         requests (snd res) = (requests s + length attempts)%nat
         /\ msg = "Failed after " +:+ PyStr.str_Z max_retries +:+ " attempts: "
                  +:+ str_last_exception
                        (match attempts with
                         | [] => last
                         | _ => retry_message timeout
                                  (net w (pred (requests (snd res))) url timeout)
                         end)
     | Raise _ => False
     end.
Proof.
  revert last s.
  induction attempts as [| attempt rest IH]; intros last s res; subst res.
  - rewrite retry_loop_exhausted. cbn [fst snd length].
    split; [apply fetch_frame_refl | ]. split; [lia | ].
    split; [lia | reflexivity].
  - destruct (net_result_cases (net w (requests s) url timeout))
      as [(r & Hnet & Hok) | [(r & Hnet & Hclient) | (msg & Hmsg)]].
    + rewrite (retry_loop_returns _ _ _ _ _ Hnet Hok). cbn [fst snd length].
      split; [apply fetch_frame_request | ]. split; [cbn; lia | ].
      split; [assumption | ]. exists (requests s). now split.
    + rewrite (retry_loop_client_error _ _ _ _ _ Hnet Hclient).
      cbn [fst snd length].
      split; [apply fetch_frame_request | ]. split; [cbn; lia | assumption].
    + rewrite (retry_loop_retries _ _ _ _ _ Hmsg).
      specialize (IH (Some msg)
                    (after_backoff max_retries attempt (after_request s))).
      cbv zeta in IH. destruct IH as (Hframe & Hle & Hout).
      rewrite requests_after_backoff in Hle. cbn [after_request requests set_requests] in Hle.
      split; [ | split].
      * eapply fetch_frame_trans; [ | exact Hframe].
        eapply fetch_frame_trans;
          [apply fetch_frame_request | apply fetch_frame_backoff].
      * cbn [length]. destruct s; cbn in *; lia.
      * destruct (fst (retry_loop w url timeout max_retries rest (Some msg) _))
          as [r | [| m st | m | |]]; try assumption.
        destruct Hout as [Hreq Hm].
        rewrite requests_after_backoff in Hreq.
        split; [destruct s; cbn in *; lia | ].
        rewrite Hm. do 3 f_equal.
        destruct rest as [| a' rest']; [ | reflexivity].
        rewrite retry_loop_exhausted. cbn [snd].
        rewrite requests_after_backoff.
        destruct s; cbn [after_request requests set_requests pred].
        cbn in Hmsg. now rewrite Hmsg.
Qed.

End RetryFacts.

(** C1.  With [max_retries = 3], for every URL and timeout
    [download_with_retry] sorts the outcomes by the number of attempts:
    two timeouts and then a status 200 return the response after exactly
    3 requests (with sleeps of 2 s and 4 s between them), and a payload
    of at least 100 bytes then passes the size check of the worker; a
    single status 404 raises the [HTTPError] (the client error) after
    exactly 1 request and no sleep; a status 500 at every attempt raises
    the [RequestException] of line 82 (retries exhausted) after exactly 3
    requests. *)
Theorem download_with_retry_attempts
    (w : World) (url : string) (timeout : Z) (s : State) :
  (forall m1 m2 r,
     net w (requests s) url timeout = NetTimeout m1 ->
     net w (S (requests s)) url timeout = NetTimeout m2 ->
     net w (S (S (requests s))) url timeout = NetResponse r ->
     status_code r = 200 ->
     (100 <= length (content r))%nat ->
     exists s',
       download_with_retry w url timeout 3 s = (Return r, s')
       /\ requests s' = (requests s + 3)%nat
       /\ slept s' = slept s ++ [2; 4]
       /\ (length (content r) <? 100)%nat = false)
  /\ (forall r,
        net w (requests s) url timeout = NetResponse r ->
        status_code r = 404 ->
        exists msg s',
          download_with_retry w url timeout 3 s
          = (Raise (HTTPError msg 404), s')
          /\ requests s' = (requests s + 1)%nat
          /\ slept s' = slept s)
  /\ ((forall i, (i < 3)%nat ->
                 exists r, net w (requests s + i) url timeout = NetResponse r
                           /\ status_code r = 500) ->
      exists s',
        download_with_retry w url timeout 3 s
        = (Raise (RequestException "Failed after 3 attempts: HTTP 500"), s')
        /\ requests s' = (requests s + 3)%nat
        /\ slept s' = slept s ++ [2; 4]).
Proof.
  unfold download_with_retry. change (range 3) with [0; 1; 2].
  split; [ | split].
  - intros m1 m2 r H0 H1 H2 Hcode Hlen.
    rewrite (retry_loop_retries w url timeout 3 _ _ _ s
               ("Timeout after " +:+ PyStr.str_Z timeout +:+ "s"))
      by (rewrite H0; reflexivity).
    rewrite (retry_loop_retries w url timeout 3 _ _ _ _
               ("Timeout after " +:+ PyStr.str_Z timeout +:+ "s"))
      by (unfold after_backoff, after_request; simpl; rewrite H1; reflexivity).
    rewrite (retry_loop_returns w url timeout 3 _ _ _ _ r)
      by (unfold after_backoff, after_request; simpl; try assumption;
          unfold status_ok; rewrite Hcode; reflexivity).
    eexists. split; [reflexivity | ].
    unfold after_backoff, after_request; simpl.
    split; [lia | ]. split; [now rewrite <- app_assoc | ].
    apply Nat.ltb_ge. lia.
  - intros r H0 Hcode.
    rewrite (retry_loop_client_error w url timeout 3 _ _ _ s r H0)
      by (rewrite Hcode; lia).
    rewrite Hcode. eexists _, _. split; [reflexivity | ]. cbn. split; [lia | reflexivity].
  - intros Hall.
    destruct (Hall 0%nat ltac:(lia)) as (r0 & H0 & Hc0).
    destruct (Hall 1%nat ltac:(lia)) as (r1 & H1 & Hc1).
    destruct (Hall 2%nat ltac:(lia)) as (r2 & H2 & Hc2).
    rewrite Nat.add_0_r in H0.
    replace (requests s + 1)%nat with (S (requests s)) in H1 by lia.
    replace (requests s + 2)%nat with (S (S (requests s))) in H2 by lia.
    rewrite (retry_loop_retries w url timeout 3 _ _ _ s "HTTP 500")
      by (rewrite H0; cbn; rewrite Hc0; reflexivity).
    rewrite (retry_loop_retries w url timeout 3 _ _ _ _ "HTTP 500")
      by (unfold after_backoff, after_request; simpl; rewrite H1; simpl;
          rewrite Hc1; reflexivity).
    rewrite (retry_loop_retries w url timeout 3 _ _ _ _ "HTTP 500")
      by (unfold after_backoff, after_request; simpl; rewrite H2; simpl;
          rewrite Hc2; reflexivity).
    rewrite retry_loop_exhausted.
    eexists. split; [reflexivity | ].
    unfold after_backoff, after_request; simpl.
    split; [lia | now rewrite <- app_assoc].
Qed.

(* ================================================================== *)
(** * Proofs: one iteration of the worker's loop *)
(* ================================================================== *)

Section ItemFacts.

Variable w : World.

Ltac run :=
  cbv beta iota zeta
    delta [bind ret raise gets modify try_except try_item except_item
             report_progress loop_body time_time update_gui_safe write_file].

Lemma try_item_outcome url idx img_num s :
  let fetch := fetch_of w url s in
  let res := try_item w url idx img_num s in
  (polls (snd res) = polls s /\ failed (snd res) = failed s
   /\ failed_urls (snd res) = failed_urls s
   /\ attempted (snd res) = attempted s
   /\ requests (snd res) = requests (snd fetch)
   /\ slept (snd res) = slept (snd fetch))
  /\ match fst fetch with
     | Raise e => fst res = Raise e /\ files_untouched s (snd res)
     | Return r =>
         if (length (content r) <? 100)%nat then
           fst res = Raise too_small /\ files_untouched s (snd res)
         else
           let name :=
             "image_" +:+ PyStr.str_N img_num
             +:+ get_file_extension (default "" (header_content_type r)) url in
           total_size (snd res)
           = total_size s + Z.of_nat (length (content r))
           /\ writes (snd res) = S (writes s)
           /\ match disk w (writes s) name with
              | DiskOk =>
                  fst res = Return tt
                  /\ fs (snd res) = <[name := content r]> (fs s)
                  /\ written (snd res) = written s ++ [(idx, name, content r)]
                  /\ successful (snd res) = S (successful s)
              | DiskOpenError msg =>
                  fst res = Raise (OSError msg)
                  /\ fs (snd res) = fs s
                  /\ written (snd res) = written s
                  /\ successful (snd res) = successful s
              | DiskWriteError msg n =>
                  fst res = Raise (OSError msg)
                  /\ fs (snd res) = <[name := firstn n (content r)]> (fs s)
                  /\ written (snd res) = written s
                  /\ successful (snd res) = successful s
              end
     end.
Proof.
  intros fetch res. subst fetch res. unfold fetch_of.
  destruct (retry_loop_outcome w url REQUEST_TIMEOUT MAX_RETRIES
              (range MAX_RETRIES) None (set_ticks (S (ticks s)) s))
    as ((Heq & _) & _).
  fold (download_with_retry w url REQUEST_TIMEOUT MAX_RETRIES
          (set_ticks (S (ticks s)) s)) in Heq.
  run.
  destruct (download_with_retry w url REQUEST_TIMEOUT MAX_RETRIES
              (set_ticks (S (ticks s)) s)) as [[r | e] s1] eqn:Hfetch;
    cbn [fst snd] in Heq |- *.
  - destruct (length (content r) <? 100)%nat eqn:Hlen.
    + cbn [fst snd]. unfold files_untouched. rewrite Heq.
      destruct s; cbn. repeat split; reflexivity.
    + cbv zeta. 
      assert (writes s1 = writes s) as Hw by (rewrite Heq; now destruct s).
      cbn [writes set_gui set_total_time set_total_size set_ticks].
      rewrite Hw.
      destruct (disk w (writes s) _) as [| msg | msg n];
        cbn [fst snd]; rewrite Heq; destruct s; cbn;
        repeat split; reflexivity.
  - cbn [fst snd]. unfold files_untouched. rewrite Heq.
    destruct s; cbn. repeat split; reflexivity.
Qed.

Ltac run_body :=
  cbv beta iota zeta
    delta [bind ret raise gets modify try_except except_item
             report_progress loop_body time_time update_gui_safe].

(** One iteration, case by case on what the fetch, the size check and
    the disk did. *)
Lemma loop_body_outcome starting_num start_time total idx url s :
  let fetch := item_fetch w starting_num idx url s in
  let body := loop_body w starting_num start_time total idx url s in
  fst body = Return tt
  /\ polls (snd body) = polls s
  /\ attempted (snd body)
     = attempted s ++ [mkAttempt idx url (starting_num + N.of_nat idx)]
  /\ requests (snd body) = requests (snd fetch)
  /\ slept (snd body) = slept (snd fetch)
  /\ match fst fetch with
     | Raise e =>
         item_failed url e s (snd body)
         /\ fs (snd body) = fs s /\ writes (snd body) = writes s
         /\ written (snd body) = written s
     | Return r =>
         if (length (content r) <? 100)%nat then
           item_failed url too_small s (snd body)
           /\ fs (snd body) = fs s /\ writes (snd body) = writes s
           /\ written (snd body) = written s
         else
           let name := image_name starting_num idx r url in
           writes (snd body) = S (writes s)
           /\ match disk w (writes s) name with
              | DiskOk =>
                  successful (snd body) = S (successful s)
                  /\ failed (snd body) = failed s
                  /\ failed_urls (snd body) = failed_urls s
                  /\ fs (snd body) = <[name := content r]> (fs s)
                  /\ written (snd body) = written s ++ [(idx, name, content r)]
              | DiskOpenError msg =>
                  item_failed url (OSError msg) s (snd body)
                  /\ fs (snd body) = fs s
                  /\ written (snd body) = written s
              | DiskWriteError msg n =>
                  item_failed url (OSError msg) s (snd body)
                  /\ fs (snd body) = <[name := firstn n (content r)]> (fs s)
                  /\ written (snd body) = written s
              end
     end.
Proof.
  intros fetch body. subst fetch body. unfold item_fetch, image_name.
  pose proof (try_item_outcome url idx (starting_num + N.of_nat idx)
                (enter_item starting_num idx url s)) as Htry.
  cbv zeta in Htry.
  destruct Htry as ((Hpolls & Hfailed & Hurls & Hatt & Hreq & Hslept) & Hcase).
  run_body.
  fold (enter_item starting_num idx url s).
  destruct (fetch_of w url (enter_item starting_num idx url s))
    as [[r | e] s1]; cbn [fst snd] in *.
  - destruct (length (content r) <? 100)%nat.
    + destruct Hcase as (Hres & Hfs & Hw & Hwr & Hsucc & _).
      destruct (try_item w url idx _ _) as [o s2]; cbn [fst snd] in *.
      subst o. unfold item_failed.
      (replace (0 <? idx + 1)%nat with true by (symmetry; apply Nat.ltb_lt; lia)).
      cbn.
      rewrite ?Hpolls, ?Hfailed, ?Hurls, ?Hatt, ?Hreq, ?Hslept, ?Hfs, ?Hw,
        ?Hwr, ?Hsucc.
      cbn. repeat split; reflexivity.
    + cbv zeta in Hcase. destruct Hcase as (_ & Hw & Hcase).
      cbn [writes enter_item set_attempted] in Hcase, Hw.
      destruct (disk w (writes s) _) as [| msg | msg n];
        destruct Hcase as (Hres & Hfs & Hwr & Hsucc);
        destruct (try_item w url idx _ _) as [o s2]; cbn [fst snd] in *;
        subst o; unfold item_failed;
        (replace (0 <? idx + 1)%nat with true by (symmetry; apply Nat.ltb_lt; lia));
        cbn;
        rewrite ?Hpolls, ?Hfailed, ?Hurls, ?Hatt, ?Hreq, ?Hslept, ?Hfs, ?Hw,
          ?Hwr, ?Hsucc;
        cbn; repeat split; reflexivity.
  - destruct Hcase as (Hres & Hfs & Hw & Hwr & Hsucc & _).
    destruct (try_item w url idx _ _) as [o s2]; cbn [fst snd] in *.
    subst o. unfold item_failed.
    (replace (0 <? idx + 1)%nat with true by (symmetry; apply Nat.ltb_lt; lia)).
    cbn.
    rewrite ?Hpolls, ?Hfailed, ?Hurls, ?Hatt, ?Hreq, ?Hslept, ?Hfs, ?Hw,
      ?Hwr, ?Hsucc.
    cbn. repeat split; reflexivity.
Qed.

End ItemFacts.

(* ================================================================== *)
(** * Proofs: the loop of the worker *)
(* ================================================================== *)

Section LoopFacts.

Variable w : World.
Variables (starting_num : N) (start_time : Q) (total : nat).

#[local] Abbreviation body := (loop_body w starting_num start_time total).
#[local] Abbreviation loop := (download_loop w starting_num start_time total).
#[local] Abbreviation run := (run_items w starting_num start_time total).

(** The counters after one iteration. *)
Lemma loop_body_counts idx url s :
  let s' := snd (body idx url s) in
  fst (body idx url s) = Return tt
  /\ polls s' = polls s
  /\ attempted s'
     = attempted s ++ [mkAttempt idx url (starting_num + N.of_nat idx)]
  /\ (successful s' + failed s' = successful s + failed s + 1)%nat
  /\ ((successful s' = S (successful s) /\ failed s' = failed s
       /\ failed_urls s' = failed_urls s)
      \/ exists e, item_failed url e s s').
Proof.
  intros s'. subst s'.
  destruct (loop_body_outcome w starting_num start_time total idx url s)
    as (Hret & Hpolls & Hatt & _ & _ & Hcase).
  repeat (split; [assumption | ]).
  destruct (fst (item_fetch w starting_num idx url s)) as [r | e].
  - destruct (length (content r) <? 100)%nat.
    + destruct Hcase as ((Hf & Hu & Hs) & _).
      split; [lia | right; exists too_small; repeat split; assumption].
    + cbv zeta in Hcase. destruct Hcase as (_ & Hcase).
      destruct (disk w (writes s) _) as [| msg | msg n].
      * destruct Hcase as (Hs & Hf & Hu & _). split; [lia | left; auto].
      * destruct Hcase as ((Hf & Hu & Hs) & _).
        split; [lia | right; exists (OSError msg); repeat split; assumption].
      * destruct Hcase as ((Hf & Hu & Hs) & _).
        split; [lia | right; exists (OSError msg); repeat split; assumption].
  - destruct Hcase as ((Hf & Hu & Hs) & _).
    split; [lia | right; exists e; repeat split; assumption].
Qed.

Lemma image_name_names_item idx r url :
  names_item starting_num idx (image_name starting_num idx r url).
Proof.
  exists (get_file_extension (default "" (header_content_type r)) url).
  split; [apply get_file_extension_known | reflexivity].
Qed.

(** The files after one iteration: nothing written, or the one file of
    this position written (in full and logged, or in part when the
    write failed). *)
Lemma loop_body_files idx url s :
  let s' := snd (body idx url s) in
  (written s' = written s
   /\ (fs s' = fs s
       \/ exists name data,
            names_item starting_num idx name /\ fs s' = <[name := data]> (fs s)))
  \/ (exists name data,
        names_item starting_num idx name
        /\ written s' = written s ++ [(idx, name, data)]
        /\ fs s' = <[name := data]> (fs s)).
Proof.
  intros s'. subst s'.
  destruct (loop_body_outcome w starting_num start_time total idx url s)
    as (_ & _ & _ & _ & _ & Hcase).
  destruct (fst (item_fetch w starting_num idx url s)) as [r | e].
  - destruct (length (content r) <? 100)%nat.
    + destruct Hcase as (_ & Hfs & _ & Hwr). left. auto.
    + cbv zeta in Hcase. destruct Hcase as (_ & Hcase).
      pose proof (image_name_names_item idx r url) as Hname.
      destruct (disk w (writes s) _) as [| msg | msg n].
      * destruct Hcase as (_ & _ & _ & Hfs & Hwr). right. eauto.
      * destruct Hcase as (_ & Hfs & Hwr). left. auto.
      * destruct Hcase as (_ & Hfs & Hwr). left. split; [assumption | ].
        right. eauto.
  - destruct Hcase as (_ & Hfs & _ & Hwr). left. auto.
Qed.

(** ** The loop in terms of [run_items] *)

Ltac run_loop :=
  cbv beta iota zeta
    delta [bind ret raise gets modify read_download_cancelled update_gui_safe].

Lemma download_loop_step idx original_idx url rest s :
  download_cancelled w (polls s) = false ->
  loop idx ((original_idx, url) :: rest) s
  = loop (S idx) rest (snd (body idx url (set_polls (S (polls s)) s))).
Proof.
  intros Hflag. cbn [download_loop]. run_loop. rewrite Hflag.
  pose proof (loop_body_counts idx url (set_polls (S (polls s)) s))
    as (Hret & _).
  destruct (body idx url (set_polls (S (polls s)) s)) as [o s1].
  cbn [fst snd] in *. now subst o.
Qed.

Lemma download_loop_break idx original_idx url rest s :
  download_cancelled w (polls s) = true ->
  loop idx ((original_idx, url) :: rest) s = (Return tt, break_state s).
Proof.
  intros Hflag. cbn [download_loop]. run_loop. rewrite Hflag. reflexivity.
Qed.

Lemma polls_run_items items idx s :
  polls (run idx items s) = (polls s + length items)%nat.
Proof.
  revert idx s. induction items as [| [o url] rest IH]; intros idx s;
    cbn [run_items length]; [lia | ].
  rewrite IH.
  destruct (loop_body_counts idx url (set_polls (S (polls s)) s))
    as (_ & -> & _).
  cbn. lia.
Qed.

(** The loop processes the first [k] items and stops there: at the
    end of the list, or at a read that finds the flag set. *)
Lemma download_loop_run k idx items s :
  (k <= length items)%nat ->
  (forall j, (j < k)%nat -> download_cancelled w (polls s + j) = false) ->
  ((k < length items)%nat -> download_cancelled w (polls s + k) = true) ->
  loop idx items s
  = (Return tt,
     if (k <? length items)%nat
     then break_state (run idx (firstn k items) s)
     else run idx (firstn k items) s).
Proof.
  revert k idx s.
  induction items as [| [o url] rest IH]; intros k idx s Hk Hclear Hset.
  - cbn in Hk. assert (k = 0)%nat as -> by lia. reflexivity.
  - destruct k as [| k].
    + rewrite download_loop_break.
      * reflexivity.
      * rewrite <- (Nat.add_0_r (polls s)). apply Hset. cbn. lia.
    + rewrite download_loop_step
        by (rewrite <- (Nat.add_0_r (polls s)); apply Hclear; lia).
      cbn [length] in Hk.
      pose proof (loop_body_counts idx url (set_polls (S (polls s)) s))
        as (_ & Hpolls & _).
      cbv zeta in Hpolls. cbn [polls set_polls] in Hpolls.
      rewrite (IH k).
      * reflexivity.
      * lia.
      * intros j Hj. rewrite Hpolls.
        replace (S (polls s) + j)%nat with (polls s + S j)%nat by lia.
        apply Hclear. lia.
      * intros Hlt. rewrite Hpolls.
        replace (S (polls s) + k)%nat with (polls s + S k)%nat by lia.
        apply Hset. cbn [length]. lia.
Qed.

(** ** What the processed items leave behind *)

Lemma run_items_counts items idx s :
  let s' := run idx items s in
  attempted s' = attempted s ++ attempts_of starting_num idx items
  /\ (successful s' + failed s'
      = successful s + failed s + length items)%nat
  /\ (failed s <= failed s')%nat
  /\ exists extra,
       failed_urls s' = failed_urls s ++ extra
       /\ length extra = (failed s' - failed s)%nat
       /\ forall url msg, In (url, msg) extra -> In url (map snd items).
Proof.
  revert idx s. induction items as [| [o url] rest IH]; intros idx s;
    cbn [run_items attempts_of length map].
  - rewrite app_nil_r. repeat split; try lia.
    exists []. rewrite app_nil_r. repeat split; [cbn; lia | intros ? ? []].
  - destruct (loop_body_counts idx url (set_polls (S (polls s)) s))
      as (_ & _ & Hatt & Hsum & Hcase).
    cbv zeta in Hatt, Hsum, Hcase.
    set (s1 := snd (body idx url (set_polls (S (polls s)) s))) in *.
    cbn [attempted successful failed failed_urls set_polls] in Hatt, Hsum.
    destruct (IH (S idx) s1) as (IHatt & IHsum & IHle & extra & IHurls & IHlen & IHin).
    split; [rewrite IHatt, Hatt, <- app_assoc; reflexivity | ].
    destruct Hcase as [(Hs & Hf & Hu) | (e & Hf & Hu & Hs)];
      cbn [failed failed_urls successful set_polls] in Hf, Hu, Hs.
    + split; [lia | ]. split; [lia | ].
      exists extra. rewrite IHurls, Hu. split; [reflexivity | ].
      split; [lia | ]. intros u m Hin. right. eauto.
    + split; [lia | ]. split; [lia | ].
      exists ((url, str_exn e) :: extra). rewrite IHurls, Hu, <- app_assoc.
      split; [reflexivity | ]. split; [cbn [length]; lia | ].
      intros u m [[= <- <-] | Hin]; [now left | right; eauto].
Qed.

(** The numbers of two positions never give the same file name. *)
Lemma names_item_inj i j name :
  names_item starting_num i name -> names_item starting_num j name -> i = j.
Proof.
  intros (e1 & He1 & ->) (e2 & He2 & Heq).
  apply (inj (String.app "image_")) in Heq.
  assert (forall e, In e known_extensions -> Numbering.no_leading_digit e)
    as Hdot.
  { intros e He. unfold known_extensions in He. cbn in He.
    repeat (destruct He as [<- | He]; [reflexivity | ]). destruct He. }
  assert (Numbering.span_digits
            (PyStr.str_N (starting_num + N.of_nat i) +:+ e1)
          = (PyStr.str_N (starting_num + N.of_nat i), e1)) as H1
    by (apply span_digits_spec; auto using str_N_digits).
  assert (Numbering.span_digits
            (PyStr.str_N (starting_num + N.of_nat i) +:+ e1)
          = (PyStr.str_N (starting_num + N.of_nat j), e2)) as H2
    by (apply span_digits_spec; auto using str_N_digits).
  rewrite H1 in H2. injection H2 as H2 _. apply str_N_inj in H2. lia.
Qed.

Lemma run_items_files items idx s :
  let s' := run idx items s in
  exists extra,
    written s' = written s ++ extra
    /\ sublist (map (fun x => fst (fst x)) extra) (seq idx (length items))
    /\ (forall i name data,
          In (i, name, data) extra ->
          names_item starting_num i name /\ fs s' !! name = Some data)
    /\ (forall name,
          (forall i, (idx <= i < idx + length items)%nat ->
                     ~ names_item starting_num i name) ->
          fs s' !! name = fs s !! name).
Proof.
  revert idx s. induction items as [| [o url] rest IH]; intros idx s;
    cbn [run_items length seq].
  - exists []. rewrite app_nil_r. split; [reflexivity | ].
    split; [constructor | ]. split; [intros ? ? ? [] | reflexivity].
  - pose proof (loop_body_files idx url (set_polls (S (polls s)) s)) as Hbody.
    cbv zeta in Hbody.
    set (s1 := snd (body idx url (set_polls (S (polls s)) s))) in *.
    cbn [written fs set_polls] in Hbody.
    destruct (IH (S idx) s1) as (extra & IHwr & IHsub & IHin & IHframe).
    assert (forall name,
              (forall i, (idx <= i < idx + S (length rest))%nat ->
                         ~ names_item starting_num i name) ->
              fs (run (S idx) rest s1) !! name = fs s1 !! name) as Hlater.
    { intros name Hname. apply IHframe. intros i Hi. apply Hname. lia. }
    assert (forall name0 data0,
              names_item starting_num idx name0 ->
              fs s1 = <[name0 := data0]> (fs s) ->
              forall name,
                (forall i, (idx <= i < idx + S (length rest))%nat ->
                           ~ names_item starting_num i name) ->
                fs s1 !! name = fs s !! name) as Hnow.
    { intros name0 data0 Hname0 Hfs name Hname. rewrite Hfs.
      apply lookup_insert_ne. intros <-. apply (Hname idx); [lia | assumption]. }
    destruct Hbody as [(Hwr & Hfs) | (name0 & data0 & Hname0 & Hwr & Hfs)].
    + exists extra. rewrite IHwr, Hwr. split; [reflexivity | ].
      split; [now apply sublist_cons | ]. split; [exact IHin | ].
      intros name Hname. rewrite (Hlater name Hname).
      destruct Hfs as [-> | (name0 & data0 & Hname0 & Hfs)];
        [reflexivity | eauto].
    + exists ((idx, name0, data0) :: extra).
      rewrite IHwr, Hwr, <- app_assoc. split; [reflexivity | ].
      split; [cbn [map fst]; now apply sublist_skip | ].
      split.
      * intros i name data [[= <- <- <-] | Hin]; [ | now apply IHin].
        split; [assumption | ].
        rewrite IHframe.
        -- rewrite Hfs. apply lookup_insert_eq.
        -- intros j Hj Hnamej.
           pose proof (names_item_inj _ _ _ Hname0 Hnamej). lia.
      * intros name Hname. rewrite (Hlater name Hname). eauto.
Qed.

Lemma attempts_of_lookup items idx i :
  attempts_of starting_num idx items !! i
  = (fun item : nat * string =>
       mkAttempt (idx + i) (snd item) (starting_num + N.of_nat (idx + i)))
    <$> items !! i.
Proof.
  revert idx i. induction items as [| [o url] rest IH]; intros idx i;
    cbn [attempts_of]; [now destruct i | ].
  destruct i as [| i]; cbn.
  - now rewrite Nat.add_0_r.
  - rewrite IH. now replace (S idx + i)%nat with (idx + S i)%nat by lia.
Qed.

Lemma length_attempts_of items idx :
  length (attempts_of starting_num idx items) = length items.
Proof.
  revert idx. induction items as [| [o url] rest IH]; intros idx;
    cbn [attempts_of length]; [reflexivity | now rewrite IH].
Qed.

End LoopFacts.

(* ================================================================== *)
(** * Proofs: a whole run of [download] *)
(* ================================================================== *)

Section RunFacts.

Variable w : World.

Lemma download_cancelled_mono p p' :
  (p <= p')%nat ->
  download_cancelled w p = true -> download_cancelled w p' = true.
Proof.
  unfold download_cancelled. destruct (cancel_at w) as [c |]; [ | discriminate].
  intros Hle Hp. apply Nat.leb_le in Hp. apply Nat.leb_le. lia.
Qed.

Lemma stop_index_spec poll n :
  let k := stop_index w poll n in
  (k <= n)%nat
  /\ (forall j, (j < k)%nat -> download_cancelled w (poll + j) = false)
  /\ ((k < n)%nat -> download_cancelled w (poll + k) = true).
Proof.
  unfold stop_index, download_cancelled.
  destruct (cancel_at w) as [c |]; cbv zeta.
  - split; [lia | ]. split.
    + intros j Hj. apply Nat.leb_gt. lia.
    + intros Hlt. apply Nat.leb_le. lia.
  - split; [lia | ]. split; [reflexivity | lia].
Qed.

Ltac run_download :=
  cbv beta iota zeta
    delta [download bind ret raise gets modify read_download_cancelled
             update_gui_safe show_message_safe reset_ui time_time].

(** A run, in terms of the [k] items it processes. *)
Lemma download_run valid_urls starting_num s k :
  (k <= length valid_urls)%nat ->
  (forall j, (j < k)%nat -> download_cancelled w (polls s + j) = false) ->
  ((k < length valid_urls)%nat ->
   download_cancelled w (polls s + k) = true) ->
  let n := length valid_urls in
  let s_k :=
    run_items w starting_num (clock w (ticks s)) n 0
      (firstn k valid_urls) (start_state s) in
  let cancelled := (k <? n)%nat || download_cancelled w (polls s + k) in
  let res := download w valid_urls starting_num s in
  fst res = Return (make_summary n cancelled s_k)
  /\ observable (snd res) = observable s_k.
Proof.
  intros Hk Hclear Hset n s_k cancelled res. subst res.
  run_download.
  change (ticks (set_total_size _ _)) with (ticks s).
  change (set_ticks (S (ticks s)) _) with (start_state s).
  rewrite (download_loop_run w starting_num (clock w (ticks s))
             (length valid_urls) k 0 valid_urls (start_state s) Hk)
    by (cbn [polls start_state set_ticks set_total_size set_total_time
               set_successful set_failed set_failed_urls]; assumption).
  fold n. fold s_k.
  assert (polls s_k = (polls s + k)%nat) as Hpolls.
  { subst s_k. rewrite polls_run_items, length_firstn. cbn. lia. }
  subst cancelled.
  destruct (Nat.ltb_spec k n) as [Hlt | Hge]; cbn [orb].
  - assert (download_cancelled w (polls (break_state s_k)) = true) as ->.
    { apply download_cancelled_mono with (polls s + k)%nat; [ | auto].
      cbn. lia. }
    cbn [fst snd]. split; [reflexivity | ].
    now destruct s_k.
  - rewrite Hpolls. cbn [fst snd]. split; [reflexivity | ].
    now destruct s_k.
Qed.

End RunFacts.

(* ================================================================== *)
(** * The properties of the batch *)
(* ================================================================== *)

(** C2.  If the cancellation flag is set after [k] of the [n] items
    (between the worker's reads number [k - 1] and [k] of the flag, for
    any [k <= n]), the run processes the first [k] items in full, each
    with all the retries of its fetch, exactly as the loop does with the
    flag clear, and attempts no other item: the attempted items are the
    first [k]; the summary is the one of a cancelled run and its two
    counts add up to [k]; the [n - k] remaining items are reported as
    remaining and none of them is among the failures. *)
Theorem cancel_stops_after_current_item
    (w : World) (valid_urls : list (nat * string)) (starting_num : N)
    (s : State) (k : nat) :
  (k <= length valid_urls)%nat ->
  cancel_at w = Some (polls s + k)%nat ->
  let res := download w valid_urls starting_num s in
  let s' := snd res in
  fst res = Return (DownloadCancelled (successful s') (failed s')
                      (Z.of_nat (length valid_urls) - Z.of_nat k))
  /\ (successful s' + failed s' = k)%nat
  /\ attempted s'
     = attempted s ++ attempts_of starting_num 0 (firstn k valid_urls)
  /\ length (attempts_of starting_num 0 (firstn k valid_urls)) = k
  /\ observable s'
     = observable (run_items w starting_num (clock w (ticks s))
                     (length valid_urls) 0 (firstn k valid_urls)
                     (start_state s))
  /\ (forall url msg,
        In (url, msg) (failed_urls s') ->
        In url (map snd (firstn k valid_urls))).
Proof.
  intros Hk Hcancel res s'. subst s' res.
  assert (forall p, download_cancelled w p = (polls s + k <=? p)%nat) as Hflag
    by (intros p; unfold download_cancelled; now rewrite Hcancel).
  destruct (download_run w valid_urls starting_num s k Hk) as (Hres & Hobs).
  { intros j Hj. rewrite Hflag. apply Nat.leb_gt. lia. }
  { intros _. rewrite Hflag. apply Nat.leb_le. lia. }
  set (s_k := run_items w starting_num (clock w (ticks s))
                (length valid_urls) 0 (firstn k valid_urls) (start_state s))
    in *.
  assert ((k <? length valid_urls)%nat || download_cancelled w (polls s + k)
          = true) as Hc
    by (rewrite Hflag, Nat.leb_refl; apply orb_true_r).
  rewrite Hc in Hres.
  destruct (run_items_counts w starting_num (clock w (ticks s))
              (length valid_urls) (firstn k valid_urls) 0 (start_state s))
    as (Hatt & Hsum & _ & extra & Hurls & _ & Hin).
  fold s_k in Hatt, Hsum, Hurls. cbv zeta in Hatt, Hsum, Hurls.
  rewrite length_firstn in Hsum.
  cbn [successful failed failed_urls attempted start_state set_ticks
         set_total_size set_total_time set_successful set_failed
         set_failed_urls] in Hatt, Hsum, Hurls.
  unfold observable in Hobs.
  injection Hobs as Hreq Hsl Hwr Hfs Hs Hf Hu Ha Hw.
  rewrite Hres, Hs, Hf, Hu, Ha. unfold make_summary.
  split; [f_equal; f_equal; lia | ].
  split; [lia | ]. split; [assumption | ].
  split; [rewrite length_attempts_of, length_firstn; lia | ].
  split; [unfold observable; congruence | ].
  intros url msg Hmem. rewrite Hurls in Hmem. eauto.
Qed.

(** C6.  In every run the [i]-th item of [valid_urls] (from 0) gets the
    number [starting_num + i], whether its fetch succeeds or fails, so
    the numbers grow by one with each attempted item and none is used
    twice; a successful item's payload is written to the file named
    after its own number, the files written in a run belong to
    increasing positions, each is still there with its payload when the
    run ends, and no two items write the same file name. *)
Theorem output_index_never_reused
    (w : World) (valid_urls : list (nat * string)) (starting_num : N)
    (s : State) :
  let s' := snd (download w valid_urls starting_num s) in
  let k := stop_index w (polls s) (length valid_urls) in
  attempted s'
  = attempted s ++ attempts_of starting_num 0 (firstn k valid_urls)
  /\ (forall i,
        attempts_of starting_num 0 (firstn k valid_urls) !! i
        = (fun item : nat * string =>
             mkAttempt i (snd item) (starting_num + N.of_nat i))
          <$> firstn k valid_urls !! i)
  /\ (forall start_time total idx url s0 r,
        fst (item_fetch w starting_num idx url s0) = Return r ->
        (100 <= length (content r))%nat ->
        disk w (writes s0) (image_name starting_num idx r url) = DiskOk ->
        fs (snd (loop_body w starting_num start_time total idx url s0))
        = <[image_name starting_num idx r url := content r]> (fs s0))
  /\ exists extra,
       written s' = written s ++ extra
       /\ sublist (map (fun x => fst (fst x)) extra) (seq 0 k)
       /\ (forall i name data,
             In (i, name, data) extra ->
             names_item starting_num i name /\ fs s' !! name = Some data)
       /\ (forall i j name data data',
             In (i, name, data) extra -> In (j, name, data') extra -> i = j).
Proof.
  intros s' k. subst s'.
  destruct (stop_index_spec w (polls s) (length valid_urls))
    as (Hk & Hclear & Hset). fold k in Hk, Hclear, Hset.
  destruct (download_run w valid_urls starting_num s k Hk Hclear Hset)
    as (_ & Hobs).
  set (s_k := run_items w starting_num (clock w (ticks s))
                (length valid_urls) 0 (firstn k valid_urls) (start_state s))
    in *.
  unfold observable in Hobs.
  injection Hobs as _ _ _ Hfs _ _ _ Ha Hw.
  destruct (run_items_counts w starting_num (clock w (ticks s))
              (length valid_urls) (firstn k valid_urls) 0 (start_state s))
    as (Hatt & _).
  destruct (run_items_files w starting_num (clock w (ticks s))
              (length valid_urls) (firstn k valid_urls) 0 (start_state s))
    as (extra & Hwr & Hsub & Hin & _).
  fold s_k in Hatt, Hwr, Hin. cbv zeta in Hatt.
  rewrite length_firstn, Nat.min_l in Hsub by assumption.
  split; [rewrite Ha; exact Hatt | ].
  split; [intros i; apply attempts_of_lookup | ].
  split.
  - intros start_time total idx url s0 r Hfetch Hlen Hdisk.
    destruct (loop_body_outcome w starting_num start_time total idx url s0)
      as (_ & _ & _ & _ & _ & Hcase).
    rewrite Hfetch in Hcase.
    assert ((length (content r) <? 100)%nat = false) as Hsize
      by (apply Nat.ltb_ge; lia).
    rewrite Hsize in Hcase. cbv zeta in Hcase. rewrite Hdisk in Hcase.
    tauto.
  - exists extra. rewrite Hw, Hfs.
    split; [exact Hwr | ]. split; [exact Hsub | ]. split; [exact Hin | ].
    intros i j name data data' Hi Hj.
    apply Hin in Hi as [Hi _]. apply Hin in Hj as [Hj _].
    exact (names_item_inj starting_num i j name Hi Hj).
Qed.

Section FailureFacts.

Variable w : World.

(** The iteration in terms of the outcome of its [try] statement. *)
Lemma loop_body_try starting_num start_time total idx url s :
  let try := try_item w url idx (starting_num + N.of_nat idx)
               (enter_item starting_num idx url s) in
  let s' := snd (loop_body w starting_num start_time total idx url s) in
  match fst try with
  | Raise e => item_failed url e s s'
  | Return _ =>
      successful s' = S (successful s) /\ failed s' = failed s
      /\ failed_urls s' = failed_urls s
  end.
Proof.
  intros try s'. subst try s'.
  destruct (loop_body_outcome w starting_num start_time total idx url s)
    as (_ & _ & _ & _ & _ & Hbody).
  destruct (try_item_outcome w url idx (starting_num + N.of_nat idx)
              (enter_item starting_num idx url s)) as (_ & Htry).
  cbv zeta in Htry. unfold item_fetch, image_name in Hbody.
  destruct (fst (fetch_of w url (enter_item starting_num idx url s)))
    as [r | e].
  - destruct (length (content r) <? 100)%nat.
    + destruct Htry as (-> & _). tauto.
    + cbv zeta in Hbody. destruct Htry as (_ & _ & Htry).
      destruct Hbody as (_ & Hbody).
      cbn [writes enter_item set_attempted] in Htry.
      destruct (disk w (writes s) _);
        destruct Htry as (-> & _); tauto.
  - destruct Htry as (-> & _). tauto.
Qed.

(** The exceptions [download_with_retry] lets out: the client error,
    and the exhaustion of the attempts with the cause of the last
    failure. *)
Lemma item_fetch_raises starting_num idx url s e :
  fst (item_fetch w starting_num idx url s) = Raise e ->
  (exists msg status, e = HTTPError msg status /\ 400 <= status < 500)
  \/ (exists cause, e = RequestException
                          ("Failed after 3 attempts: " +:+ cause)).
Proof.
  unfold item_fetch, fetch_of, download_with_retry.
  pose proof (retry_loop_outcome w url REQUEST_TIMEOUT MAX_RETRIES
                (range MAX_RETRIES) None
                (set_ticks (S (ticks (enter_item starting_num idx url s)))
                   (enter_item starting_num idx url s)))
    as (_ & _ & Hout).
  cbv zeta in Hout. intros He. rewrite He in Hout.
  destruct e as [m | m st | m | m | m]; try contradiction.
  - left. eauto.
  - right. destruct Hout as (_ & ->). eexists. reflexivity.
Qed.

End FailureFacts.

(** C8, as the code has it.  Every error of an item (any exception of
    its [try]: client error, exhausted retries after timeouts, transport
    errors or server errors, too-small payload, failed write) is caught:
    it adds exactly 1 to [failed], appends the URL and the message to
    [failed_urls], and the loop goes on with the next item; no run of
    [download] ends in an exception; the summary shows the two counts,
    and, when the run was not cancelled and [failed > 0], the first
    failure (its URL cut at 50 characters and its message). *)
Theorem item_errors_are_recovered (w : World) :
  (forall starting_num start_time total idx url s e,
     fst (try_item w url idx (starting_num + N.of_nat idx)
            (enter_item starting_num idx url s)) = Raise e ->
     let res := loop_body w starting_num start_time total idx url s in
     fst res = Return tt
     /\ failed (snd res) = S (failed s)
     /\ failed_urls (snd res) = failed_urls s ++ [(url, str_exn e)]
     /\ successful (snd res) = successful s)
  /\ (forall starting_num start_time total idx original_idx url rest s,
        download_cancelled w (polls s) = false ->
        download_loop w starting_num start_time total idx
          ((original_idx, url) :: rest) s
        = download_loop w starting_num start_time total (S idx) rest
            (snd (loop_body w starting_num start_time total idx url
                    (set_polls (S (polls s)) s))))
  /\ (forall valid_urls starting_num s,
        let res := download w valid_urls starting_num s in
        exists summary,
          fst res = Return summary
          /\ counts_shown summary = (successful (snd res), failed (snd res))
          /\ (cancelled_early summary = false ->
              (0 < failed (snd res))%nat ->
              exists url msg rest,
                failed_urls (snd res) = (url, msg) :: rest
                /\ failure_shown summary = Some (PyStr.take 50 url, msg))).
Proof.
  split; [ | split].
  - intros starting_num start_time total idx url s e Htry res. subst res.
    pose proof (loop_body_try w starting_num start_time total idx url s) as H.
    cbv zeta in H. rewrite Htry in H.
    destruct (loop_body_counts w starting_num start_time total idx url s)
      as (Hret & _).
    unfold item_failed in H. tauto.
  - intros. now apply download_loop_step.
  - intros valid_urls starting_num s res. subst res.
    destruct (stop_index_spec w (polls s) (length valid_urls))
      as (Hk & Hclear & Hset).
    set (k := stop_index w (polls s) (length valid_urls)) in *.
    destruct (download_run w valid_urls starting_num s k Hk Hclear Hset)
      as (Hres & Hobs).
    set (s_k := run_items w starting_num (clock w (ticks s))
                  (length valid_urls) 0 (firstn k valid_urls) (start_state s))
      in *.
    unfold observable in Hobs. injection Hobs as _ _ _ _ Hs Hf Hu _ _.
    eexists. split; [exact Hres | ].
    rewrite Hs, Hf, Hu. unfold make_summary.
    destruct ((k <? length valid_urls)%nat || _); cbn [counts_shown
      cancelled_early failure_shown]; split; try reflexivity;
      try discriminate.
    intros _ Hpos.
    destruct (run_items_counts w starting_num (clock w (ticks s))
                (length valid_urls) (firstn k valid_urls) 0 (start_state s))
      as (_ & _ & _ & extra & Hurls & Hlen & _).
    fold s_k in Hurls, Hlen. cbn in Hurls, Hlen.
    rewrite Hurls. destruct extra as [| [url msg] rest]; [cbn in Hlen; lia | ].
    exists url, msg, rest. split; [reflexivity | ].
    apply Nat.ltb_lt in Hpos. now rewrite Hpos.
Qed.

(** C10.  An item whose fetch fails (with the client error, or with the
    attempts exhausted by timeouts, transport errors or server errors)
    or whose payload is shorter than 100 bytes is recorded as failed and
    leaves the directory exactly as it was: no file is created or
    changed, and nothing is written.  A file is created in an iteration
    only after the fetch has returned and the size check has passed. *)
Theorem failed_item_leaves_files_untouched
    (w : World) (starting_num : N) (start_time : Q) (total idx : nat)
    (url : string) (s : State) :
  let fetch := item_fetch w starting_num idx url s in
  let s' := snd (loop_body w starting_num start_time total idx url s) in
  (forall e,
     fst fetch = Raise e ->
     ((exists msg status, e = HTTPError msg status /\ 400 <= status < 500)
      \/ (exists cause, e = RequestException
                              ("Failed after 3 attempts: " +:+ cause)))
     /\ item_failed url e s s'
     /\ fs s' = fs s /\ writes s' = writes s /\ written s' = written s)
  /\ (forall r,
        fst fetch = Return r ->
        (length (content r) < 100)%nat ->
        item_failed url too_small s s'
        /\ fs s' = fs s /\ writes s' = writes s /\ written s' = written s)
  /\ (writes s' <> writes s \/ fs s' <> fs s ->
      exists r, fst fetch = Return r /\ (100 <= length (content r))%nat).
Proof.
  intros fetch s'. subst fetch s'.
  destruct (loop_body_outcome w starting_num start_time total idx url s)
    as (_ & _ & _ & _ & _ & Hcase).
  split; [ | split].
  - intros e He. rewrite He in Hcase.
    split; [eapply item_fetch_raises; eassumption | tauto].
  - intros r Hr Hlen. rewrite Hr in Hcase.
    apply Nat.ltb_lt in Hlen. rewrite Hlen in Hcase. tauto.
  - intros Hchanged.
    destruct (fst (item_fetch w starting_num idx url s)) as [r | e].
    + destruct (Nat.ltb_spec (length (content r)) 100) as [Hlt | Hge].
      * exfalso. destruct Hchanged; tauto.
      * eauto.
    + exfalso. destruct Hchanged; tauto.
Qed.

Section TooSmallFacts.

Variable w : World.
Variables (url : string) (timeout max_retries : Z).

(** [j] failures that the loop retries and then a response that
    [raise_for_status] accepts: the loop returns that response after
    [j + 1] requests and [j] sleeps. *)
Lemma retry_loop_after_retries (j : nat) (r : Response) :
  forall a len last s,
    (j < len)%nat ->
    Z.of_nat (a + len) = max_retries ->
    (forall i, (i < j)%nat ->
               retry_message timeout
                 (net w (requests s + i) url timeout) <> None) ->
    net w (requests s + j)%nat url timeout = NetResponse r ->
    status_ok r = true ->
    let res := retry_loop w url timeout max_retries
                 (map Z.of_nat (seq a len)) last s in
    fst res = Return r
    /\ requests (snd res) = (requests s + j + 1)%nat
    /\ slept (snd res) = slept s ++ backoffs a j.
Proof.
  induction j as [| j IH]; intros a len last s Hlen Hmax Hretry Hnet Hok res;
    subst res; destruct len as [| len]; try lia; cbn [seq map].
  - rewrite Nat.add_0_r in Hnet.
    rewrite (retry_loop_returns w url timeout max_retries _ _ _ _ r Hnet Hok).
    cbn. rewrite app_nil_r. repeat split; lia.
  - destruct (retry_message timeout (net w (requests s) url timeout))
      as [msg |] eqn:Hmsg.
    2:{ exfalso. apply (Hretry 0%nat); [lia | ].
        now rewrite Nat.add_0_r. }
    rewrite (retry_loop_retries w url timeout max_retries _ _ _ _ msg Hmsg).
    assert (after_backoff max_retries (Z.of_nat a) (after_request s)
            = set_slept (slept s ++ [RETRY_DELAY * (Z.of_nat a + 1)])
                (after_request s)) as ->.
    { unfold after_backoff.
      assert ((Z.of_nat a <? max_retries - 1) = true) as -> by lia.
      reflexivity. }
    set (s1 := set_slept _ (after_request s)).
    destruct (IH (S a) len (Some msg) s1) as (Hres & Hreq & Hsl).
    + lia.
    + lia.
    + intros i Hi. cbn [s1 requests set_slept after_request set_requests].
      replace (S (requests s) + i)%nat with (requests s + S i)%nat by lia.
      apply Hretry. lia.
    + cbn [s1 requests set_slept after_request set_requests].
      now replace (S (requests s) + j)%nat with (requests s + S j)%nat by lia.
    + assumption.
    + split; [assumption | ]. split.
      * rewrite Hreq. subst s1. cbn. lia.
      * rewrite Hsl. subst s1. cbn. unfold backoffs. cbn [seq map].
        now rewrite <- app_assoc.
Qed.

End TooSmallFacts.

(** C7, as the code has it.  When an attempt of an item's fetch is
    answered with a status 2xx and fewer than 100 bytes, after [j]
    earlier attempts that failed in a retryable way, the item fails with
    the too-small error and that attempt is its last: the item has made
    [j + 1] requests, slept only after the [j] earlier failures, and its
    file is not written.  When the short payload answers the first
    attempt ([j = 0]) the item makes exactly one request and never
    sleeps. *)
Theorem too_small_payload_ends_the_item
    (w : World) (starting_num : N) (start_time : Q) (total idx : nat)
    (url : string) (s : State) (j : nat) (r : Response) :
  (j < 3)%nat ->
  (forall i, (i < j)%nat ->
             retry_message REQUEST_TIMEOUT
               (net w (requests s + i) url REQUEST_TIMEOUT) <> None) ->
  net w (requests s + j)%nat url REQUEST_TIMEOUT = NetResponse r ->
  200 <= status_code r < 300 ->
  (length (content r) < 100)%nat ->
  let s' := snd (loop_body w starting_num start_time total idx url s) in
  item_failed url too_small s s'
  /\ requests s' = (requests s + j + 1)%nat
  /\ slept s' = slept s ++ backoffs 0 j
  /\ fs s' = fs s /\ written s' = written s
  /\ (j = 0%nat -> requests s' = (requests s + 1)%nat /\ slept s' = slept s).
Proof.
  intros Hj Hretry Hnet Hstatus Hlen s'. subst s'.
  destruct (loop_body_outcome w starting_num start_time total idx url s)
    as (_ & _ & _ & Hreq & Hsl & Hcase).
  assert (status_ok r = true) as Hok by (unfold status_ok; lia).
  destruct (retry_loop_after_retries w url REQUEST_TIMEOUT MAX_RETRIES j r
              0 3 None
              (set_ticks (S (ticks (enter_item starting_num idx url s)))
                 (enter_item starting_num idx url s)))
    as (Hres & Hreq' & Hsl'); try assumption; try reflexivity.
  change (retry_loop w url REQUEST_TIMEOUT MAX_RETRIES
            (map Z.of_nat (seq 0 3)) None _)
    with (item_fetch w starting_num idx url s) in Hres, Hreq', Hsl'.
  cbn [requests slept set_ticks enter_item set_attempted] in Hreq', Hsl'.
  rewrite Hres in Hcase. apply Nat.ltb_lt in Hlen. rewrite Hlen in Hcase.
  rewrite Hreq, Hsl, Hreq', Hsl'.
  split; [tauto | ]. split; [reflexivity | ]. split; [reflexivity | ].
  split; [tauto | ]. split; [tauto | ].
  intros ->. cbn. rewrite app_nil_r. split; [lia | reflexivity].
Qed.

Lemma too_small_payload_ends_the_item_witness :
  let s' := snd (loop_body Examples.timeout_then_small 1 0 1 0 Examples.url1
                   Examples.empty_dir) in
  requests s' = 2%nat /\ slept s' = [2] /\ fs s' = ∅.
Proof.
  destruct (too_small_payload_ends_the_item Examples.timeout_then_small
              1 0 1 0 Examples.url1 Examples.empty_dir 1
              (Examples.response 200 50))
    as (_ & Hreq & Hsl & Hfs & _).
  - lia.
  - intros i Hi. assert (i = 0%nat) as -> by lia. discriminate.
  - reflexivity.
  - cbn. lia.
  - cbn. lia.
  - cbv zeta. rewrite Hreq, Hsl, Hfs. repeat split.
Defined.

(** C7 as stated fails: a short 2xx payload that answers the second
    attempt, after a timeout, leaves the item with two requests made and
    one backoff sleep taken. *)
Lemma too_small_after_timeout_counts_two_attempts :
  let w := Examples.timeout_then_small in
  let s' := snd (loop_body w 1 0 1 0 Examples.url1 Examples.empty_dir) in
  net w 1 Examples.url1 REQUEST_TIMEOUT
  = NetResponse (Examples.response 200 50)
  /\ failed_urls s'
     = [(Examples.url1, "Downloaded content too small, likely an error page")]
  /\ requests s' = 2%nat
  /\ slept s' = [2]
  /\ ~ ((requests s' <= 1)%nat /\ slept s' = []).
Proof.
  vm_compute. repeat split; try reflexivity.
  intros [Hle _]. lia.
Qed.

(** C8 as stated fails for a cancelled run: here the first item fails
    with a 404 and Cancel is pressed meanwhile; the summary shows one
    failure and no failure message. *)
Lemma cancelled_summary_shows_no_failure_message :
  let res := download Examples.not_found_then_cancel
               [(0%nat, Examples.url1); (1%nat, Examples.url2)] 1
               Examples.empty_dir in
  fst res = Return (DownloadCancelled 0 1 1)
  /\ failed (snd res) = 1%nat
  /\ failed_urls (snd res)
     = [(Examples.url1,
         "404 Client Error:  for url: https://example.org/photos/1/original.jpg")]
  /\ failure_shown (DownloadCancelled 0 1 1) = None
  /\ ~ ((0 < failed (snd res))%nat ->
        failure_shown (DownloadCancelled 0 1 1) <> None).
Proof.
  vm_compute. repeat split; try reflexivity.
  intros H. apply H; [lia | reflexivity].
Qed.

Lemma item_errors_are_recovered_witness :
  let w := Examples.always 404 300 None in
  let res := loop_body w 1 0 2 0 Examples.url1 Examples.empty_dir in
  fst res = Return tt /\ failed (snd res) = 1%nat
  /\ exists summary,
       fst (download w [(0%nat, Examples.url1); (1%nat, Examples.url2)] 1
              Examples.empty_dir) = Return summary
       /\ failure_shown summary
          = Some (PyStr.take 50 Examples.url1,
                  "404 Client Error:  for url: https://example.org/photos/1/original.jpg").
Proof.
  intros w res. subst res.
  destruct (item_errors_are_recovered w) as (Hitem & _ & Hrun).
  destruct (Hitem 1%N 0%Q 2%nat 0%nat Examples.url1 Examples.empty_dir
              (HTTPError "404 Client Error:  for url: https://example.org/photos/1/original.jpg" 404))
    as (Hret & Hfailed & _).
  { vm_compute. reflexivity. }
  split; [exact Hret | ]. split; [exact Hfailed | ].
  destruct (Hrun [(0%nat, Examples.url1); (1%nat, Examples.url2)] 1%N
              Examples.empty_dir) as (summary & Hsum & _ & Hshown).
  exists summary. split; [exact Hsum | ].
  vm_compute in Hsum. injection Hsum as <-. reflexivity.
Defined.

Lemma download_with_retry_attempts_witness :
  (exists s',
     download_with_retry Examples.two_timeouts_then_ok Examples.url1 30 3
       Examples.empty_dir
     = (Return (Examples.response 200 150), s')
     /\ requests s' = 3%nat)
  /\ (exists msg s',
        download_with_retry (Examples.always 404 300 None) Examples.url1 30 3
          Examples.empty_dir
        = (Raise (HTTPError msg 404), s')
        /\ requests s' = 1%nat)
  /\ (exists s',
        download_with_retry (Examples.always 500 300 None) Examples.url1 30 3
          Examples.empty_dir
        = (Raise (RequestException "Failed after 3 attempts: HTTP 500"), s')
        /\ requests s' = 3%nat).
Proof.
  split; [ | split].
  - destruct (download_with_retry_attempts Examples.two_timeouts_then_ok
                Examples.url1 30 Examples.empty_dir) as (H & _ & _).
    destruct (H "Read timed out." "Read timed out." (Examples.response 200 150))
      as (s' & Hres & Hreq & _); try reflexivity.
    { cbn. lia. }
    exists s'. split; [exact Hres | exact Hreq].
  - destruct (download_with_retry_attempts (Examples.always 404 300 None)
                Examples.url1 30 Examples.empty_dir) as (_ & H & _).
    destruct (H (Examples.response 404 300)) as (msg & s' & Hres & Hreq & _);
      try reflexivity.
    exists msg, s'. split; [exact Hres | exact Hreq].
  - destruct (download_with_retry_attempts (Examples.always 500 300 None)
                Examples.url1 30 Examples.empty_dir) as (_ & _ & H).
    destruct H as (s' & Hres & Hreq & _).
    { intros i _. exists (Examples.response 500 300). split; reflexivity. }
    exists s'. split; [exact Hres | exact Hreq].
Defined.

Lemma cancel_stops_after_current_item_witness :
  let res := download (Examples.always 200 150 (Some 5%nat)) Examples.ten_urls
               1 Examples.empty_dir in
  (successful (snd res) + failed (snd res) = 5)%nat
  /\ fst res = Return (DownloadCancelled (successful (snd res))
                         (failed (snd res)) 5).
Proof.
  destruct (cancel_stops_after_current_item
              (Examples.always 200 150 (Some 5%nat)) Examples.ten_urls 1
              Examples.empty_dir 5) as (Hres & Hsum & _).
  - cbn. lia.
  - reflexivity.
  - split; [exact Hsum | exact Hres].
Defined.

Lemma failed_item_leaves_files_untouched_witness :
  let w := Examples.always 200 50 None in
  let s' := snd (loop_body w 1 0 1 0 Examples.url1 Examples.empty_dir) in
  fs s' = ∅ /\ writes s' = 0%nat.
Proof.
  intros w s'. subst s'.
  destruct (failed_item_leaves_files_untouched w 1 0 1 0 Examples.url1
              Examples.empty_dir) as (_ & Hsmall & _).
  destruct (Hsmall (Examples.response 200 50)) as (_ & Hfs & Hwr & _).
  - vm_compute. reflexivity.
  - cbn. lia.
  - split; [exact Hfs | exact Hwr].
Defined.

Lemma output_index_never_reused_witness :
  let w := Examples.two_timeouts_then_ok in
  fs (snd (loop_body w 8 0 1 0 Examples.url1 Examples.empty_dir))
  = <["image_8.jpg" := Examples.payload 150]> ∅.
Proof.
  intros w.
  destruct (output_index_never_reused w [] 8 Examples.empty_dir)
    as (_ & _ & Hitem & _).
  apply (Hitem 0%Q 1%nat 0%nat Examples.url1 Examples.empty_dir
           (Examples.response 200 150)).
  - vm_compute. reflexivity.
  - cbn. lia.
  - reflexivity.
Defined.

(* ================================================================== *)
(** * Proofs: the progress display *)
(* ================================================================== *)

Section ProgressFacts.

Variable w : World.

Ltac run :=
  cbv beta iota zeta
    delta [bind ret raise gets modify try_except try_item except_item
             report_progress loop_body time_time update_gui_safe write_file].

(** The mean speed shown after a payload has passed the size check is
    [mean_speed] of the running totals, to which the item has added
    its size and the time of its fetch. *)
Lemma try_item_mean_speed url idx img_num s r :
  fst (fetch_of w url s) = Return r ->
  (100 <= length (content r))%nat ->
  let res := try_item w url idx img_num s in
  total_size (snd res) = total_size s + Z.of_nat (length (content r))
  /\ total_time (snd res)
     = (total_time s
        + (clock w (ticks (snd (fetch_of w url s))) - clock w (ticks s)))%Q
  /\ gui (snd res)
     = gui s ++ [MeanSpeedLabel (mean_speed (total_size (snd res))
                                   (total_time (snd res)))].
Proof.
  intros Hfetch Hlen res. subst res. unfold fetch_of in *.
  destruct (retry_loop_outcome w url REQUEST_TIMEOUT MAX_RETRIES
              (range MAX_RETRIES) None (set_ticks (S (ticks s)) s))
    as ((Heq & _) & _).
  fold (download_with_retry w url REQUEST_TIMEOUT MAX_RETRIES
          (set_ticks (S (ticks s)) s)) in Heq.
  run.
  destruct (download_with_retry w url REQUEST_TIMEOUT MAX_RETRIES
              (set_ticks (S (ticks s)) s)) as [[r' | e] s1];
    cbn [fst snd] in Heq, Hfetch |- *; [ | discriminate].
  injection Hfetch as ->.
  assert ((length (content r) <? 100)%nat = false) as ->
    by (apply Nat.ltb_ge; lia).
  cbn [writes set_gui set_total_time set_total_size set_ticks].
  destruct (disk w (writes s1) _) as [| msg | msg n];
    cbn [fst snd]; rewrite Heq; destruct s; cbn; repeat split; reflexivity.
Qed.

Lemma app_three {A : Type} (l : list A) (a b c : A) :
  ((l ++ [a]) ++ [b]) ++ [c] = l ++ [a; b; c].
Proof. now rewrite <- !app_assoc. Qed.

(** The readings of the clock in the [try]: one before the fetch, and
    one more after it when it returned. *)
Lemma try_item_ticks url idx img_num s :
  ticks (snd (try_item w url idx img_num s))
  = (ticks s + match fst (fetch_of w url s) with
               | Return _ => 2
               | Raise _ => 1
               end)%nat.
Proof.
  unfold fetch_of.
  destruct (retry_loop_outcome w url REQUEST_TIMEOUT MAX_RETRIES
              (range MAX_RETRIES) None (set_ticks (S (ticks s)) s))
    as ((Heq & _) & _).
  fold (download_with_retry w url REQUEST_TIMEOUT MAX_RETRIES
          (set_ticks (S (ticks s)) s)) in Heq.
  run.
  destruct (download_with_retry w url REQUEST_TIMEOUT MAX_RETRIES
              (set_ticks (S (ticks s)) s)) as [[r | e] s1];
    cbn [fst snd] in Heq |- *.
  - destruct (length (content r) <? 100)%nat.
    + cbn [fst snd]. rewrite Heq. destruct s; cbn. lia.
    + cbn [writes set_gui set_total_time set_total_size set_ticks].
      destruct (disk w (writes s1) _) as [| msg | msg n];
        cbn [fst snd]; rewrite Heq; destruct s; cbn; lia.
  - rewrite Heq. destruct s; cbn. lia.
Qed.

(** The estimate shown after an item is computed from the reading of
    the clock taken after the item: the reading number [t], the one
    that follows the readings of the [try], and the last of the
    iteration. *)
Lemma loop_body_estimate starting_num start_time total idx url s :
  let body := loop_body w starting_num start_time total idx url s in
  let t := (ticks s
            + match fst (item_fetch w starting_num idx url s) with
              | Return _ => 2
              | Raise _ => 1
              end)%nat in
  ticks (snd body) = S t
  /\ exists earlier,
       gui (snd body)
       = earlier
         ++ [ProgressBar (idx + 1); ProgressLabel (idx + 1) total;
             RemainingTimeLabel
               (remaining_time (clock w t - start_time) (idx + 1) total)].
Proof.
  intros body t. subst body t.
  pose proof (try_item_ticks url idx (starting_num + N.of_nat idx)
                (enter_item starting_num idx url s)) as Ht.
  change (ticks (enter_item starting_num idx url s)) with (ticks s) in Ht.
  fold (item_fetch w starting_num idx url s) in Ht.
  set (k := match fst (item_fetch w starting_num idx url s) with
            | Return _ => 2%nat
            | Raise _ => 1%nat
            end) in *.
  clearbody k. revert Ht.
  cbv beta iota zeta
    delta [bind ret raise gets modify try_except except_item
             report_progress loop_body time_time update_gui_safe enter_item].
  destruct (try_item w url idx _ _) as [[[] | e] s1]; cbn [fst snd];
    intros Ht;
    (replace (0 <? idx + 1)%nat with true
      by (symmetry; apply Nat.ltb_lt; lia));
    cbv beta iota;
    cbn [fst snd gui ticks set_gui set_ticks set_failed set_failed_urls];
    rewrite <- Ht; (split; [reflexivity | ]); eexists; apply app_three.
Qed.

(** The display of a run after the one of its loop. *)
Lemma download_gui valid_urls starting_num s :
  let n := length valid_urls in
  let k := stop_index w (polls s) n in
  let s_k :=
    run_items w starting_num (clock w (ticks s)) n 0
      (firstn k valid_urls) (start_state s) in
  let res := download w valid_urls starting_num s in
  exists summary,
    fst res = Return summary
    /\ gui (snd res)
       = gui s_k
         ++ (if (k <? n)%nat then [StatusCancelled (successful s_k)] else [])
         ++ [ShowSummary summary; ResetUI].
Proof.
  intros n k s_k res. subst res.
  destruct (stop_index_spec w (polls s) (length valid_urls))
    as (Hk & Hclear & Hset). fold n k in Hk, Hclear, Hset.
  cbv beta iota zeta
    delta [download bind ret raise gets modify read_download_cancelled
             update_gui_safe show_message_safe reset_ui time_time].
  change (ticks (set_total_size _ _)) with (ticks s).
  change (set_ticks (S (ticks s)) _) with (start_state s).
  rewrite (download_loop_run w starting_num (clock w (ticks s))
             (length valid_urls) k 0 valid_urls (start_state s) Hk)
    by (cbn [polls start_state set_ticks set_total_size set_total_time
               set_successful set_failed set_failed_urls]; assumption).
  fold n. fold s_k.
  destruct (k <? n)%nat; cbn [fst snd gui set_gui set_polls break_state];
    eexists; (split; [reflexivity | ]); rewrite <- ?app_assoc; reflexivity.
Qed.

End ProgressFacts.

(** C5.  The mean speed is 0 while the cumulative time is 0 and
    [(bytes * 8) / (seconds * 1000000)] Mbit/s once it is positive, so
    1,000,000 bytes in 8 seconds are exactly 1 Mbit/s; the estimate of
    the remaining time is [(elapsed / completed) * (total - completed)],
    so 5 of 10 items in 5 seconds leave 5 seconds; and these are the
    values the worker displays: the speed of the running totals after
    each payload that passed the size check; the estimate after every
    item, with [completed = idx + 1 > 0] and the time elapsed at the
    reading of the clock taken after the item (the reading that follows
    the one or two readings of the [try], and the last of the
    iteration); and, in a run, with the elapsed time counted from the
    reading taken when the worker starts and [total] the number of
    items. *)
Theorem progress_accounting :
  (forall total_size total_time,
     (total_time == 0)%Q -> (mean_speed total_size total_time == 0)%Q)
  /\ (forall total_size total_time,
        (0 < total_time)%Q ->
        (mean_speed total_size total_time
         == (inject_Z total_size * 8) / (total_time * 1000000))%Q)
  /\ (mean_speed 1000000 8 == 1)%Q
  /\ (forall elapsed completed total,
        (remaining_time elapsed completed total
         == (elapsed / inject_Z (Z.of_nat completed))
            * (inject_Z (Z.of_nat total) - inject_Z (Z.of_nat completed)))%Q)
  /\ (remaining_time 5 5 10 == 5)%Q
  /\ (forall w url idx img_num s r,
        fst (fetch_of w url s) = Return r ->
        (100 <= length (content r))%nat ->
        let res := try_item w url idx img_num s in
        total_size (snd res) = total_size s + Z.of_nat (length (content r))
        /\ total_time (snd res)
           = (total_time s
              + (clock w (ticks (snd (fetch_of w url s)))
                 - clock w (ticks s)))%Q
        /\ gui (snd res)
           = gui s ++ [MeanSpeedLabel (mean_speed (total_size (snd res))
                                         (total_time (snd res)))])
  /\ (forall w starting_num start_time total idx url s,
        let body := loop_body w starting_num start_time total idx url s in
        let t := (ticks s
                  + match fst (item_fetch w starting_num idx url s) with
                    | Return _ => 2
                    | Raise _ => 1
                    end)%nat in
        ticks (snd body) = S t
        /\ exists earlier,
             gui (snd body)
             = earlier
               ++ [ProgressBar (idx + 1); ProgressLabel (idx + 1) total;
                   RemainingTimeLabel
                     (remaining_time (clock w t - start_time) (idx + 1)
                        total)])
  /\ (forall w valid_urls starting_num s,
        let n := length valid_urls in
        let k := stop_index w (polls s) n in
        let s_k :=
          run_items w starting_num (clock w (ticks s)) n 0
            (firstn k valid_urls) (start_state s) in
        let res := download w valid_urls starting_num s in
        exists summary,
          fst res = Return summary
          /\ gui (snd res)
             = gui s_k
               ++ (if (k <? n)%nat
                   then [StatusCancelled (successful s_k)] else [])
               ++ [ShowSummary summary; ResetUI]).
Proof.
  split; [ | split; [ | split; [ | split; [ | split; [ | split; [ | split]]]]]].
  - intros total_size total_time Hzero. unfold mean_speed.
    destruct (Qlt_le_dec 0 total_time) as [Hpos | _]; [ | reflexivity].
    rewrite Hzero in Hpos. now apply Qlt_irrefl in Hpos.
  - intros total_size total_time Hpos. unfold mean_speed.
    destruct (Qlt_le_dec 0 total_time) as [_ | Hle].
    + now rewrite inject_Z_mult.
    + exfalso. apply (Qlt_irrefl 0). eapply Qlt_le_trans; eassumption.
  - vm_compute. reflexivity.
  - intros elapsed completed total. unfold remaining_time.
    unfold Z.sub. rewrite inject_Z_plus, inject_Z_opp. reflexivity.
  - vm_compute. reflexivity.
  - intros w url idx img_num s r Hfetch Hlen.
    now apply try_item_mean_speed.
  - intros w starting_num start_time total idx url s.
    apply loop_body_estimate.
  - intros w valid_urls starting_num s. apply download_gui.
Qed.

Lemma progress_accounting_witness :
  (mean_speed 1000000 0 == 0)%Q
  /\ (mean_speed 1000000 8 == (inject_Z 1000000 * 8) / (8 * 1000000))%Q
  /\ total_size
       (snd (try_item (Examples.always 200 150 None) Examples.url1 0 1
               Examples.empty_dir))
     = 0 + Z.of_nat (length (content (Examples.response 200 150))).
Proof.
  destruct progress_accounting as (Hzero & Hpos & _ & _ & _ & Hshown & _).
  split; [ | split].
  - apply Hzero. reflexivity.
  - apply Hpos. reflexivity.
  - apply (Hshown (Examples.always 200 150 None) Examples.url1 0%nat 1%N
             Examples.empty_dir (Examples.response 200 150)).
    + vm_compute. reflexivity.
    + vm_compute. lia.
Defined.

(* ================================================================== *)
(** * More on [download_with_retry] *)
(* ================================================================== *)

Section RetryLaws.

Variable w : World.
Variables (url : string) (timeout max_retries : Z).

(** The loop over the attempts number [b], ..., [b + len - 1], the last
    of them being the last attempt allowed: the requests it makes and
    the sleeps it takes. *)
Lemma retry_loop_requests_and_sleeps (len : nat) :
  forall b last s,
    Z.of_nat (b + len) = max_retries ->
    let res := retry_loop w url timeout max_retries
                 (map Z.of_nat (seq b len)) last s in
    exists a,
      requests (snd res) = (requests s + a)%nat
      /\ (a <= len)%nat
      /\ ((0 < len)%nat -> (1 <= a)%nat)
      /\ slept (snd res) = slept s ++ backoffs b (a - 1).
Proof.
  induction len as [| len IH]; intros b last s Hmax res; subst res;
    cbn [seq map].
  - rewrite retry_loop_exhausted. exists 0%nat. cbn.
    rewrite app_nil_r. repeat split; lia.
  - destruct (net_result_cases timeout (net w (requests s) url timeout))
      as [(r & Hnet & Hok) | [(r & Hnet & Hclient) | (msg & Hmsg)]].
    + rewrite (retry_loop_returns w url timeout max_retries _ _ _ _ r Hnet Hok).
      exists 1%nat. cbn. rewrite app_nil_r. repeat split; lia.
    + rewrite (retry_loop_client_error w url timeout max_retries _ _ _ _ r
                 Hnet Hclient).
      exists 1%nat. cbn. rewrite app_nil_r. repeat split; lia.
    + rewrite (retry_loop_retries w url timeout max_retries _ _ _ _ msg Hmsg).
      destruct len as [| len].
      * cbn [seq map]. rewrite retry_loop_exhausted. cbn [snd].
        unfold after_backoff.
        assert ((Z.of_nat b <? max_retries - 1) = false) as -> by lia.
        exists 1%nat. cbn. rewrite app_nil_r. repeat split; lia.
      * assert (after_backoff max_retries (Z.of_nat b) (after_request s)
                = set_slept (slept s ++ [RETRY_DELAY * (Z.of_nat b + 1)])
                    (after_request s)) as ->.
        { unfold after_backoff.
          assert ((Z.of_nat b <? max_retries - 1) = true) as -> by lia.
          reflexivity. }
        set (s1 := set_slept _ (after_request s)).
        destruct (IH (S b) (Some msg) s1) as (a & Hreq & Hle & Hpos & Hsl);
          [lia | ].
        specialize (Hpos ltac:(lia)).
        exists (S a). rewrite Hreq, Hsl. subst s1. cbn [requests slept
          set_slept after_request set_requests].
        split; [lia | ]. split; [lia | ]. split; [lia | ].
        rewrite <- app_assoc. f_equal.
        replace (S a - 1)%nat with (S (a - 1)) by lia.
        reflexivity.
Qed.

(** An [HTTPError] that leaves the loop is the one of the response to
    its last request, a response of status 400..499. *)
Lemma retry_loop_client_error_source attempts :
  forall last s msg status,
    fst (retry_loop w url timeout max_retries attempts last s)
    = Raise (HTTPError msg status) ->
    exists n r,
      requests (snd (retry_loop w url timeout max_retries attempts last s))
      = S n
      /\ net w n url timeout = NetResponse r
      /\ status_code r = status
      /\ 400 <= status < 500.
Proof.
  induction attempts as [| attempt rest IH]; intros last s msg status.
  - rewrite retry_loop_exhausted. discriminate.
  - destruct (net_result_cases timeout (net w (requests s) url timeout))
      as [(r & Hnet & Hok) | [(r & Hnet & Hclient) | (m & Hmsg)]].
    + rewrite (retry_loop_returns w url timeout max_retries _ _ _ _ r Hnet Hok).
      discriminate.
    + rewrite (retry_loop_client_error w url timeout max_retries _ _ _ _ r
                 Hnet Hclient).
      cbn [fst snd]. intros [= _ <-]. exists (requests s), r.
      repeat split; try assumption; lia.
    + rewrite (retry_loop_retries w url timeout max_retries _ _ _ _ m Hmsg).
      apply IH.
Qed.

End RetryLaws.

(** X1.  Whatever the network does, [download_with_retry] makes at most
    [max_retries] requests (at least one when [max_retries > 0], none
    when it is zero or negative), and it sleeps only between two
    requests: after [a] requests it has slept [a - 1] times, for 2, 4,
    6, ... seconds in that order, never after its last request.  It
    changes nothing else. *)
Theorem download_with_retry_requests_and_sleeps
    (w : World) (url : string) (timeout max_retries : Z) (s : State) :
  let s' := snd (download_with_retry w url timeout max_retries s) in
  let a := (requests s' - requests s)%nat in
  (requests s <= requests s')%nat
  /\ (a <= Z.to_nat max_retries)%nat
  /\ (0 < max_retries -> (1 <= a)%nat)
  /\ slept s' = slept s ++ backoffs 0 (a - 1)
  /\ s' = set_slept (slept s') (set_requests (requests s') s).
Proof.
  intros s' a. subst a s'. unfold download_with_retry, range.
  destruct (retry_loop_outcome w url timeout max_retries
              (map Z.of_nat (seq 0 (Z.to_nat max_retries))) None s)
    as ((Heq & _) & _).
  destruct (Z_lt_le_dec 0 max_retries) as [Hpos | Hneg].
  - destruct (retry_loop_requests_and_sleeps w url timeout max_retries
                (Z.to_nat max_retries) 0 None s)
      as (a & Hreq & Hle & Hone & Hsl); [lia | ].
    set (s' := snd (retry_loop _ _ _ _ _ _ _)) in *.
    assert ((requests s' - requests s)%nat = a) as Ha by lia.
    split; [lia | ]. split; [lia | ].
    split; [intros _; specialize (Hone ltac:(lia)); lia | ].
    split; [rewrite Ha; exact Hsl | exact Heq].
  - replace (Z.to_nat max_retries) with 0%nat by lia. cbn [seq map].
    rewrite retry_loop_exhausted. cbn [snd].
    rewrite Nat.sub_diag. cbn. rewrite app_nil_r.
    split; [lia | ]. split; [lia | ]. split; [lia | ].
    split; [reflexivity | now destruct s].
Qed.

Lemma download_with_retry_requests_and_sleeps_witness :
  let s' := snd (download_with_retry (Examples.always 500 300 None)
                   Examples.url1 30 3 Examples.empty_dir) in
  (1 <= requests s' - requests Examples.empty_dir)%nat.
Proof.
  destruct (download_with_retry_requests_and_sleeps
              (Examples.always 500 300 None) Examples.url1 30 3
              Examples.empty_dir) as (_ & _ & Hone & _).
  apply Hone. lia.
Defined.

(** X2.  [download_with_retry] ends in one of three ways only: it
    returns the response to its last request, whose status is outside
    400..599; it raises the [HTTPError] of the response to its last
    request, whose status is in 400..499; or, after exactly
    [max_retries] requests, it raises a [RequestException] whose text
    names the number of attempts and the cause of the last failure
    ([None] when no attempt was made).  A timeout or a transport error
    never leaves it as such. *)
Theorem download_with_retry_outcomes
    (w : World) (url : string) (timeout max_retries : Z) (s : State) :
  let res := download_with_retry w url timeout max_retries s in
  match fst res with
  | Return r =>
      status_ok r = true
      /\ exists n, requests (snd res) = S n
                   /\ net w n url timeout = NetResponse r
  | Raise (HTTPError msg status) =>
      400 <= status < 500
      /\ exists n r, requests (snd res) = S n
                     /\ net w n url timeout = NetResponse r
                     /\ status_code r = status
  | Raise (RequestException msg) =>
      requests (snd res) = (requests s + Z.to_nat max_retries)%nat
      /\ msg = "Failed after " +:+ PyStr.str_Z max_retries +:+ " attempts: "
               +:+ (if max_retries <=? 0 then "None"
                    else str_last_exception
                           (retry_message timeout
                              (net w (pred (requests (snd res))) url timeout)))
  | Raise _ => False
  end.
Proof.
  intros res. subst res. unfold download_with_retry, range.
  pose proof (retry_loop_outcome w url timeout max_retries
                (map Z.of_nat (seq 0 (Z.to_nat max_retries))) None s)
    as (_ & _ & Hout).
  cbv zeta in Hout.
  pose proof (retry_loop_client_error_source w url timeout max_retries
                (map Z.of_nat (seq 0 (Z.to_nat max_retries))) None s) as Hsrc.
  destruct (fst (retry_loop w url timeout max_retries
                   (map Z.of_nat (seq 0 (Z.to_nat max_retries))) None s))
    as [r | [m | m st | m | m | m]]; try assumption.
  - split; [assumption | ].
    destruct (Hsrc m st eq_refl) as (n & r & Hreq & Hnet & Hst & _). eauto.
  - clear Hsrc. destruct Hout as (Hreq & Hmsg).
    rewrite length_map, length_seq in Hreq.
    split; [exact Hreq | ]. rewrite Hmsg. do 3 f_equal.
    destruct (Z.leb_spec max_retries 0) as [Hle | Hgt].
    + replace (Z.to_nat max_retries) with 0%nat by lia. reflexivity.
    + destruct (Z.to_nat max_retries) as [| m'] eqn:Hm; [lia | ].
      reflexivity.
Qed.

(* ================================================================== *)
(** * More on [get_file_extension] *)
(* ================================================================== *)

Section NormalisationFacts.
Import PyStr.

Lemma lower_char_semicolon (c : ascii) :
  Ascii.eqb (lower_char c) ";" = Ascii.eqb c ";".
Proof. destruct c as [[] [] [] [] [] [] [] []]; vm_compute; reflexivity. Qed.

Lemma lower_char_space (c : ascii) : is_space (lower_char c) = is_space c.
Proof. destruct c as [[] [] [] [] [] [] [] []]; vm_compute; reflexivity. Qed.

Lemma space_not_semicolon (c : ascii) :
  is_space c = true -> Ascii.eqb c ";" = false.
Proof. destruct c as [[] [] [] [] [] [] [] []]; vm_compute; congruence. Qed.

Lemma lower_split_head (s : string) :
  lower (split_head ";" s) = split_head ";" (lower s).
Proof.
  induction s as [| c s IH]; cbn [lower split_head]; [reflexivity | ].
  rewrite lower_char_semicolon.
  destruct (Ascii.eqb c ";"); cbn [lower]; [reflexivity | now rewrite IH].
Qed.

Lemma lower_lstrip (s : string) : lower (lstrip s) = lstrip (lower s).
Proof.
  induction s as [| c s IH]; cbn [lower lstrip]; [reflexivity | ].
  rewrite lower_char_space. destruct (is_space c); [exact IH | reflexivity].
Qed.

Lemma lower_rstrip (s : string) : lower (rstrip s) = rstrip (lower s).
Proof.
  induction s as [| c s IH]; cbn [lower rstrip]; [reflexivity | ].
  rewrite <- IH, lower_char_space.
  destruct (rstrip s) as [| d t]; cbn [lower].
  - destruct (is_space c); reflexivity.
  - reflexivity.
Qed.

Lemma lower_strip (s : string) : lower (strip s) = strip (lower s).
Proof. unfold strip. now rewrite lower_rstrip, lower_lstrip. Qed.

Lemma truthy_lower (s : string) : truthy (lower s) = truthy s.
Proof. now destruct s. Qed.

(** The key looked up in the table depends on the content type through
    its lower-case form only. *)
Lemma main_type_lower (content_type : string) :
  lower (strip (split_head ";" content_type))
  = strip (split_head ";" (lower content_type)).
Proof. now rewrite lower_strip, lower_split_head. Qed.

Lemma split_head_app_sep (sep : ascii) (s params : string) :
  split_head sep (s +:+ String sep params) = split_head sep s.
Proof.
  induction s as [| c s IH]; rewrite ?app_cons, ?app_empty_l;
    cbn [split_head].
  - now rewrite Ascii.eqb_refl.
  - destruct (Ascii.eqb c sep); [reflexivity | now rewrite IH].
Qed.

Lemma split_head_spaces (r : string) :
  all is_space r = true -> split_head ";" r = r.
Proof.
  induction r as [| c r IH]; cbn [all split_head]; [reflexivity | ].
  intros [Hc Hr]%andb_prop. rewrite (space_not_semicolon c Hc).
  now rewrite IH.
Qed.

Lemma split_head_app_spaces_l (l s : string) :
  all is_space l = true ->
  split_head ";" (l +:+ s) = l +:+ split_head ";" s.
Proof.
  induction l as [| c l IH]; rewrite ?app_cons, ?app_empty_l;
    cbn [all split_head]; [reflexivity | ].
  intros [Hc Hl]%andb_prop. rewrite (space_not_semicolon c Hc).
  now rewrite IH.
Qed.

Lemma split_head_app_spaces_r (s r : string) :
  all is_space r = true ->
  exists r', all is_space r' = true
             /\ split_head ";" (s +:+ r) = split_head ";" s +:+ r'.
Proof.
  intros Hr. induction s as [| c s (r' & Hr' & IH)];
    rewrite ?app_cons, ?app_empty_l; cbn [split_head].
  - exists r. rewrite app_empty_l. split; [assumption | ].
    now apply split_head_spaces.
  - destruct (Ascii.eqb c ";").
    + exists "". split; reflexivity.
    + exists r'. split; [assumption | ]. rewrite ?app_cons. now rewrite IH.
Qed.

Lemma lstrip_spaces (r : string) : all is_space r = true -> lstrip r = "".
Proof.
  induction r as [| c r IH]; cbn [all lstrip]; [reflexivity | ].
  intros [-> Hr]%andb_prop. auto.
Qed.

Lemma lstrip_app_spaces_l (l s : string) :
  all is_space l = true -> lstrip (l +:+ s) = lstrip s.
Proof.
  induction l as [| c l IH]; rewrite ?app_cons, ?app_empty_l;
    cbn [all lstrip]; [reflexivity | ].
  intros [-> Hl]%andb_prop. auto.
Qed.

Lemma rstrip_spaces (r : string) : all is_space r = true -> rstrip r = "".
Proof.
  induction r as [| c r IH]; cbn [all rstrip]; [reflexivity | ].
  intros [-> Hr]%andb_prop. now rewrite IH.
Qed.

Lemma rstrip_app_spaces_r (s r : string) :
  all is_space r = true -> rstrip (s +:+ r) = rstrip s.
Proof.
  intros Hr. induction s as [| c s IH]; rewrite ?app_cons, ?app_empty_l.
  - now rewrite rstrip_spaces.
  - cbn [rstrip]. now rewrite IH.
Qed.

(** White space around a string does not change what [strip] returns. *)
Lemma strip_app_spaces (l s r : string) :
  all is_space l = true -> all is_space r = true ->
  strip (l +:+ s +:+ r) = strip s.
Proof.
  intros Hl Hr. unfold strip. rewrite lstrip_app_spaces_l by assumption.
  clear l Hl. induction s as [| c s IH]; rewrite ?app_cons, ?app_empty_l.
  - rewrite lstrip_spaces by assumption. reflexivity.
  - cbn [lstrip]. destruct (is_space c); [exact IH | ].
    rewrite <- app_cons. now apply rstrip_app_spaces_r.
Qed.

End NormalisationFacts.

(** X3.  [get_file_extension] reads the content type up to letter case,
    surrounding white space and parameters: any text after the first
    [;] is ignored; two content types with the same lower-case form give
    the same extension; white space before and after the content type
    changes nothing.  The URL is read up to letter case as well. *)
Theorem get_file_extension_normalises :
  (forall content_type params url,
     get_file_extension (content_type +:+ ";" +:+ params) url
     = get_file_extension content_type url)
  /\ (forall content_type1 content_type2 url,
        PyStr.lower content_type1 = PyStr.lower content_type2 ->
        get_file_extension content_type1 url
        = get_file_extension content_type2 url)
  /\ (forall l content_type r url,
        PyStr.all PyStr.is_space l = true ->
        PyStr.all PyStr.is_space r = true ->
        get_file_extension (l +:+ content_type +:+ r) url
        = get_file_extension content_type url)
  /\ (forall content_type url1 url2,
        PyStr.lower url1 = PyStr.lower url2 ->
        get_file_extension content_type url1
        = get_file_extension content_type url2).
Proof.
  assert (forall ct url,
            get_file_extension ct url
            = match content_type_map
                    !! PyStr.lower (PyStr.strip (PyStr.split_head ";" ct)) with
              | Some ext => ext
              | None => extension_from_url url
              end) as Hany.
  { intros ct url. unfold get_file_extension.
    destruct ct as [| c ct]; cbn [PyStr.truthy]; reflexivity. }
  split; [ | split; [ | split]].
  - intros ct params url. rewrite !Hany.
    change (";" +:+ params) with (String ";" params).
    now rewrite split_head_app_sep.
  - intros ct1 ct2 url Hlower. rewrite !Hany, !main_type_lower.
    now rewrite Hlower.
  - intros l ct r url Hl Hr. rewrite !Hany.
    rewrite split_head_app_spaces_l by assumption.
    destruct (split_head_app_spaces_r ct r Hr) as (r' & Hr' & ->).
    now rewrite strip_app_spaces.
  - intros ct url1 url2 Hlower. rewrite !Hany.
    unfold extension_from_url. now rewrite Hlower.
Qed.

Lemma get_file_extension_normalises_witness :
  get_file_extension "IMAGE/PNG" "x" = get_file_extension "image/png" "x"
  /\ get_file_extension "  image/png  " "x" = get_file_extension "image/png" "x"
  /\ get_file_extension "" "HTTP://A/B.GIF" = get_file_extension "" "http://a/b.gif".
Proof.
  destruct get_file_extension_normalises as (_ & Hcase & Hspace & Hurl).
  split; [ | split].
  - apply Hcase. reflexivity.
  - apply (Hspace "  " "image/png" "  " "x"); reflexivity.
  - apply Hurl. reflexivity.
Defined.

(* ================================================================== *)
(** * The names written and the scan of the directory *)
(* ================================================================== *)

Section RoundTripFacts.
Import PyStr Numbering.

Lemma known_extension_shape (ext : string) :
  In ext known_extensions ->
  exists e, ext = "." +:+ e /\ e <> "" /\ all is_word e = true.
Proof.
  unfold known_extensions. cbn [In]. intros H.
  repeat (destruct H as [<- | H];
          [eexists; split; [reflexivity | split; [discriminate | reflexivity]]
          | ]).
  destruct H.
Qed.

(** The scan reads, from the name of the item at position [idx], the
    number this item was given. *)
Lemma re_search_names_item (starting_num : N) (idx : nat) (name : string) :
  names_item starting_num idx name ->
  re_search name = Some (str_N (starting_num + N.of_nat idx)).
Proof.
  intros (ext & Hext & ->).
  destruct (known_extension_shape ext Hext) as (e & -> & Hne & Hw).
  pose proof (re_search_image_name (starting_num + N.of_nat idx) e "" Hne Hw)
    as H.
  now rewrite app_empty_r in H.
Qed.

Lemma elem_of_listdir (files : gmap string (list Byte.byte)) (name : string) :
  In name (listdir files) <-> is_Some (files !! name).
Proof.
  unfold listdir. rewrite <- list_elem_of_In, list_elem_of_fmap. split.
  - intros ([name' data] & -> & Hin). apply elem_of_map_to_list in Hin.
    cbn. eauto.
  - intros [data Hdata]. exists (name, data). split; [reflexivity | ].
    now apply elem_of_map_to_list.
Qed.

(** Every number the scan reads in the directory is below the start. *)
Lemma listed_number_below_start (files : gmap string (list Byte.byte))
    (name g : string) :
  is_Some (files !! name) -> re_search name = Some g ->
  (int g < starting_num (listdir files))%N.
Proof.
  intros Hname Hg. rewrite starting_num_max.
  assert (int g <= max_of (image_numbers (listdir files)))%N; [ | lia].
  apply max_of_upper, in_image_numbers. exists name, g.
  split; [now apply elem_of_listdir | auto].
Qed.

Lemma max_of_below (l : list N) (bound : N) :
  (0 < bound)%N -> (forall x, In x l -> (x < bound)%N) ->
  (max_of l < bound)%N.
Proof.
  intros Hpos. induction l as [| x l IH]; cbn [max_of foldr In]; intros H;
    [assumption | ].
  fold (max_of l). apply N.max_lub_lt; auto.
Qed.

End RoundTripFacts.

(** X4.  The names the worker writes are names the scan of the next run
    reads: for every number [n], content type and URL, the pattern
    [image_(\d+)\.\w+] is found in [image_<n><extension>], its group is
    the decimal form of [n], [int] gives [n] back, and a directory that
    holds this name makes the numbering start above [n]. *)
Theorem written_name_is_scanned
    (n : N) (content_type url : string) (existing_images : list string) :
  let img_name :=
    "image_" +:+ PyStr.str_N n +:+ get_file_extension content_type url in
  Numbering.re_search img_name = Some (PyStr.str_N n)
  /\ PyStr.int (PyStr.str_N n) = n
  /\ (In img_name existing_images ->
      (n < Numbering.starting_num existing_images)%N).
Proof.
  intros img_name.
  assert (Numbering.re_search img_name = Some (PyStr.str_N n)) as Hscan.
  { replace n with (n + N.of_nat 0)%N by lia.
    apply re_search_names_item.
    exists (get_file_extension content_type url).
    split; [apply get_file_extension_known | ].
    subst img_name. now replace (n + N.of_nat 0)%N with n by lia. }
  split; [exact Hscan | ]. split; [apply int_str_N | ].
  intros Hin. rewrite starting_num_max.
  assert (n <= Numbering.max_of (Numbering.image_numbers existing_images))%N;
    [ | lia].
  apply max_of_upper, in_image_numbers.
  exists img_name, (PyStr.str_N n). now rewrite int_str_N.
Qed.

Lemma written_name_is_scanned_witness :
  (41 < Numbering.starting_num ["notes.txt"; "image_41.png"])%N.
Proof.
  apply (written_name_is_scanned 41 "image/png" "x" ["notes.txt"; "image_41.png"]).
  vm_compute. tauto.
Defined.

Section DirectoryFacts.

Variable w : World.

Lemma download_images_download valid_urls s :
  download_images w valid_urls s
  = download w valid_urls (Numbering.starting_num (listdir (fs s))) s.
Proof. reflexivity. Qed.

(** The files of a run of [download]: those logged as written are there
    under the name of their position, and every name that is not the
    name of a processed position holds what it held. *)
Lemma download_files valid_urls starting_num s :
  let s' := snd (download w valid_urls starting_num s) in
  let k := stop_index w (polls s) (length valid_urls) in
  exists extra,
    written s' = written s ++ extra
    /\ (forall i name data,
          In (i, name, data) extra ->
          names_item starting_num i name /\ fs s' !! name = Some data)
    /\ (forall name,
          (forall i, (i < k)%nat -> ~ names_item starting_num i name) ->
          fs s' !! name = fs s !! name).
Proof.
  intros s' k. subst s'.
  destruct (stop_index_spec w (polls s) (length valid_urls))
    as (Hk & Hclear & Hset). fold k in Hk, Hclear, Hset.
  destruct (download_run w valid_urls starting_num s k Hk Hclear Hset)
    as (_ & Hobs).
  unfold observable in Hobs. injection Hobs as _ _ _ Hfs _ _ _ _ Hw.
  destruct (run_items_files w starting_num (clock w (ticks s))
              (length valid_urls) (firstn k valid_urls) 0 (start_state s))
    as (extra & Hwr & _ & Hin & Hframe).
  rewrite length_firstn, Nat.min_l in Hframe by assumption.
  exists extra. rewrite Hw, Hfs.
  split; [exact Hwr | ]. split; [exact Hin | ].
  intros name Hname. rewrite Hframe; [reflexivity | ].
  intros i Hi. apply Hname. lia.
Qed.

(** No position of a run of [download_images] has the name of a file
    that was in the directory when the run started. *)
Lemma existing_name_names_no_item s name i :
  is_Some (fs s !! name) ->
  ~ names_item (Numbering.starting_num (listdir (fs s))) i name.
Proof.
  intros Hname Hitem.
  pose proof (listed_number_below_start _ _ _ Hname
                (re_search_names_item _ _ _ Hitem)) as Hlt.
  rewrite int_str_N in Hlt. lia.
Qed.

End DirectoryFacts.

(** X5.  A run of [download_images] never overwrites, changes or removes
    a file that was in the download directory when it started, whatever
    the network, the disk and the Cancel button do: the scan puts the
    first number above every number read in the directory. *)
Theorem download_images_keeps_existing_files
    (w : World) (valid_urls : list (nat * string)) (s : State)
    (name : string) :
  is_Some (fs s !! name) ->
  fs (snd (download_images w valid_urls s)) !! name = fs s !! name.
Proof.
  intros Hname. rewrite download_images_download.
  destruct (download_files w valid_urls
              (Numbering.starting_num (listdir (fs s))) s)
    as (_ & _ & _ & Hframe).
  apply Hframe. intros i _. now apply existing_name_names_no_item.
Qed.

Lemma download_images_keeps_existing_files_witness :
  let s := initial_state {[ "image_1.jpg" := [Byte.x01] ]} in
  fs (snd (download_images (Examples.always 200 150 None)
             Examples.ten_urls s)) !! "image_1.jpg"
  = Some [Byte.x01].
Proof.
  cbv zeta.
  rewrite (download_images_keeps_existing_files
             (Examples.always 200 150 None) Examples.ten_urls
             (initial_state {[ "image_1.jpg" := [Byte.x01] ]}) "image_1.jpg").
  - vm_compute. reflexivity.
  - vm_compute. eauto.
Defined.

(** X6.  The next run starts above every file this run wrote, and no
    higher than the numbers this run gave out.  If a run started at
    [starting_num] and processed [k] items, the scan of the directory it
    leaves gives a start between [starting_num] and [starting_num + k],
    above the number of every file the run wrote in full.  The numbers
    of items that left no file are not kept: if the run created no file
    at all, the next run starts at [starting_num] again and gives the
    same numbers. *)
Theorem next_run_starts_above_written_files
    (w : World) (valid_urls : list (nat * string)) (s : State) :
  let starting_num := Numbering.starting_num (listdir (fs s)) in
  let k := stop_index w (polls s) (length valid_urls) in
  let s' := snd (download_images w valid_urls s) in
  let starting_num' := Numbering.starting_num (listdir (fs s')) in
  (starting_num <= starting_num' <= starting_num + N.of_nat k)%N
  /\ (exists extra,
        written s' = written s ++ extra
        /\ forall i name data,
             In (i, name, data) extra ->
             names_item starting_num i name
             /\ (starting_num + N.of_nat i < starting_num')%N)
  /\ (fs s' = fs s -> starting_num' = starting_num).
Proof.
  intros starting_num k s' starting_num'.
  subst s' starting_num'. rewrite download_images_download.
  fold starting_num.
  destruct (download_files w valid_urls starting_num s)
    as (extra & Hwr & Hin & Hframe). fold k in Hframe.
  set (s' := snd (download w valid_urls starting_num s)) in *.
  split; [split | split].
  - unfold starting_num. rewrite !starting_num_max.
    assert (Numbering.max_of (Numbering.image_numbers (listdir (fs s)))
            < 1 + Numbering.max_of (Numbering.image_numbers (listdir (fs s'))))%N;
      [ | lia].
    apply max_of_below; [lia | ].
    intros x (img & g & Himg & Hg & ->)%in_image_numbers.
    apply elem_of_listdir in Himg.
    rewrite <- starting_num_max.
    apply (listed_number_below_start (fs s') img g); [ | assumption].
    rewrite Hframe; [assumption | ].
    intros i _. now apply existing_name_names_no_item.
  - rewrite (starting_num_max (listdir (fs s'))).
    assert (Numbering.max_of (Numbering.image_numbers (listdir (fs s')))
            < starting_num + N.of_nat k)%N; [ | lia].
    apply max_of_below.
    { unfold starting_num. rewrite starting_num_max. lia. }
    intros x (img & g & Himg & Hg & ->)%in_image_numbers.
    apply elem_of_listdir in Himg.
    destruct (N.ltb_spec (PyStr.int g) (starting_num + N.of_nat k))
      as [Hlt | Hge]; [assumption | ].
    assert (fs s' !! img = fs s !! img) as Hsame.
    { apply Hframe. intros i Hi Hitem.
      apply re_search_names_item in Hitem. rewrite Hitem in Hg.
      injection Hg as <-. rewrite int_str_N in Hge. lia. }
    rewrite Hsame in Himg.
    pose proof (listed_number_below_start (fs s) img g Himg Hg) as Hlt.
    fold starting_num in Hlt. lia.
  - exists extra. split; [exact Hwr | ].
    intros i name data Hmem. destruct (Hin i name data Hmem) as [Hitem Hfile].
    split; [exact Hitem | ].
    pose proof (listed_number_below_start (fs s') name _
                  (mk_is_Some _ _ Hfile)
                  (re_search_names_item _ _ _ Hitem)) as Hlt.
    now rewrite int_str_N in Hlt.
  - intros Hsame. now rewrite Hsame.
Qed.

(** Two items answered with a status 404 get the numbers 1 and 2 and
    leave no file: the next run starts at 1 again. *)
Lemma next_run_starts_above_written_files_witness :
  let s' := snd (download_images (Examples.always 404 300 None)
                   [(0%nat, Examples.url1); (1%nat, Examples.url2)]
                   Examples.empty_dir) in
  map at_img_num (attempted s') = [1%N; 2%N]
  /\ Numbering.starting_num (listdir (fs s')) = 1%N.
Proof.
  cbv zeta. split; [vm_compute; reflexivity | ].
  pose proof (next_run_starts_above_written_files
                (Examples.always 404 300 None)
                [(0%nat, Examples.url1); (1%nat, Examples.url2)]
                Examples.empty_dir) as H.
  cbv zeta in H. destruct H as (_ & _ & H).
  rewrite H; [reflexivity | ].
  vm_compute. reflexivity.
Defined.

(* ================================================================== *)
(** * What a run costs and how it counts *)
(* ================================================================== *)

Section BudgetFacts.

Variable w : World.
Variables (starting_num : N) (start_time : Q) (total : nat).

Lemma backoffs_of_three (a : nat) :
  (1 <= a <= 3)%nat ->
  length (backoffs 0 (a - 1)) = (a - 1)%nat
  /\ Forall (fun d => d = 2 \/ d = 4) (backoffs 0 (a - 1)).
Proof.
  intros Ha.
  assert (a = 1 \/ a = 2 \/ a = 3)%nat as [-> | [-> | ->]] by lia;
    (split; [reflexivity | ]); vm_compute;
    repeat (constructor; [auto | ]); constructor.
Qed.

(** One iteration: one to three requests, a sleep after each request
    but the last, at most one file opened, and the counters moved with
    the two logs. *)
Lemma loop_body_budget idx url s :
  let s' := snd (loop_body w starting_num start_time total idx url s) in
  (exists a, (1 <= a <= 3)%nat
             /\ requests s' = (requests s + a)%nat
             /\ slept s' = slept s ++ backoffs 0 (a - 1))
  /\ (writes s <= writes s' <= S (writes s))%nat
  /\ (successful s' + length (written s)
      = successful s + length (written s'))%nat
  /\ (successful s' + writes s <= successful s + writes s')%nat
  /\ (length (failed_urls s') + failed s
      = length (failed_urls s) + failed s')%nat.
Proof.
  intros s'. subst s'.
  destruct (loop_body_outcome w starting_num start_time total idx url s)
    as (_ & _ & _ & Hreq & Hsl & Hcase).
  split.
  - destruct (retry_loop_requests_and_sleeps w url REQUEST_TIMEOUT MAX_RETRIES
                3 0 None
                (set_ticks (S (ticks (enter_item starting_num idx url s)))
                   (enter_item starting_num idx url s)))
      as (a & Ha & Hle & Hpos & Hs); [reflexivity | ].
    exists a. split; [lia | ]. split.
    + etransitivity; [exact Hreq | exact Ha].
    + etransitivity; [exact Hsl | exact Hs].
  - unfold item_failed in Hcase.
    destruct (fst (item_fetch w starting_num idx url s)) as [r | e].
    + destruct (length (content r) <? 100)%nat.
      * destruct Hcase as ((Hf & Hu & Hsu) & _ & Hw & Hwr).
        rewrite Hf, Hu, Hsu, Hw, Hwr, length_app. cbn [length]. lia.
      * cbv zeta in Hcase. destruct Hcase as (Hw & Hdisk).
        destruct (disk w (writes s) _) as [| msg | msg n].
        -- destruct Hdisk as (Hsu & Hf & Hu & _ & Hwr).
           rewrite Hsu, Hf, Hu, Hw, Hwr, length_app. cbn [length]. lia.
        -- destruct Hdisk as ((Hf & Hu & Hsu) & _ & Hwr).
           rewrite Hf, Hu, Hsu, Hw, Hwr, length_app. cbn [length]. lia.
        -- destruct Hdisk as ((Hf & Hu & Hsu) & _ & Hwr).
           rewrite Hf, Hu, Hsu, Hw, Hwr, length_app. cbn [length]. lia.
    + destruct Hcase as ((Hf & Hu & Hsu) & _ & Hw & Hwr).
      rewrite Hf, Hu, Hsu, Hw, Hwr, length_app. cbn [length]. lia.
Qed.

Lemma run_items_budget items idx s :
  let s' := run_items w starting_num start_time total idx items s in
  (exists sl, slept s' = slept s ++ sl
              /\ (requests s' = requests s + length items + length sl)%nat
              /\ (length sl <= 2 * length items)%nat
              /\ Forall (fun d => d = 2 \/ d = 4) sl)
  /\ (writes s <= writes s' <= writes s + length items)%nat
  /\ (successful s' + length (written s)
      = successful s + length (written s'))%nat
  /\ (successful s' + writes s <= successful s + writes s')%nat
  /\ (length (failed_urls s') + failed s
      = length (failed_urls s) + failed s')%nat.
Proof.
  revert idx s. induction items as [| [o url] rest IH]; intros idx s;
    cbn [run_items length].
  - split; [ | lia]. exists []. rewrite app_nil_r.
    repeat split; [cbn; lia | cbn; lia | constructor].
  - destruct (loop_body_budget idx url (set_polls (S (polls s)) s))
      as ((a & Ha & Hreq & Hsl) & Hw & Hsu & Hsw & Hf).
    set (s1 := snd (loop_body w starting_num start_time total idx url
                      (set_polls (S (polls s)) s))) in *.
    cbn [requests slept writes successful written failed failed_urls
           set_polls] in Hreq, Hsl, Hw, Hsu, Hsw, Hf.
    destruct (IH (S idx) s1) as ((sl & Hsl' & Hreq' & Hlen & Hall) & Hw'
                                 & Hsu' & Hsw' & Hf').
    destruct (backoffs_of_three a Ha) as (Hlena & Halla).
    split; [ | lia].
    exists (backoffs 0 (a - 1) ++ sl).
    rewrite Hsl', Hsl, Hreq', Hreq, length_app, Hlena, <- app_assoc.
    split; [reflexivity | ]. split; [lia | ]. split; [lia | ].
    now apply Forall_app.
Qed.

End BudgetFacts.

Section SummaryFacts.

Variable w : World.

(** A run of [download] and the items it processes. *)
Lemma download_stop_index valid_urls starting_num s :
  let n := length valid_urls in
  let k := stop_index w (polls s) n in
  let s_k :=
    run_items w starting_num (clock w (ticks s)) n 0
      (firstn k valid_urls) (start_state s) in
  let res := download w valid_urls starting_num s in
  (k <= n)%nat
  /\ length (firstn k valid_urls) = k
  /\ (download_cancelled w (polls s + k) = false -> k = n)
  /\ fst res
     = Return (make_summary n (download_cancelled w (polls s + k)) s_k)
  /\ observable (snd res) = observable s_k.
Proof.
  intros n k s_k res. subst res s_k.
  destruct (stop_index_spec w (polls s) (length valid_urls))
    as (Hk & Hclear & Hset). fold n k in Hk, Hclear, Hset.
  destruct (download_run w valid_urls starting_num s k Hk Hclear Hset)
    as (Hres & Hobs). fold n in Hres, Hobs.
  split; [exact Hk | ].
  split; [rewrite length_firstn; lia | ].
  assert (download_cancelled w (polls s + k) = false -> k = n) as Hall.
  { intros Hflag. destruct (Nat.lt_ge_cases k n) as [Hlt | Hge]; [ | lia].
    rewrite (Hset Hlt) in Hflag. discriminate. }
  split; [exact Hall | ].
  split; [ | exact Hobs].
  rewrite Hres. do 2 f_equal.
  destruct (Nat.ltb_spec k n) as [Hlt | Hge]; [ | reflexivity].
  now rewrite (Hset Hlt).
Qed.

End SummaryFacts.

(** X7.  Every run of [download] accounts for each item it processed,
    cancelled or not: with [k] the number of items processed, the run
    ends with [successful + failed = k], one entry of [failed_urls] for
    each failure and one file written in full for each success; its
    summary is the one of its final counters, a cancelled one exactly
    when the flag is found set at the read that follows the last item
    processed; and a run not reported as cancelled has processed all
    its items. *)
Theorem download_accounts_for_every_item
    (w : World) (valid_urls : list (nat * string)) (starting_num : N)
    (s : State) :
  let n := length valid_urls in
  let k := stop_index w (polls s) n in
  let res := download w valid_urls starting_num s in
  let s' := snd res in
  (successful s' + failed s' = k)%nat
  /\ length (failed_urls s') = failed s'
  /\ length (written s') = (length (written s) + successful s')%nat
  /\ fst res
     = Return (make_summary n (download_cancelled w (polls s + k)) s')
  /\ (download_cancelled w (polls s + k) = false ->
      (successful s' + failed s' = n)%nat).
Proof.
  intros n k res s'. subst s' res.
  destruct (download_stop_index w valid_urls starting_num s)
    as (Hk & Hlen & Hall & Hres & Hobs). fold n k in Hk, Hlen, Hall, Hres, Hobs.
  set (s_k := run_items w starting_num (clock w (ticks s)) n 0
                (firstn k valid_urls) (start_state s)) in *.
  unfold observable in Hobs. injection Hobs as _ _ _ _ Hsu Hf Hu _ Hwr.
  destruct (run_items_counts w starting_num (clock w (ticks s)) n
              (firstn k valid_urls) 0 (start_state s))
    as (_ & Hsum & _). fold s_k in Hsum. cbv zeta in Hsum.
  destruct (run_items_budget w starting_num (clock w (ticks s)) n
              (firstn k valid_urls) 0 (start_state s))
    as (_ & _ & Hsw & _ & Hfu). fold s_k in Hsw, Hfu.
  rewrite Hlen in Hsum. cbn in Hsum, Hsw, Hfu.
  assert (successful (snd (download w valid_urls starting_num s))
          + failed (snd (download w valid_urls starting_num s)) = k)%nat
    as Hcount by (rewrite Hsu, Hf; lia).
  split; [exact Hcount | ].
  split; [rewrite Hu, Hf; lia | ].
  split; [rewrite Hwr, Hsu; lia | ].
  split.
  - rewrite Hres. f_equal. unfold make_summary. now rewrite Hsu, Hf, Hu.
  - intros Hflag. rewrite Hcount. auto.
Qed.

Lemma download_accounts_for_every_item_witness :
  let s' := snd (download (Examples.always 200 150 None) Examples.ten_urls 1
                   Examples.empty_dir) in
  (successful s' + failed s' = 10)%nat.
Proof.
  apply (download_accounts_for_every_item (Examples.always 200 150 None)
           Examples.ten_urls 1 Examples.empty_dir).
  reflexivity.
Defined.

(** X8.  What a run of [download] costs.  With [k] the number of items
    it processed, the run makes at least [k] and at most [3 * k] HTTP
    requests; it sleeps once after each request that was not the last of
    its item, every time for 2 or for 4 seconds, so at most [2 * k]
    times; it opens at most [k] files for writing, and at least one for
    each success. *)
Theorem download_requests_sleeps_and_writes
    (w : World) (valid_urls : list (nat * string)) (starting_num : N)
    (s : State) :
  let k := stop_index w (polls s) (length valid_urls) in
  let s' := snd (download w valid_urls starting_num s) in
  (requests s + k <= requests s' <= requests s + 3 * k)%nat
  /\ (exists sl,
        slept s' = slept s ++ sl
        /\ (requests s' = requests s + k + length sl)%nat
        /\ Forall (fun d => d = 2 \/ d = 4) sl)
  /\ (writes s <= writes s' <= writes s + k)%nat
  /\ (successful s' <= writes s' - writes s)%nat.
Proof.
  intros k s'. subst s'.
  destruct (download_stop_index w valid_urls starting_num s)
    as (_ & Hlen & _ & _ & Hobs). fold k in Hlen, Hobs.
  set (s_k := run_items w starting_num (clock w (ticks s))
                (length valid_urls) 0 (firstn k valid_urls) (start_state s))
    in *.
  unfold observable in Hobs. injection Hobs as Hreq Hsl Hw _ Hsu _ _ _ _.
  destruct (run_items_budget w starting_num (clock w (ticks s))
              (length valid_urls) (firstn k valid_urls) 0 (start_state s))
    as ((sl & Hslept & Hrequests & Hbound & Hall) & Hwrites & _ & Hsw & _).
  fold s_k in Hslept, Hrequests, Hwrites, Hsw.
  rewrite Hlen in Hrequests, Hbound, Hwrites.
  cbn in Hslept, Hrequests, Hwrites, Hsw.
  rewrite Hreq, Hsl, Hw, Hsu.
  split; [lia | ]. split; [ | lia].
  exists sl. auto.
Qed.

(* ================================================================== *)
(** * What a run displays *)
(* ================================================================== *)

Section DisplayFacts.

Variable w : World.

Lemma shows_nothing s : shows s s [] [].
Proof.
  unfold shows. rewrite app_nil_r. repeat split; [ | constructor].
  exists []. now rewrite app_nil_r.
Qed.

Lemma shows_trans s1 s2 s3 evs evs' bar bar' :
  shows s1 s2 evs bar -> shows s2 s3 evs' bar' ->
  shows s1 s3 (evs ++ evs') (bar ++ bar').
Proof.
  intros (Hg & Hb & (fl & Hf & Hs) & Hc & Hall)
         (Hg' & Hb' & (fl' & Hf' & Hs') & Hc' & Hall').
  unfold shows. rewrite Hg', Hg, !omap_app, Hb, Hb', Hc, Hc', app_assoc.
  repeat split; [ | now apply Forall_app].
  exists (fl ++ fl'). rewrite Hf', Hf, Hs, Hs', map_app, app_assoc. auto.
Qed.

(** The display of the [try]: nothing, or the mean speed. *)
Lemma try_item_gui url idx img_num s :
  exists pre,
    gui (snd (try_item w url idx img_num s)) = gui s ++ pre
    /\ (pre = [] \/ exists speed, pre = [MeanSpeedLabel speed]).
Proof.
  destruct (try_item_outcome w url idx img_num s) as (_ & Hcase).
  cbv zeta in Hcase.
  destruct (fst (fetch_of w url s)) as [r | e] eqn:Hfetch.
  - destruct (Nat.ltb_spec (length (content r)) 100) as [Hlt | Hge].
    + destruct Hcase as (_ & _ & _ & _ & _ & _ & _ & Hgui).
      exists []. rewrite app_nil_r. auto.
    + destruct (try_item_mean_speed w url idx img_num s r Hfetch Hge)
        as (_ & _ & Hgui).
      eexists. split; [exact Hgui | ]. right. eauto.
  - destruct Hcase as (_ & _ & _ & _ & _ & _ & _ & Hgui).
    exists []. rewrite app_nil_r. auto.
Qed.

(** The display of an iteration after the one of its [try]: the failure
    if the [try] raised, then the three updates of the progress. *)
Lemma loop_body_gui starting_num start_time total idx url s :
  let try := try_item w url idx (starting_num + N.of_nat idx)
               (enter_item starting_num idx url s) in
  exists t,
    gui (snd (loop_body w starting_num start_time total idx url s))
    = gui (snd try)
      ++ match fst try with
         | Raise _ => [StatusFailed url]
         | Return _ => []
         end
      ++ [ProgressBar (idx + 1); ProgressLabel (idx + 1) total;
          RemainingTimeLabel t].
Proof.
  cbv beta iota zeta
    delta [bind ret raise gets modify try_except except_item
             report_progress loop_body time_time update_gui_safe enter_item].
  destruct (try_item w url idx _ _) as [[[] | e] s1]; cbn [fst snd];
    (replace (0 <? idx + 1)%nat with true
      by (symmetry; apply Nat.ltb_lt; lia));
    cbv beta iota;
    cbn [fst snd gui ticks set_gui set_ticks set_failed set_failed_urls];
    eexists; rewrite <- ?app_assoc; reflexivity.
Qed.

Lemma loop_body_shows starting_num start_time total idx url s :
  exists evs,
    shows s (snd (loop_body w starting_num start_time total idx url s))
      evs [(idx + 1)%nat].
Proof.
  destruct (loop_body_gui starting_num start_time total idx url s)
    as (t & Hgui). cbv zeta in Hgui.
  destruct (try_item_gui url idx (starting_num + N.of_nat idx)
              (enter_item starting_num idx url s)) as (pre & Hpre & Hshape).
  pose proof (loop_body_try w starting_num start_time total idx url s) as Htry.
  cbv zeta in Htry. rewrite Hpre in Hgui.
  change (gui (enter_item starting_num idx url s)) with (gui s) in Hgui.
  rewrite <- app_assoc in Hgui.
  eexists. unfold shows. split; [exact Hgui | ].
  rewrite !omap_app.
  assert (omap progress_of pre = [] /\ omap failure_of pre = []
          /\ omap cancelled_of pre = []
          /\ Forall (fun e => closes_run e = false) pre)
    as (Hp1 & Hp2 & Hp3 & Hp4).
  { destruct Hshape as [-> | (speed & ->)];
      repeat split; repeat constructor. }
  rewrite Hp1, Hp2, Hp3.
  destruct (fst (try_item w url idx _ _)) as [[] | e].
  - destruct Htry as (_ & _ & Hu).
    split; [reflexivity | ]. split.
    + exists []. rewrite app_nil_r. auto.
    + split; [reflexivity | ].
      repeat (apply Forall_app; split); auto; repeat constructor.
  - destruct Htry as (_ & Hu & _).
    split; [reflexivity | ]. split.
    + eexists. split; [exact Hu | reflexivity].
    + split; [reflexivity | ].
      repeat (apply Forall_app; split); auto; repeat constructor.
Qed.

Lemma run_items_shows starting_num start_time total items idx s :
  exists evs,
    shows s (run_items w starting_num start_time total idx items s)
      evs (seq (idx + 1) (length items)).
Proof.
  revert idx s. induction items as [| [o url] rest IH]; intros idx s;
    cbn [run_items length seq].
  - exists []. apply shows_nothing.
  - destruct (loop_body_shows starting_num start_time total idx url
                (set_polls (S (polls s)) s)) as (evs & Hevs).
    destruct (IH (S idx)
                (snd (loop_body w starting_num start_time total idx url
                        (set_polls (S (polls s)) s)))) as (evs' & Hevs').
    exists (evs ++ evs').
    change (idx + 1 :: seq (S (idx + 1)) (length rest))%nat
      with ([idx + 1] ++ seq (S idx + 1) (length rest))%nat.
    eapply shows_trans; [ | exact Hevs'].
    exact Hevs.
Qed.

End DisplayFacts.

(** X9.  What a run of [download] displays, in the order of the calls.
    The run adds to the display, first, the events of the [k] items it
    processed, in which the progress bar takes the values 1, 2, ..., [k]
    and the failures shown in the status line are the URLs of
    [failed_urls], in order; then the line _Cancelled. Downloaded ..._
    with the number of successes, if and only if the loop was left
    before the last item; and last, once each and whatever happened,
    the summary box and the reset of the window. *)
Theorem download_display
    (w : World) (valid_urls : list (nat * string)) (starting_num : N)
    (s : State) :
  let n := length valid_urls in
  let k := stop_index w (polls s) n in
  let res := download w valid_urls starting_num s in
  let s' := snd res in
  exists evs summary,
    fst res = Return summary
    /\ gui s'
       = gui s ++ evs
         ++ (if (k <? n)%nat then [StatusCancelled (successful s')] else [])
         ++ [ShowSummary summary; ResetUI]
    /\ omap progress_of evs = seq 1 k
    /\ omap failure_of evs = map fst (failed_urls s')
    /\ omap cancelled_of evs = []
    /\ Forall (fun e => closes_run e = false) evs.
Proof.
  intros n k res s'. subst s' res.
  destruct (download_gui w valid_urls starting_num s) as (summary & Hres & Hgui).
  destruct (download_stop_index w valid_urls starting_num s)
    as (_ & Hlen & _ & _ & Hobs).
  fold n k in Hgui, Hlen, Hobs.
  set (s_k := run_items w starting_num (clock w (ticks s)) n 0
                (firstn k valid_urls) (start_state s)) in *.
  unfold observable in Hobs. injection Hobs as _ _ _ _ Hsu _ Hu _ _.
  destruct (run_items_shows w starting_num (clock w (ticks s)) n
              (firstn k valid_urls) 0 (start_state s))
    as (evs & Hg & Hbar & (fl & Hfl & Hshown) & Hc & Hall).
  fold s_k in Hg, Hfl. rewrite Hlen in Hbar. cbn in Hg, Hfl, Hbar.
  exists evs, summary.
  split; [exact Hres | ].
  split; [rewrite Hgui, Hg, Hsu, <- app_assoc; reflexivity | ].
  split; [exact Hbar | ].
  split; [rewrite Hu, Hfl; exact Hshown | ].
  split; [exact Hc | exact Hall].
Qed.

(* ================================================================== *)
(** * The rows of the CSV file *)
(* ================================================================== *)

Section RowFacts.
Import Handlers.

Lemma truthy_nonempty (s : string) : PyStr.truthy s = true <-> s <> "".
Proof. destruct s; cbn; split; congruence. Qed.

Lemma is_valid_Value (url : cell) :
  is_valid url = true <->
  exists text, url = Value text /\ PyStr.strip text <> "".
Proof.
  unfold is_valid. destruct url as [| text]; cbn [notna str andb].
  - split; [discriminate | intros (text & Heq & _); discriminate].
  - rewrite truthy_nonempty. split; [eauto | ].
    intros (text' & [= <-] & H). exact H.
Qed.

Lemma kept_cons b url urls :
  kept b (url :: urls)
  = if is_valid url then (b, str url) :: kept (S b) urls
    else kept (S b) urls.
Proof. unfold kept. cbn. now destruct (is_valid url). Qed.

Lemma in_kept b urls i text :
  In (i, text) (kept b urls) <->
  (b <= i)%nat /\ urls !! (i - b)%nat = Some (Value text)
  /\ PyStr.strip text <> "".
Proof.
  revert b. induction urls as [| url urls IH]; intros b.
  - cbn. split; [tauto | intros (_ & H & _); discriminate].
  - rewrite kept_cons.
    assert (In (i, text) (kept (S b) urls) <->
            (b < i)%nat /\ (url :: urls) !! (i - b)%nat = Some (Value text)
            /\ PyStr.strip text <> "") as Hrest.
    { rewrite IH. split.
      - intros (Hle & Hl & Hs). split; [lia | ]. split; [ | assumption].
        replace (i - b)%nat with (S (i - S b)) by lia. exact Hl.
      - intros (Hlt & Hl & Hs). split; [lia | ]. split; [ | assumption].
        replace (i - b)%nat with (S (i - S b)) in Hl by lia. exact Hl. }
    destruct (is_valid url) eqn:Hvalid.
    + apply is_valid_Value in Hvalid as (t & -> & Ht). cbn [In str].
      rewrite Hrest. split.
      * intros [[= <- <-] | (Hlt & Hl & Hs)].
        -- split; [lia | ]. rewrite Nat.sub_diag. auto.
        -- split; [lia | auto].
      * intros (Hle & Hl & Hs).
        destruct (decide (i = b)) as [-> | Hne].
        -- rewrite Nat.sub_diag in Hl. injection Hl as ->. now left.
        -- right. split; [lia | auto].
    + rewrite Hrest. split.
      * intros (Hlt & Hl & Hs). split; [lia | auto].
      * intros (Hle & Hl & Hs).
        destruct (decide (i = b)) as [-> | Hne].
        -- rewrite Nat.sub_diag in Hl. injection Hl as ->.
           assert (is_valid (Value text) = true) as Hv
             by (apply is_valid_Value; eauto).
           congruence.
        -- split; [lia | auto].
Qed.

Lemma kept_indices b urls :
  sublist (map fst (kept b urls)) (seq b (length urls)).
Proof.
  revert b. induction urls as [| url urls IH]; intros b.
  - constructor.
  - rewrite kept_cons. cbn [length seq].
    destruct (is_valid url); cbn [map fst].
    + apply sublist_skip, IH.
    + apply sublist_cons, IH.
Qed.

Lemma kept_values b urls :
  map snd (kept b urls) = map str (List.filter is_valid urls).
Proof.
  revert b. induction urls as [| url urls IH]; intros b; [reflexivity | ].
  rewrite kept_cons. cbn [List.filter].
  destruct (is_valid url); cbn [map snd]; now rewrite IH.
Qed.

Lemma find_url_column_first col_names columns :
  match find_url_column col_names columns with
  | Some url_column =>
      exists earlier later,
        col_names = earlier ++ url_column :: later
        /\ In url_column columns
        /\ forall col_name, In col_name earlier -> ~ In col_name columns
  | None => forall col_name, In col_name col_names -> ~ In col_name columns
  end.
Proof.
  induction col_names as [| col_name rest IH]; cbn [find_url_column].
  - intros ? [].
  - destruct (bool_decide_reflect (col_name ∈ columns)) as [Hin | Hout].
    + exists [], rest. split; [reflexivity | ].
      split; [now apply list_elem_of_In | intros ? []].
    + rewrite list_elem_of_In in Hout.
      destruct (find_url_column rest columns) as [url_column |].
      * destruct IH as (earlier & later & -> & Hcol & Hearlier).
        exists (col_name :: earlier), later.
        split; [reflexivity | ]. split; [assumption | ].
        intros x [<- | Hx]; auto.
      * intros x [<- | Hx]; auto.
Qed.

End RowFacts.

(** X10.  The rows the worker is given (line 192).  A pair [(i, url)]
    is kept exactly when row [i] of the column holds a value that is
    not missing and whose text is not blank, and [url] is that text;
    the pairs come in the order of the rows, each row at most once, with
    the index the row has in the file; the URLs kept are those of the
    column that pass the test, in order; so the number of rows skipped,
    [len(urls) - len(valid_urls)], is never negative. *)
Theorem valid_urls_keeps_the_rows_with_a_url (urls : list Handlers.cell) :
  (forall i url,
     In (i, url) (Handlers.valid_urls urls) <->
     urls !! i = Some (Handlers.Value url) /\ PyStr.strip url <> "")
  /\ sublist (map fst (Handlers.valid_urls urls)) (seq 0 (length urls))
  /\ map snd (Handlers.valid_urls urls)
     = map Handlers.str (List.filter Handlers.is_valid urls)
  /\ (length (Handlers.valid_urls urls) <= length urls)%nat.
Proof.
  change (Handlers.valid_urls urls) with (kept 0 urls).
  split; [ | split; [ | split]].
  - intros i url. rewrite in_kept, Nat.sub_0_r.
    split; [tauto | ]. intros H. split; [lia | exact H].
  - apply kept_indices.
  - apply kept_values.
  - pose proof (sublist_length _ _ (kept_indices 0 urls)) as H.
    now rewrite length_map, length_seq in H.
Qed.

(** X11.  The column read for the URLs (lines 176-184) is the first of
    [image_url], [IMAGE_URL], [Image_URL], [url], [URL] that is a column
    of the file, whatever the order of the columns in the file; none is
    found exactly when the file has none of the five.  So a file with a
    column [image_url] is read from it, even if it also has a column
    [url]. *)
Theorem url_column_is_the_first_candidate (columns : list string) :
  match Handlers.find_url_column Handlers.url_column_names columns with
  | Some url_column =>
      exists earlier later,
        Handlers.url_column_names = earlier ++ url_column :: later
        /\ In url_column columns
        /\ forall col_name, In col_name earlier -> ~ In col_name columns
  | None =>
      forall col_name,
        In col_name Handlers.url_column_names -> ~ In col_name columns
  end
  /\ (In "image_url" columns ->
      Handlers.find_url_column Handlers.url_column_names columns
      = Some "image_url").
Proof.
  split; [apply find_url_column_first | ].
  intros Hin. unfold Handlers.url_column_names. cbn [Handlers.find_url_column].
  rewrite bool_decide_eq_true_2; [reflexivity | now apply list_elem_of_In].
Qed.

Lemma url_column_is_the_first_candidate_witness :
  Handlers.find_url_column Handlers.url_column_names
    ["id"; "url"; "image_url"] = Some "image_url".
Proof.
  apply (url_column_is_the_first_candidate ["id"; "url"; "image_url"]).
  cbn. tauto.
Defined.

(* ================================================================== *)
(** * The handlers of the main thread *)
(* ================================================================== *)

Section HandlerFacts.
Import Handlers.

(** A call of [download_images]: it leaves the window as it was and
    starts nothing, or every check has passed and it starts a worker. *)
Lemma download_images_cases (d : Desktop) (g : Window) :
  (exists dialogs l,
     download_images d g = (g, dialogs, l) /\ is_worker l = false)
  \/ (exists dialogs columns column url_column existing_images,
        let urls := column url_column in
        let valid := valid_urls urls in
        let skipped_count := (length urls - length valid)%nat in
        download_images d g
        = (begin_download (length valid) g, dialogs,
           Worker valid (Numbering.starting_num existing_images))
        /\ download_in_progress g = false
        /\ PyStr.truthy (csv_file_path g) = true
        /\ PyStr.truthy (download_dir g) = true
        /\ isdir d (download_dir g) = true
        /\ check_disk_space d (download_dir g) 100000000 = true
        /\ read_csv d (csv_file_path g) = DataFrame columns column
        /\ find_url_column url_column_names columns = Some url_column
        /\ valid <> []
        /\ os_listdir d (download_dir g) = Some existing_images
        /\ ((0 < skipped_count)%nat ->
            askyesno d "Warning"
              (skipped_question skipped_count (length valid)) = true
            /\ dialogs
               = [AskYesNo "Warning"
                    (skipped_question skipped_count (length valid))])
        /\ (skipped_count = 0%nat -> dialogs = [])).
Proof.
  unfold download_images.
  destruct (download_in_progress g) eqn:Hprog;
    [left; eexists _, _; split; reflexivity | ].
  cbv zeta.
  destruct (PyStr.truthy (csv_file_path g)) eqn:Hcsv; cbn [negb orb];
    [ | left; eexists _, _; split; reflexivity].
  destruct (PyStr.truthy (download_dir g)) eqn:Hdir; cbn [negb];
    [ | left; eexists _, _; split; reflexivity].
  destruct (isdir d (download_dir g)) eqn:Hisdir; cbn [negb];
    [ | left; eexists _, _; split; reflexivity].
  destruct (check_disk_space d (download_dir g) 100000000) eqn:Hdisk;
    cbn [negb]; [ | left; eexists _, _; split; reflexivity].
  destruct (read_csv d (csv_file_path g)) as [e | columns column] eqn:Hread;
    [left; eexists _, _; split; reflexivity | ].
  destruct (find_url_column url_column_names columns) as [url_column |]
    eqn:Hcol; [ | left; eexists _, _; split; reflexivity].
  destruct (valid_urls (column url_column)) as [| item valid] eqn:Hvalid;
    [left; eexists _, _; split; reflexivity | ].
  set (skipped_count := (length (column url_column)
                         - length (item :: valid))%nat).
  destruct (Nat.ltb_spec 0 skipped_count) as [Hpos | Hzero]; cbn [andb].
  - destruct (askyesno d "Warning" _) eqn:Hyes; cbn [negb];
      [ | left; eexists _, _; split; reflexivity].
    destruct (os_listdir d (download_dir g)) as [existing_images |] eqn:Hls;
      [ | left; eexists _, _; split; reflexivity].
    right. exists [AskYesNo "Warning"
                     (skipped_question skipped_count (length (item :: valid)))],
             columns, column, url_column, existing_images.
    cbv zeta. rewrite Hvalid. fold skipped_count.
    repeat (split; [first [reflexivity | assumption | discriminate] | ]).
    split; [auto | lia].
  - destruct (os_listdir d (download_dir g)) as [existing_images |] eqn:Hls;
      [ | left; eexists _, _; split; reflexivity].
    right. exists [], columns, column, url_column, existing_images.
    cbv zeta. rewrite Hvalid. fold skipped_count.
    repeat (split; [first [reflexivity | assumption | discriminate] | ]).
    split; [lia | auto].
Qed.

Lemma widgets_setitem x option v g key :
  widgets (setitem x option v g) !! key
  = if decide ((x, option) = key) then Some v else widgets g !! key.
Proof. unfold setitem. cbn [widgets]. apply lookup_insert. Qed.

Lemma flags_setitem x option v g :
  download_in_progress (setitem x option v g) = download_in_progress g
  /\ download_cancelled (setitem x option v g) = download_cancelled g.
Proof. split; reflexivity. Qed.

Lemma begin_download_flags n g :
  download_in_progress (begin_download n g) = true
  /\ download_cancelled (begin_download n g) = false
  /\ download_disabled (begin_download n g).
Proof.
  split; [reflexivity | ]. split; [reflexivity | ].
  unfold download_disabled, begin_download.
  rewrite !widgets_setitem.
  repeat (destruct (decide _) as [Heq | _]; [discriminate Heq | ]).
  destruct (decide _) as [_ | Hne]; [reflexivity | now destruct Hne].
Qed.

Lemma reset_flags g :
  download_in_progress (reset g) = false
  /\ download_cancelled (reset g) = download_cancelled g
  /\ ~ download_disabled (reset g).
Proof.
  split; [reflexivity | ]. split; [reflexivity | ].
  unfold download_disabled, reset.
  rewrite !widgets_setitem.
  destruct (decide _) as [Heq | _]; [discriminate Heq | ].
  destruct (decide _) as [_ | Hne]; [discriminate | now destruct Hne].
Qed.

Lemma update_flags x property_name v g :
  download_in_progress (update x property_name v g) = download_in_progress g
  /\ download_cancelled (update x property_name v g) = download_cancelled g
  /\ (x <> download_button ->
      widgets (update x property_name v g) !! (download_button, "state")
      = widgets g !! (download_button, "state")).
Proof.
  unfold update.
  repeat (destruct (String.eqb property_name _);
          [split; [reflexivity | ]; split; [reflexivity | ];
           intros Hx; rewrite widgets_setitem;
           destruct (decide _) as [Heq | _]; [congruence | reflexivity]
          | ]).
  repeat split.
Qed.

(** One action of the main loop and the two flags: a worker is started
    only from a window with no download in progress, and leaves one in
    progress and not cancelled; [reset] ends the download in progress;
    Cancel sets its flag; nothing else touches the flags. *)
Lemma handle_flags (g : Window) (a : action) :
  let g' := fst (handle g a) in
  if is_worker (snd (handle g a)) then
    download_in_progress g = false /\ download_in_progress g' = true
    /\ download_cancelled g' = false /\ is_reset a = false
    /\ is_cancel a = false
  else
    download_in_progress g'
    = (if is_reset a then false else download_in_progress g)
    /\ download_cancelled g'
       = (if is_cancel a then true else download_cancelled g).
Proof.
  destruct a as [d | | [x property_name v | msg_type title message |]];
    cbn [handle is_reset is_cancel fst snd is_worker cancel_download
           run_callback].
  - destruct (download_images_cases d g)
      as [(dialogs & l & -> & Hl)
         | (dialogs & columns & column & url_column & existing_images & H)].
    + cbn [fst snd]. rewrite Hl. auto.
    + cbv zeta in H. destruct H as (-> & Hprog & _).
      cbn [fst snd is_worker].
      destruct (begin_download_flags
                  (length (valid_urls (column url_column))) g)
        as (Hp & Hc & _).
      auto.
  - auto.
  - destruct (update_flags x property_name v g) as (Hp & Hc & _). auto.
  - auto.
  - auto.
Qed.

(** One action and the Download button. *)
Lemma handle_download_button (g : Window) (a : action) :
  updates_download_button a = false ->
  (download_in_progress g = true <-> download_disabled g) ->
  download_in_progress (fst (handle g a)) = true
  <-> download_disabled (fst (handle g a)).
Proof.
  intros Ha Hinv.
  destruct a as [d | | [x property_name v | msg_type title message |]];
    cbn [handle fst snd cancel_download run_callback].
  - destruct (download_images_cases d g)
      as [(dialogs & l & -> & Hl)
         | (dialogs & columns & column & url_column & existing_images & H)].
    + exact Hinv.
    + cbv zeta in H. destruct H as (-> & _). cbn [fst].
      destruct (begin_download_flags
                  (length (valid_urls (column url_column))) g)
        as (Hp & _ & Hb).
      tauto.
  - exact Hinv.
  - destruct (update_flags x property_name v g) as (Hp & _ & Hw).
    unfold download_disabled in *. rewrite Hp, Hw; [exact Hinv | ].
    intros ->. discriminate.
  - exact Hinv.
  - destruct (reset_flags g) as (Hp & _ & Hb). rewrite Hp.
    split; [discriminate | tauto].
Qed.

Lemma after_actions_cons g a acts :
  after_actions g (a :: acts) = after_actions (fst (handle g a)) acts.
Proof. reflexivity. Qed.

Lemma after_actions_app g acts1 acts2 :
  after_actions g (acts1 ++ acts2)
  = after_actions (after_actions g acts1) acts2.
Proof. unfold after_actions. apply fold_left_app. Qed.

(** Each worker started takes the flag [download_in_progress], and only
    [reset] gives it back. *)
Lemma workers_started_bound (acts : list action) :
  forall g,
    (workers_started g acts + (if download_in_progress g then 1 else 0)
     <= length (List.filter is_reset acts)
        + (if download_in_progress (after_actions g acts) then 1 else 0))%nat.
Proof.
  induction acts as [| a acts IH]; intros g; [cbn; lia | ].
  rewrite after_actions_cons. cbn [workers_started List.filter].
  specialize (IH (fst (handle g a))).
  pose proof (handle_flags g a) as H. cbv zeta in H.
  destruct (is_worker (snd (handle g a))).
  - destruct H as (Hp & Hp' & _ & Hr & _). rewrite Hr.
    rewrite Hp' in IH. rewrite Hp. lia.
  - destruct H as (Hp & _). rewrite Hp in IH.
    destruct (is_reset a); cbn [length].
    + destruct (download_in_progress g); lia.
    + destruct (download_in_progress g); lia.
Qed.

(** Actions that start no worker and are no click on Cancel leave the
    cancel flag as it was. *)
Lemma download_cancelled_kept (acts : list action) :
  forall g,
    Forall (fun a => is_cancel a = false) acts ->
    workers_started g acts = 0%nat ->
    download_cancelled (after_actions g acts) = download_cancelled g.
Proof.
  induction acts as [| a acts IH]; intros g Hall Hnone; [reflexivity | ].
  rewrite after_actions_cons. cbn [workers_started] in Hnone.
  apply Forall_cons in Hall as [Ha Hall].
  pose proof (handle_flags g a) as H. cbv zeta in H.
  destruct (is_worker (snd (handle g a))); [lia | ].
  destruct H as (_ & Hc). rewrite Ha in Hc.
  rewrite IH by (auto; lia). exact Hc.
Qed.

(** Without a click on Cancel, a flag that is clear stays clear. *)
Lemma download_cancelled_stays_clear (acts : list action) :
  forall g,
    Forall (fun a => is_cancel a = false) acts ->
    download_cancelled g = false ->
    download_cancelled (after_actions g acts) = false.
Proof.
  induction acts as [| a acts IH]; intros g Hall Hclear; [assumption | ].
  rewrite after_actions_cons.
  apply Forall_cons in Hall as [Ha Hall].
  apply IH; [assumption | ].
  pose proof (handle_flags g a) as H. cbv zeta in H.
  destruct (is_worker (snd (handle g a))).
  - tauto.
  - destruct H as (_ & ->). now rewrite Ha.
Qed.

End HandlerFacts.

(** X12.  [download_images] starts a worker only when every check has
    passed: no download is in progress, both paths are set, the
    directory exists, the free space could not be read or is at least
    100,000,000 bytes, the file was read and has a URL column, at least
    one row has a URL, the user agreed if rows are skipped, and the
    directory could be listed.  The worker gets the rows kept and the
    number after the largest one read in the directory, and the window
    is the one of [begin_download].  In every other case the window is
    left exactly as it was. *)
Theorem download_images_starts_after_all_checks
    (d : Handlers.Desktop) (g : Handlers.Window) :
  let '(g', dialogs, started) := Handlers.download_images d g in
  match started with
  | Handlers.Worker valid_urls starting_num =>
      Handlers.download_in_progress g = false
      /\ Handlers.csv_file_path g <> "" /\ Handlers.download_dir g <> ""
      /\ Handlers.isdir d (Handlers.download_dir g) = true
      /\ (forall free,
            Handlers.disk_usage d (Handlers.download_dir g) = Some free ->
            100000000 <= free)
      /\ valid_urls <> []
      /\ (exists columns column url_column existing_images,
            Handlers.read_csv d (Handlers.csv_file_path g)
            = Handlers.DataFrame columns column
            /\ In url_column Handlers.url_column_names
            /\ In url_column columns
            /\ valid_urls = Handlers.valid_urls (column url_column)
            /\ Handlers.os_listdir d (Handlers.download_dir g)
               = Some existing_images
            /\ starting_num = Numbering.starting_num existing_images
            /\ ((length valid_urls < length (column url_column))%nat ->
                exists question,
                  dialogs = [Handlers.AskYesNo "Warning" question]
                  /\ Handlers.askyesno d "Warning" question = true))
      /\ g' = Handlers.begin_download (length valid_urls) g
      /\ Handlers.download_in_progress g' = true
      /\ Handlers.download_cancelled g' = false
  | _ => g' = g
  end.
Proof.
  destruct (download_images_cases d g)
    as [(dialogs & l & -> & Hl)
       | (dialogs & columns & column & url_column & existing_images & H)].
  - destruct l; [reflexivity | reflexivity | discriminate].
  - cbv zeta in H.
    destruct H as (-> & Hprog & Hcsv & Hdir & Hisdir & Hdisk & Hread & Hcol
                   & Hvalid & Hls & Hask & _).
    split; [exact Hprog | ].
    split; [now apply truthy_nonempty | ].
    split; [now apply truthy_nonempty | ].
    split; [exact Hisdir | ].
    split.
    { intros free Hfree. unfold Handlers.check_disk_space in Hdisk.
      rewrite Hfree in Hdisk. lia. }
    split; [exact Hvalid | ].
    split.
    { exists columns, column, url_column, existing_images.
      pose proof (find_url_column_first Handlers.url_column_names columns)
        as Hfirst.
      rewrite Hcol in Hfirst.
      destruct Hfirst as (earlier & later & Hnames & Hin & _).
      split; [exact Hread | ].
      split; [rewrite Hnames; apply in_or_app; right; now left | ].
      split; [exact Hin | ].
      split; [reflexivity | ]. split; [exact Hls | ].
      split; [reflexivity | ].
      intros Hlt. destruct Hask as (Hyes & ->); [lia | ]. eauto. }
    split; [reflexivity | ].
    split; reflexivity.
Qed.

Lemma download_images_starts_after_all_checks_witness :
  let res := Handlers.download_images HandlerExamples.desktop
               HandlerExamples.window in
  Handlers.is_worker (snd res) = true
  /\ Handlers.download_in_progress (fst (fst res)) = true.
Proof.
  cbv zeta. split; [vm_compute; reflexivity | ].
  pose proof (download_images_starts_after_all_checks
                HandlerExamples.desktop HandlerExamples.window) as H.
  destruct (Handlers.download_images HandlerExamples.desktop
              HandlerExamples.window)
    as [[g' dialogs] [| | valid_urls starting_num]] eqn:E;
    [vm_compute in E; discriminate E | vm_compute in E; discriminate E | ].
  cbn [fst]. tauto.
Defined.

(** X13.  At most one worker at a time.  Over any sequence of clicks on
    Download and Cancel and of callbacks run by the main loop, each
    worker started takes the flag [download_in_progress] and only the
    callback [reset] gives it back: the workers started are at most the
    [reset]s run, plus one if a download is in progress at the end,
    minus one if one was in progress at the start.  So between two
    [reset]s at most one worker is started, however often Download is
    clicked. *)
Theorem one_worker_between_resets
    (g : Handlers.Window) (acts : list Handlers.action) :
  (Handlers.workers_started g acts
   + (if Handlers.download_in_progress g then 1 else 0)
   <= length (List.filter Handlers.is_reset acts)
      + (if Handlers.download_in_progress (Handlers.after_actions g acts)
         then 1 else 0))%nat
  /\ (Forall (fun a => Handlers.is_reset a = false) acts ->
      (Handlers.workers_started g acts <= 1)%nat
      /\ (Handlers.download_in_progress g = true ->
          Handlers.workers_started g acts = 0%nat)).
Proof.
  pose proof (workers_started_bound acts g) as Hbound.
  split; [exact Hbound | ].
  intros Hnone.
  assert (List.filter Handlers.is_reset acts = []) as Hfilter.
  { clear Hbound. induction acts as [| a acts IH]; [reflexivity | ].
    apply Forall_cons in Hnone as [Ha Hnone]. cbn [List.filter].
    rewrite Ha. auto. }
  rewrite Hfilter in Hbound. cbn [length] in Hbound.
  split.
  - destruct (Handlers.download_in_progress (Handlers.after_actions g acts));
      lia.
  - intros Hprog. rewrite Hprog in Hbound.
    destruct (Handlers.download_in_progress (Handlers.after_actions g acts));
      lia.
Qed.

Lemma one_worker_between_resets_witness :
  (Handlers.workers_started HandlerExamples.window
     [Handlers.ClickDownload HandlerExamples.desktop;
      Handlers.ClickDownload HandlerExamples.desktop;
      Handlers.ClickCancel;
      Handlers.ClickDownload HandlerExamples.desktop] <= 1)%nat.
Proof.
  apply (one_worker_between_resets HandlerExamples.window
           [Handlers.ClickDownload HandlerExamples.desktop;
            Handlers.ClickDownload HandlerExamples.desktop;
            Handlers.ClickCancel;
            Handlers.ClickDownload HandlerExamples.desktop]).
  repeat constructor.
Defined.

(** X14.  The Download button is disabled exactly while a download is in
    progress.  If this holds of a window, as it does of the window the
    program builds, it holds after any sequence of clicks and callbacks
    in which no update through [update_gui_safe] is addressed to the
    Download button. *)
Theorem download_button_follows_the_flag
    (g : Handlers.Window) (acts : list Handlers.action) :
  (Handlers.download_in_progress g = true <-> Handlers.download_disabled g) ->
  Forall (fun a => Handlers.updates_download_button a = false) acts ->
  Handlers.download_in_progress (Handlers.after_actions g acts) = true
  <-> Handlers.download_disabled (Handlers.after_actions g acts).
Proof.
  revert g. induction acts as [| a acts IH]; intros g Hinv Hall;
    [exact Hinv | ].
  apply Forall_cons in Hall as [Ha Hall].
  rewrite after_actions_cons. apply IH; [ | assumption].
  now apply handle_download_button.
Qed.

Lemma download_button_follows_the_flag_witness :
  let g := Handlers.after_actions HandlerExamples.window
             [Handlers.ClickDownload HandlerExamples.desktop;
              Handlers.Run (Handlers.Update Handlers.progress_bar "value"
                              (Handlers.Int 1));
              Handlers.Run Handlers.Reset] in
  Handlers.download_in_progress g = true <-> Handlers.download_disabled g.
Proof.
  apply (download_button_follows_the_flag HandlerExamples.window
           [Handlers.ClickDownload HandlerExamples.desktop;
            Handlers.Run (Handlers.Update Handlers.progress_bar "value"
                            (Handlers.Int 1));
            Handlers.Run Handlers.Reset]).
  - split; [discriminate | ].
    unfold Handlers.download_disabled. vm_compute. discriminate.
  - repeat constructor.
Defined.

(** X15.  The cancel flag belongs to the run in progress.  A click on
    Cancel made before a worker is started is forgotten when it starts:
    after the start, and as long as Cancel is not clicked, the flag the
    worker reads is clear.  A click on Cancel sets the flag, and it
    stays set until the next worker is started. *)
Theorem cancel_flag_belongs_to_the_run
    (g : Handlers.Window) (acts1 acts2 : list Handlers.action)
    (d : Handlers.Desktop) :
  let g1 := Handlers.after_actions g acts1 in
  Forall (fun a => Handlers.is_cancel a = false) acts2 ->
  (Handlers.is_worker (snd (Handlers.handle g1 (Handlers.ClickDownload d)))
   = true ->
   Handlers.download_cancelled
     (Handlers.after_actions g
        (acts1 ++ Handlers.ClickDownload d :: acts2)) = false)
  /\ (Handlers.workers_started
        (fst (Handlers.handle g1 Handlers.ClickCancel)) acts2 = 0%nat ->
      Handlers.download_cancelled
        (Handlers.after_actions g (acts1 ++ Handlers.ClickCancel :: acts2))
      = true).
Proof.
  intros g1 Hall. split.
  - intros Hstart. rewrite after_actions_app, after_actions_cons. fold g1.
    apply download_cancelled_stays_clear; [assumption | ].
    pose proof (handle_flags g1 (Handlers.ClickDownload d)) as H.
    cbv zeta in H. rewrite Hstart in H. tauto.
  - intros Hnone. rewrite after_actions_app, after_actions_cons. fold g1.
    rewrite download_cancelled_kept by assumption. reflexivity.
Qed.

Lemma cancel_flag_belongs_to_the_run_witness :
  Handlers.download_cancelled
    (Handlers.after_actions HandlerExamples.window
       ([Handlers.ClickCancel]
        ++ Handlers.ClickDownload HandlerExamples.desktop
           :: [Handlers.Run (Handlers.Update Handlers.status_label "text"
                               (Handlers.Str "Cancelling..."))]))
  = false.
Proof.
  apply (cancel_flag_belongs_to_the_run HandlerExamples.window
           [Handlers.ClickCancel]
           [Handlers.Run (Handlers.Update Handlers.status_label "text"
                            (Handlers.Str "Cancelling..."))]
           HandlerExamples.desktop).
  - repeat constructor.
  - vm_compute. reflexivity.
Defined.

(* ================================================================== *)
(** * A run in which nothing fails *)
(* ================================================================== *)

Section SavedFacts.

Variable w : World.
Variables (starting_num : N) (start_time : Q) (total : nat).

(** An iteration whose request is answered at once with a payload that
    passes the size check, and whose file can be written. *)
Lemma loop_body_saved idx url s r :
  net w (requests s) url REQUEST_TIMEOUT = NetResponse r ->
  status_ok r = true ->
  (100 <= length (content r))%nat ->
  disk w (writes s) (image_name starting_num idx r url) = DiskOk ->
  let s' := snd (loop_body w starting_num start_time total idx url s) in
  requests s' = S (requests s) /\ slept s' = slept s
  /\ successful s' = S (successful s) /\ failed s' = failed s
  /\ failed_urls s' = failed_urls s
  /\ written s'
     = written s ++ [(idx, image_name starting_num idx r url, content r)].
Proof.
  intros Hnet Hok Hlen Hdisk s'. subst s'.
  destruct (loop_body_outcome w starting_num start_time total idx url s)
    as (_ & _ & _ & Hreq & Hsl & Hcase).
  assert (item_fetch w starting_num idx url s
          = (Return r,
             after_request
               (set_ticks (S (ticks (enter_item starting_num idx url s)))
                  (enter_item starting_num idx url s)))) as Hfetch.
  { unfold item_fetch, fetch_of, download_with_retry.
    change (range MAX_RETRIES) with [0; 1; 2].
    apply retry_loop_returns; assumption. }
  rewrite Hfetch in Hreq, Hsl, Hcase. cbn [fst snd] in Hreq, Hsl, Hcase.
  assert ((length (content r) <? 100)%nat = false) as Hsize
    by (apply Nat.ltb_ge; lia).
  rewrite Hsize in Hcase. cbv zeta in Hcase.
  destruct Hcase as (_ & Hd). rewrite Hdisk in Hd.
  destruct Hd as (Hsu & Hf & Hu & _ & Hwr).
  repeat (split; [assumption | ]). exact Hwr.
Qed.

Lemma run_items_saved items :
  nothing_fails w ->
  forall idx s,
    let s' := run_items w starting_num start_time total idx items s in
    requests s' = (requests s + length items)%nat
    /\ slept s' = slept s
    /\ successful s' = (successful s + length items)%nat
    /\ failed s' = failed s
    /\ failed_urls s' = failed_urls s
    /\ exists extra,
         written s' = written s ++ extra
         /\ forall i original_idx url,
              items !! i = Some (original_idx, url) ->
              exists r,
                net w (requests s + i) url REQUEST_TIMEOUT = NetResponse r
                /\ extra !! i
                   = Some ((idx + i)%nat,
                           image_name starting_num (idx + i) r url,
                           content r).
Proof.
  intros (_ & Hnet & Hdisk).
  induction items as [| [o url] rest IH]; intros idx s; cbn [run_items length].
  - rewrite !Nat.add_0_r. repeat (split; [reflexivity | ]).
    exists []. rewrite app_nil_r. split; [reflexivity | ].
    intros i ? ? H. discriminate H.
  - destruct (Hnet (requests s) url) as (r & Hr & Hok & Hlen).
    destruct (loop_body_saved idx url (set_polls (S (polls s)) s) r
                Hr Hok Hlen (Hdisk _ _))
      as (Hreq & Hsl & Hsu & Hf & Hu & Hwr).
    set (s1 := snd (loop_body w starting_num start_time total idx url
                      (set_polls (S (polls s)) s))) in *.
    cbn [requests slept successful failed failed_urls written set_polls]
      in Hreq, Hsl, Hsu, Hf, Hu, Hwr.
    destruct (IH (S idx) s1)
      as (Hreq' & Hsl' & Hsu' & Hf' & Hu' & extra & Hwr' & Hextra).
    split; [lia | ]. split; [congruence | ]. split; [lia | ].
    split; [congruence | ]. split; [congruence | ].
    exists ((idx, image_name starting_num idx r url, content r) :: extra).
    split; [rewrite Hwr', Hwr, <- app_assoc; reflexivity | ].
    intros [| i] original_idx url' Hi; cbn in Hi.
    + injection Hi as -> ->. exists r. rewrite !Nat.add_0_r. auto.
    + destruct (Hextra i original_idx url' Hi) as (r' & Hr' & Hlook).
      exists r'. rewrite Hreq in Hr'.
      replace (requests s + S i)%nat with (S (requests s) + i)%nat by lia.
      replace (idx + S i)%nat with (S idx + i)%nat by lia.
      auto.
Qed.

End SavedFacts.

(** X16.  When nothing fails, every URL is saved.  If every request is
    answered with a status outside 400..599 and at least 100 bytes,
    every file can be written and Cancel is not pressed, then a run of
    [download] over [n] items makes exactly [n] requests and never
    sleeps, ends with _Download complete_, [n] successes and no
    failure, and has saved the payload answered to the [i]-th request
    under the name of the number [starting_num + i], for each item. *)
Theorem every_url_is_saved_when_nothing_fails
    (w : World) (valid_urls : list (nat * string)) (starting_num : N)
    (s : State) :
  nothing_fails w ->
  let n := length valid_urls in
  let res := download w valid_urls starting_num s in
  let s' := snd res in
  fst res = Return (DownloadComplete n 0 None)
  /\ requests s' = (requests s + n)%nat
  /\ slept s' = slept s
  /\ (successful s' = n /\ failed s' = 0%nat /\ failed_urls s' = [])
  /\ forall i original_idx url,
       valid_urls !! i = Some (original_idx, url) ->
       exists r,
         net w (requests s + i) url REQUEST_TIMEOUT = NetResponse r
         /\ fs s' !! image_name starting_num i r url = Some (content r)
         /\ In (i, image_name starting_num i r url, content r) (written s').
Proof.
  intros Hfine n res s'. subst s' res.
  pose proof Hfine as (Hcancel & _).
  destruct (download_stop_index w valid_urls starting_num s)
    as (_ & _ & _ & Hres & Hobs).
  assert (stop_index w (polls s) (length valid_urls) = n) as Hk
    by (unfold stop_index; now rewrite Hcancel).
  assert (forall p, download_cancelled w p = false) as Hflag
    by (intros p; unfold download_cancelled; now rewrite Hcancel).
  rewrite Hk in Hres, Hobs. rewrite Hflag in Hres.
  unfold n in Hres, Hobs. rewrite firstn_all in Hres, Hobs.
  fold n in Hres, Hobs.
  set (s_n := run_items w starting_num (clock w (ticks s)) n 0
                valid_urls (start_state s)) in *.
  unfold observable in Hobs. injection Hobs as Hreq Hsl _ Hfs Hsu Hf Hu _ Hwr.
  destruct (run_items_saved w starting_num (clock w (ticks s)) n valid_urls
              Hfine 0 (start_state s))
    as (Hreq' & Hsl' & Hsu' & Hf' & Hu' & extra & Hwr' & Hextra).
  fold n s_n in Hreq', Hsl', Hsu', Hf', Hu', Hwr'.
  cbn in Hreq', Hsl', Hsu', Hf', Hu', Hwr', Hextra.
  destruct (run_items_files w starting_num (clock w (ticks s)) n valid_urls
              0 (start_state s))
    as (extra2 & Hwr2 & _ & Hin & _).
  fold s_n in Hwr2, Hin. cbn in Hwr2.
  assert (extra2 = extra) as ->
    by (apply (app_inv_head (written s)); congruence).
  split.
  { rewrite Hres. unfold make_summary. now rewrite Hsu', Hf'. }
  split; [congruence | ]. split; [congruence | ].
  split; [repeat split; congruence | ].
  intros i original_idx url Hi.
  destruct (Hextra i original_idx url Hi) as (r & Hr & Hlook).
  exists r. split; [exact Hr | ].
  assert (In (i, image_name starting_num i r url, content r) extra) as Hmem
    by (apply list_elem_of_In, (list_elem_of_lookup_2 _ i); exact Hlook).
  split.
  - rewrite Hfs. now apply (Hin i).
  - rewrite Hwr, Hwr'. apply in_or_app. now right.
Qed.

Lemma every_url_is_saved_when_nothing_fails_witness :
  fst (download (Examples.always 200 150 None) Examples.ten_urls 1
         Examples.empty_dir)
  = Return (DownloadComplete 10 0 None).
Proof.
  apply (every_url_is_saved_when_nothing_fails
           (Examples.always 200 150 None) Examples.ten_urls 1
           Examples.empty_dir).
  split; [reflexivity | ]. split; [ | reflexivity].
  intros n url. exists (Examples.response 200 150).
  split; [reflexivity | ]. split; [reflexivity | ].
  vm_compute. lia.
Defined.

(* ================================================================== *)
(** * The two estimates *)
(* ================================================================== *)

(** X17.  The two estimates are never negative: the mean speed for
    every number of bytes that is not negative, whatever the time (also
    zero or negative, where it is 0); the remaining time whenever the
    elapsed time is not negative and no more items are done than there
    are.  After the last item the remaining time is 0. *)
Theorem estimates_are_never_negative :
  (forall total_size total_time,
     0 <= total_size -> (0 <= mean_speed total_size total_time)%Q)
  /\ (forall elapsed_total_time progress total,
        (0 <= elapsed_total_time)%Q -> (progress <= total)%nat ->
        (0 <= remaining_time elapsed_total_time progress total)%Q)
  /\ (forall elapsed_total_time total,
        (remaining_time elapsed_total_time total total == 0)%Q).
Proof.
  assert (forall z, 0 <= z -> (0 <= inject_Z z)%Q) as Hinj.
  { intros z Hz. change 0%Q with (inject_Z 0). now rewrite <- Zle_Qle. }
  split; [ | split].
  - intros total_size total_time Hsize. unfold mean_speed.
    destruct (Qlt_le_dec 0 total_time) as [Hpos | _]; [ | apply Qle_refl].
    apply Qle_shift_div_l.
    + apply Qmult_lt_0_compat; [exact Hpos | reflexivity].
    + rewrite Qmult_0_l. apply Hinj. lia.
  - intros elapsed progress total Helapsed Hle. unfold remaining_time.
    apply Qmult_le_0_compat.
    + unfold Qdiv. apply Qmult_le_0_compat; [exact Helapsed | ].
      apply Qinv_le_0_compat, Hinj. lia.
    + apply Hinj. lia.
  - intros elapsed total. unfold remaining_time.
    rewrite Z.sub_diag. apply Qmult_0_r.
Qed.

Lemma estimates_are_never_negative_witness :
  (0 <= mean_speed 1000000 8)%Q /\ (0 <= remaining_time 5 5 10)%Q.
Proof.
  destruct estimates_are_never_negative as (Hspeed & Hremaining & _).
  split.
  - apply Hspeed. lia.
  - apply Hremaining; [discriminate | lia].
Defined.

(** The two examples of C5 in binary64 arithmetic, the arithmetic of
    Python's [float]: [(1000000 * 8) / (8.0 * 1000000)] is exactly [1.0],
    and [(5.0 / 5) * (10 - 5)] is exactly [5.0]. *)
Module Binary64.
Import PrimFloat.

Example progress_examples_binary64 :
  PrimFloat.eqb
    (PrimFloat.div 8000000%float (PrimFloat.mul 8%float 1000000%float))
    1%float
  = true
  /\ PrimFloat.eqb
       (PrimFloat.mul (PrimFloat.div 5%float 5%float) 5%float) 5%float
     = true.
Proof. split; vm_compute; reflexivity. Qed.

End Binary64.
